(** * Secure key export and private-key normalisation: a shallow embedding

    The development follows the TypeScript sources of the service:
    the HPKE export pipeline ([decryptHPKEMessage], [exportWalletPrivateKey],
    [main]) and the two private-key normalisation helpers
    ([decodePrivateKey], [decodeDoubleHexPrivateKey]).

    JavaScript strings are sequences of UTF-16 code units, byte buffers are
    lists of [byte]; calls into the platform (WebCrypto, the HPKE package,
    the custody SDK, fetch) are events of a small program monad, answered by
    a [Platform]. Console output and the [performance.now()] bookkeeping of
    [main] influence neither values nor control flow and are left out. *)

From Stdlib Require Import Ascii String.
From Stdlib Require Import List Arith NArith ZArith Bool Lia ZifyNat ZifyN.
From Stdlib.Strings Require Import Byte.
From Stdlib Require DecimalN.
Import ListNotations.
Open Scope N_scope.

Set Implicit Arguments.

(** ** JavaScript strings and byte buffers *)

(** A string is the list of its UTF-16 code units. *)
Definition jsstring := list N.

(** A [Uint8Array] / [Buffer] / [ArrayBuffer] content. *)
Definition bytes := list byte.

(** String literals of the source, written as Rocq strings. *)
Definition str (s : string) : jsstring :=
  map N_of_ascii (list_ascii_of_string s).

Definition byte_of_N (n : N) : byte :=
  match Byte.of_N (n mod 256) with
  | Some b => b
  | None => x00
  end.

Fixpoint is_prefix (prefix s : jsstring) : bool :=
  match prefix, s with
  | [], _ => true
  | a :: prefix', b :: s' => (a =? b) && is_prefix prefix' s'
  | _ :: _, [] => false
  end.

(** [s.startsWith(prefix)] *)
Definition startsWith (s prefix : jsstring) : bool := is_prefix prefix s.

(** [s.slice(n)] for [0 <= n]. *)
Definition slice (n : nat) (s : jsstring) : jsstring := skipn n s.

(** [s.substring(a, b)] for [0 <= a <= b]. *)
Definition substring (a b : nat) (s : jsstring) : jsstring :=
  firstn (b - a) (skipn a s).

(** ** Hexadecimal: [Buffer.toString('hex')], [Buffer.from(s, 'hex')] and the
    character class [[0-9a-fA-F]] *)

Definition hex_digit (n : N) : N :=
  if n <? 10 then 48 + n else 87 + n.

Definition toHex (b : bytes) : jsstring :=
  flat_map (fun x => [hex_digit (Byte.to_N x / 16); hex_digit (Byte.to_N x mod 16)]) b.

Definition hex_value (c : N) : option N :=
  if (48 <=? c) && (c <=? 57) then Some (c - 48)
  else if (97 <=? c) && (c <=? 102) then Some (c - 87)
  else if (65 <=? c) && (c <=? 70) then Some (c - 55)
  else None.

Definition is_hex_digit (c : N) : bool :=
  match hex_value c with Some _ => true | None => false end.

Definition is_lower_hex_digit (c : N) : bool :=
  ((48 <=? c) && (c <=? 57)) || ((97 <=? c) && (c <=? 102)).

(** [/^[0-9a-fA-F]{n}$/.test(s)] *)
Definition test_hex (n : nat) (s : jsstring) : bool :=
  (length s =? n)%nat && forallb is_hex_digit s.

(** [Buffer.from(s, 'hex')]: pairs of digits, stopping at the first pair that
    is not hexadecimal (a trailing single digit is dropped). *)
Fixpoint fromHex (s : jsstring) : bytes :=
  match s with
  | h :: l :: rest =>
      match hex_value h, hex_value l with
      | Some hv, Some lv => byte_of_N (16 * hv + lv) :: fromHex rest
      | _, _ => []
      end
  | _ => []
  end.

(** ** UTF-8 decoding: [Buffer.toString('utf8')]

    The decoder replaces every ill-formed sequence by U+FFFD and emits
    UTF-16 code units (a surrogate pair above the BMP). *)

Record utf8_state := {
  u_cp : N;          (* code point being assembled *)
  u_needed : nat;    (* continuation bytes still expected *)
  u_lower : N;       (* bounds of the next continuation byte *)
  u_upper : N
}.

Definition utf16_units (cp : N) : jsstring :=
  if cp <? 65536 then [cp]
  else [55296 + (cp - 65536) / 1024; 56320 + (cp - 65536) mod 1024].

(** A byte read with no sequence pending: either code units to emit or the
    state of a multi-byte sequence just opened. *)
Definition utf8_lead (b : N) : jsstring + utf8_state :=
  if b <=? 127 then inl [b]
  else if (194 <=? b) && (b <=? 223) then
    inr {| u_cp := N.land b 31; u_needed := 1; u_lower := 128; u_upper := 191 |}
  else if (224 <=? b) && (b <=? 239) then
    inr {| u_cp := N.land b 15; u_needed := 2;
           u_lower := if b =? 224 then 160 else 128;
           u_upper := if b =? 237 then 159 else 191 |}
  else if (240 <=? b) && (b <=? 244) then
    inr {| u_cp := N.land b 7; u_needed := 3;
           u_lower := if b =? 240 then 144 else 128;
           u_upper := if b =? 244 then 143 else 191 |}
  else inl [65533].

Fixpoint utf8_run (st : option utf8_state) (bs : list N) : jsstring :=
  match bs with
  | [] => match st with None => [] | Some _ => [65533] end
  | b :: rest =>
      match st with
      | Some s =>
          if (u_lower s <=? b) && (b <=? u_upper s) then
            let cp := N.lor (N.shiftl (u_cp s) 6) (N.land b 63) in
            match u_needed s with
            | S (S n) =>
                utf8_run (Some {| u_cp := cp; u_needed := S n;
                                  u_lower := 128; u_upper := 191 |}) rest
            | _ => utf16_units cp ++ utf8_run None rest
            end
          else
            (* ill-formed: U+FFFD, and the byte is read again as a lead *)
            65533 ::
            match utf8_lead b with
            | inl out => out ++ utf8_run None rest
            | inr s' => utf8_run (Some s') rest
            end
      | None =>
          match utf8_lead b with
          | inl out => out ++ utf8_run None rest
          | inr s' => utf8_run (Some s') rest
          end
      end
  end.

Definition utf8Decode (b : bytes) : jsstring :=
  utf8_run None (map Byte.to_N b).

(** ** Base64: [Buffer.toString('base64')] and [atob] *)

Definition b64_char (i : N) : N :=
  if i <? 26 then 65 + i
  else if i <? 52 then 71 + i
  else if i <? 62 then i - 4
  else if i =? 62 then 43
  else 47.

Definition b64_index (c : N) : option N :=
  if (65 <=? c) && (c <=? 90) then Some (c - 65)
  else if (97 <=? c) && (c <=? 122) then Some (c - 71)
  else if (48 <=? c) && (c <=? 57) then Some (c + 4)
  else if c =? 43 then Some 62
  else if c =? 47 then Some 63
  else None.

Definition pad : N := 61.

(** RFC 4648 encoding with padding. *)
Fixpoint toBase64 (b : bytes) : jsstring :=
  match b with
  | [] => []
  | [x] =>
      let a := Byte.to_N x in
      [b64_char (a / 4); b64_char ((a mod 4) * 16); pad; pad]
  | [x; y] =>
      let a := Byte.to_N x in
      let b := Byte.to_N y in
      [b64_char (a / 4); b64_char ((a mod 4) * 16 + b / 16);
       b64_char ((b mod 16) * 4); pad]
  | x :: y :: z :: rest =>
      let a := Byte.to_N x in
      let b := Byte.to_N y in
      let c := Byte.to_N z in
      b64_char (a / 4) :: b64_char ((a mod 4) * 16 + b / 16) ::
      b64_char ((b mod 16) * 4 + c / 64) :: b64_char (c mod 64) ::
      toBase64 rest
  end.

(** The encoding seen as sextets followed by padding. *)
Fixpoint sextets_of_bytes (b : bytes) : list N :=
  match b with
  | [] => []
  | [x] => let a := Byte.to_N x in [a / 4; (a mod 4) * 16]
  | [x; y] =>
      let a := Byte.to_N x in
      let b := Byte.to_N y in
      [a / 4; (a mod 4) * 16 + b / 16; (b mod 16) * 4]
  | x :: y :: z :: rest =>
      let a := Byte.to_N x in
      let b := Byte.to_N y in
      let c := Byte.to_N z in
      a / 4 :: (a mod 4) * 16 + b / 16 :: (b mod 16) * 4 + c / 64 :: c mod 64 ::
      sextets_of_bytes rest
  end.

Definition padding_of (b : bytes) : jsstring :=
  match (length b mod 3)%nat with
  | 1%nat => [pad; pad]
  | 2%nat => [pad]
  | _ => []
  end.

Definition is_ascii_whitespace (c : N) : bool :=
  (c =? 9) || (c =? 10) || (c =? 12) || (c =? 13) || (c =? 32).

(** "If data ends with one or two U+003D (=) code points, remove them". *)
Definition strip_padding (d : jsstring) : jsstring :=
  match rev d with
  | a :: b :: r =>
      if (a =? pad) && (b =? pad) then rev r
      else if a =? pad then rev (b :: r)
      else d
  | [a] => if a =? pad then [] else d
  | [] => d
  end.

Fixpoint b64_indices (d : jsstring) : option (list N) :=
  match d with
  | [] => Some []
  | c :: rest =>
      match b64_index c, b64_indices rest with
      | Some i, Some r => Some (i :: r)
      | _, _ => None
      end
  end.

(** Sextets to octets; 12 left-over bits give one byte, 18 give two, the
    surplus bits are discarded. *)
Fixpoint sextets_to_bytes (s : list N) : bytes :=
  match s with
  | p :: q :: r :: t :: rest =>
      byte_of_N (p * 4 + q / 16) :: byte_of_N ((q mod 16) * 16 + r / 4) ::
      byte_of_N ((r mod 4) * 64 + t) :: sextets_to_bytes rest
  | [p; q; r] =>
      [byte_of_N (p * 4 + q / 16); byte_of_N ((q mod 16) * 16 + r / 4)]
  | [p; q] => [byte_of_N (p * 4 + q / 16)]
  | _ => []
  end.

(** The forgiving-base64 decoder behind [atob]; [None] is the
    [InvalidCharacterError] it raises. The result is a binary string. *)
Definition forgiving_base64_decode (data : jsstring) : option jsstring :=
  let d := filter (fun c => negb (is_ascii_whitespace c)) data in
  let d := if (Nat.modulo (length d) 4 =? 0)%nat then strip_padding d else d in
  if (Nat.modulo (length d) 4 =? 1)%nat then None
  else
    match b64_indices d with
    | None => None
    | Some s => Some (map Byte.to_N (sextets_to_bytes s))
    end.

(** ** UTF-8 encoding ([Buffer.from(string)]) and [JSON.stringify] of strings *)

Definition utf8_of_code_point (cp : N) : bytes :=
  if cp <? 128 then [byte_of_N cp]
  else if cp <? 2048 then
    [byte_of_N (192 + cp / 64); byte_of_N (128 + cp mod 64)]
  else if cp <? 65536 then
    [byte_of_N (224 + cp / 4096); byte_of_N (128 + (cp / 64) mod 64);
     byte_of_N (128 + cp mod 64)]
  else
    [byte_of_N (240 + cp / 262144); byte_of_N (128 + (cp / 4096) mod 64);
     byte_of_N (128 + (cp / 64) mod 64); byte_of_N (128 + cp mod 64)].

Definition is_high_surrogate (c : N) : bool := (55296 <=? c) && (c <=? 56319).
Definition is_low_surrogate (c : N) : bool := (56320 <=? c) && (c <=? 57343).

Fixpoint utf8Encode (s : jsstring) : bytes :=
  match s with
  | [] => []
  | c :: rest =>
      if is_high_surrogate c then
        match rest with
        | d :: rest' =>
            if is_low_surrogate d then
              utf8_of_code_point (65536 + (c - 55296) * 1024 + (d - 56320))
                ++ utf8Encode rest'
            else utf8_of_code_point 65533 ++ utf8Encode rest
        | [] => utf8_of_code_point 65533
        end
      else if is_low_surrogate c then utf8_of_code_point 65533 ++ utf8Encode rest
      else utf8_of_code_point c ++ utf8Encode rest
  end.

Definition dquote : N := 34.
Definition backslash : N := 92.

(** [\uXXXX] *)
Definition unicode_escape (c : N) : jsstring :=
  [backslash; 117; hex_digit (c / 4096); hex_digit ((c / 256) mod 16);
   hex_digit ((c / 16) mod 16); hex_digit (c mod 16)].

Definition json_escape (c : N) : jsstring :=
  if c =? dquote then [backslash; dquote]
  else if c =? backslash then [backslash; backslash]
  else if c =? 8 then [backslash; 98]
  else if c =? 9 then [backslash; 116]
  else if c =? 10 then [backslash; 110]
  else if c =? 12 then [backslash; 102]
  else if c =? 13 then [backslash; 114]
  else if c <? 32 then unicode_escape c
  else [c].

(** The characters between the quotes: a surrogate pair is kept, a lone
    surrogate is escaped. *)
Fixpoint json_units (s : jsstring) : jsstring :=
  match s with
  | [] => []
  | c :: rest =>
      if is_high_surrogate c then
        match rest with
        | d :: rest' =>
            if is_low_surrogate d then c :: d :: json_units rest'
            else unicode_escape c ++ json_units rest
        | [] => unicode_escape c
        end
      else if is_low_surrogate c then unicode_escape c ++ json_units rest
      else json_escape c ++ json_units rest
  end.

(** [JSON.stringify] of a string. *)
Definition json_string (s : jsstring) : jsstring :=
  dquote :: json_units s ++ [dquote].

(** A character [JSON.stringify] copies as it is. *)
Definition plain (c : N) : Prop :=
  is_high_surrogate c = false /\ is_low_surrogate c = false /\ json_escape c = [c].

(** ** Exceptions and outcomes *)

(** Error classes of the HPKE package. *)
Inductive hpke_error :=
| InvalidParamError | DeserializeError | DecapError | OpenError
| MessageLimitReachedError | NotSupportedError.

(** [undefined] and [null] *)
Inductive nullish := Undefined | Null.

(** What is thrown, or given as the reason of a rejection. *)
Inductive exn :=
| Error (message : jsstring)        (* [throw new Error(message)] *)
| DOMException (name : jsstring)    (* atob, WebCrypto *)
| HpkeError (kind : hpke_error)     (* the HPKE package *)
| TypeError (message : jsstring)    (* fetch: network failure; a property read of nothing *)
| SyntaxError (message : jsstring)  (* response.json() *)
| Nullish (v : nullish).            (* [undefined] or [null] itself, no object *)

Inductive outcome (A : Type) :=
| Returned (a : A)
| Thrown (e : exn).
Arguments Returned {A} a.
Arguments Thrown {A} e.

Definition InvalidCharacterError : exn := DOMException (str "InvalidCharacterError").

Definition atob (data : jsstring) : outcome jsstring :=
  match forgiving_base64_decode data with
  | Some s => Returned s
  | None => Thrown InvalidCharacterError
  end.

(** ** Private-key normalisation helpers *)

(** [s.replace(pattern, replacement)] with a string pattern: the first
    occurrence only. *)
Fixpoint replace (pattern replacement s : jsstring) : jsstring :=
  if startsWith s pattern then replacement ++ skipn (length pattern) s
  else
    match s with
    | [] => []
    | c :: rest => c :: replace pattern replacement rest
    end.

Definition unknown_format : exn :=
  Error (str "Could not decode private key - unknown or unsupported format.").

Definition invalid_format : exn :=
  Error (str "Invalid private key format. Expected 64 or 128 hex characters.").

Definition decodePrivateKey (encodedKey : jsstring) : outcome jsstring :=
  let cleanKey :=
    if startsWith encodedKey (str "PRIVATE_KEY=")
    then replace (str "PRIVATE_KEY=") [] encodedKey
    else encodedKey in
  if startsWith cleanKey (str "0x") && (length cleanKey =? 66)%nat then
    Returned cleanKey
  else if negb (startsWith cleanKey (str "0x")) && (length cleanKey =? 64)%nat then
    Returned (str "0x" ++ cleanKey)
  else if startsWith cleanKey (str "0x") && (66 <? length cleanKey)%nat then
    Returned (str "0x" ++ substring 2 66 cleanKey)
  else Thrown unknown_format.

Definition decodeDoubleHexPrivateKey (encodedKey : jsstring) : outcome jsstring :=
  let cleanKey :=
    if startsWith encodedKey (str "0x") then slice 2 encodedKey else encodedKey in
  if test_hex 64 cleanKey then Returned (str "0x" ++ cleanKey)
  else if test_hex 128 cleanKey then
    let decoded := utf8Decode (fromHex cleanKey) in
    if test_hex 64 decoded then Returned (str "0x" ++ decoded)
    else Thrown invalid_format
  else Thrown invalid_format.

(** The shapes the specification names for a normalisation function. *)
Definition hex64 (s : jsstring) : Prop := test_hex 64 s = true.
Definition prefixed_hex66 (s : jsstring) : Prop :=
  exists h, s = str "0x" ++ h /\ hex64 h.
Definition double_hex128 (s : jsstring) : Prop :=
  test_hex 128 s = true /\ hex64 (utf8Decode (fromHex s)).
Definition recognized_shape (s : jsstring) : Prop :=
  hex64 s \/ prefixed_hex66 s \/ double_hex128 s.

(** A fourth shape [decodeDoubleHexPrivateKey] takes: the double encoding
    behind a [0x] prefix (130 characters). *)
Definition prefixed_double_hex130 (s : jsstring) : Prop :=
  exists h, s = str "0x" ++ h /\ double_hex128 h.

(** A 71-character input: [0x], 64 times [f], then [EXTRA]. *)
Definition long_key : jsstring :=
  str "0x" ++ repeat 102 64 ++ str "EXTRA".

(** ** Key material formatter (the last two statements of
    [decryptHPKEMessage]) *)

Definition formatKeyMaterial (decryptedBuffer : bytes) : outcome jsstring :=
  let hexString := toHex decryptedBuffer in
  Returned (str "0x" ++ hexString).

(** [Uint8Array.from(atob(base64), c => c.charCodeAt(0)).buffer] *)
Definition base64ToBuffer (base64 : jsstring) : outcome bytes :=
  match atob base64 with
  | Returned s => Returned (map byte_of_N s)
  | Thrown e => Thrown e
  end.

(** ** The platform interface

    Parameters of the calls the sources make into WebCrypto, the HPKE
    package, the custody SDK and fetch. *)

Inductive KemId :=
| DhkemP256HkdfSha256 | DhkemP384HkdfSha384 | DhkemP521HkdfSha512
| DhkemX25519HkdfSha256 | DhkemX448HkdfSha512.
Inductive KdfId := HkdfSha256 | HkdfSha384 | HkdfSha512.
Inductive AeadId := Aes128Gcm | Aes256Gcm | Chacha20Poly1305 | ExportOnly.

Inductive KeyFormat := Raw | Pkcs8 | Spki | Jwk.
Inductive AlgorithmName := ECDH | ECDSA.
Inductive NamedCurve := P256 | P384 | P521.
Record KeyAlgorithm := { alg_name : AlgorithmName; namedCurve : NamedCurve }.
Inductive KeyUsage := DeriveKey | DeriveBits | Sign | Verify.

Inductive HttpMethod := GET | POST | PUT | PATCH | DELETE.

Record ExportBody := {
  encryption_type : jsstring;
  recipient_public_key : jsstring
}.

(** The [input] handed to [generateAuthorizationSignature]. *)
Record SignatureInput := {
  si_headers : list (jsstring * jsstring);
  si_method : HttpMethod;
  si_url : jsstring;
  si_version : N;
  si_body : ExportBody
}.

Record Request := {
  req_url : jsstring;
  req_method : HttpMethod;
  req_headers : list (jsstring * jsstring);
  req_body : jsstring
}.

Record Response := {
  status : N;
  body_text : jsstring
}.

(** [response.ok] *)
Definition ok (r : Response) : bool := (200 <=? status r) && (status r <=? 299).

(** The two fields read from the parsed export response. *)
Record ExportData := {
  encapsulated_key : jsstring;
  ciphertext : jsstring
}.

Record Wallet := { wallet_id : jsstring }.

Inductive ChainType := Solana | Ethereum.

(** [process.env]: a variable is a string or [undefined]. *)
Record Env := {
  PRIVY_APP_ID : option jsstring;
  PRIVY_APP_SECRET : option jsstring;
  PRIVY_AUTHORIZATION_PUBLIC_KEY : option jsstring;
  PRIVY_AUTHORIZATION_PRIVATE_KEY : option jsstring
}.

(** [!v] for [v : string | undefined] *)
Definition falsy (v : option jsstring) : bool :=
  match v with
  | None | Some [] => true
  | Some (_ :: _) => false
  end.

Definition env_string (v : option jsstring) : jsstring :=
  match v with Some s => s | None => [] end.

(** Opaque objects of the platform. *)
Record Objects := {
  CryptoKey : Type;
  CipherSuite : Type;
  RecipientContext : Type;
  PrivyClient : Type
}.

Section Pipeline.

Variable Ob : Objects.
Abbreviation CryptoKey := (CryptoKey Ob).
Abbreviation CipherSuite := (CipherSuite Ob).
Abbreviation RecipientContext := (RecipientContext Ob).
Abbreviation PrivyClient := (PrivyClient Ob).

Record CryptoKeyPair := { publicKey : CryptoKey; privateKey : CryptoKey }.

(** Calls into the platform, indexed by the type of their result. *)
Inductive call : Type -> Type :=
| NewCipherSuite (kem : KemId) (kdf : KdfId) (aead : AeadId) : call CipherSuite
| ImportKey (format : KeyFormat) (keyData : bytes) (algorithm : KeyAlgorithm)
    (extractable : bool) (usages : list KeyUsage) : call CryptoKey
| GenerateKey (algorithm : KeyAlgorithm) (extractable : bool)
    (usages : list KeyUsage) : call CryptoKeyPair
| ExportKey (format : KeyFormat) (key : CryptoKey) : call bytes
| CreateRecipientContext (suite : CipherSuite) (recipientKey : CryptoKey)
    (enc : bytes) : call RecipientContext
| Open (recipient : RecipientContext) (data : bytes) (aad : option bytes) : call bytes
| GenerateAuthorizationSignature (input : SignatureInput)
    (authorizationPrivateKey : jsstring) : call (option jsstring)
| Fetch (request : Request) : call Response
| ResponseJson (response : Response) : call ExportData
| NewPrivyClient (appId appSecret : jsstring) : call PrivyClient
| CreateWallet (privy : PrivyClient) (chainType : ChainType)
    (ownerPublicKey : jsstring) : call Wallet
(* no call of the code, a question to the platform: of two calls that both
   reject, whether the rejection of the first is the one that settles first
   (the platform does not fail on it; a failure is read as yes) *)
| SettlesFirst : call bool.

(** Programs: a value, an exception, or a platform call and what follows
    its settling (a value, or the exception it rejects with). *)
Inductive prog (R : Type) : Type :=
| Ret (r : R)
| Throw (e : exn)
| Vis (X : Type) (c : call X) (k : exn + X -> prog R).
Arguments Ret {R} r.
Arguments Throw {R} e.
Arguments Vis {R X} c k.

Fixpoint bind {A B : Type} (p : prog A) (f : A -> prog B) : prog B :=
  match p with
  | Ret a => f a
  | Throw e => Throw e
  | Vis c k => Vis c (fun a => bind (k a) f)
  end.

Definition settle {X : Type} (a : exn + X) : prog X :=
  match a with
  | inl e => Throw e
  | inr x => Ret x
  end.

(** [await c]: a rejection is thrown. *)
Definition await {X : Type} (c : call X) : prog X := Vis c settle.

(** [await Promise.all([c1, c2])]: both calls are started; a rejection, if
    any, is thrown; of two rejections, the one that settles first, which is
    the platform's to say. *)
Definition await_all {X Y : Type} (c1 : call X) (c2 : call Y) : prog (X * Y) :=
  Vis c1 (fun a1 =>
  Vis c2 (fun a2 =>
    match a1, a2 with
    | inr x, inr y => Ret (x, y)
    | inl e, inr _ => Throw e
    | inr _, inl e => Throw e
    | inl e1, inl e2 =>
        Vis SettlesFirst (fun first =>
          match first with
          | inr false => Throw e2
          | _ => Throw e1
          end)
    end)).

Definition lift {A : Type} (o : outcome A) : prog A :=
  match o with
  | Returned a => Ret a
  | Thrown e => Throw e
  end.

Notation "x <- p ;; q" := (bind p (fun x => q))
  (at level 61, p at next level, right associativity).
Notation "p ;; q" := (bind p (fun _ => q))
  (at level 61, right associativity).

Definition ecdh_p256 : KeyAlgorithm := {| alg_name := ECDH; namedCurve := P256 |}.

Definition decryptHPKEMessage
    (privateKeyBase64 encapsulatedKeyBase64 ciphertextBase64 : jsstring)
    : prog jsstring :=
  suite <- await (NewCipherSuite DhkemP256HkdfSha256 HkdfSha256 Chacha20Poly1305) ;;
  keyData <- lift (base64ToBuffer privateKeyBase64) ;;
  privateKey <- await (ImportKey Pkcs8 keyData ecdh_p256 true [DeriveKey; DeriveBits]) ;;
  enc <- lift (base64ToBuffer encapsulatedKeyBase64) ;;
  recipient <- await (CreateRecipientContext suite privateKey enc) ;;
  data <- lift (base64ToBuffer ciphertextBase64) ;;
  decryptedBuffer <- await (Open recipient data None) ;;
  lift (formatKeyMaterial decryptedBuffer).

Definition export_url (walletId : jsstring) : jsstring :=
  str "https://auth.privy.io/v1/wallets/" ++ walletId ++ str "/export".

Definition export_body (recipientPublicKeyBase64 : jsstring) : ExportBody :=
  {| encryption_type := str "HPKE";
     recipient_public_key := recipientPublicKeyBase64 |}.

(** [JSON.stringify(signatureInput.body)] *)
Definition stringify_body (b : ExportBody) : jsstring :=
  str "{" ++ json_string (str "encryption_type") ++ str ":"
    ++ json_string (encryption_type b) ++ str ","
    ++ json_string (str "recipient_public_key") ++ str ":"
    ++ json_string (recipient_public_key b) ++ str "}".

Definition signatureInput (privyAppId walletId recipientPublicKeyBase64 : jsstring)
    : SignatureInput :=
  {| si_headers := [(str "privy-app-id", privyAppId)];
     si_method := POST;
     si_url := export_url walletId;
     si_version := 1;
     si_body := export_body recipientPublicKeyBase64 |}.

Definition export_request
    (privyAppId privyAppSecret walletId : jsstring)
    (input : SignatureInput) (signature : jsstring) : Request :=
  {| req_url := export_url walletId;
     req_method := si_method input;
     req_headers :=
       [(str "privy-app-id", privyAppId);
        (str "Content-Type", str "application/json");
        (str "privy-authorization-signature", signature);
        (str "Authorization",
         str "Basic " ++
         toBase64 (utf8Encode (privyAppId ++ str ":" ++ privyAppSecret)))];
     req_body := stringify_body (si_body input) |}.

Definition signature_undefined : exn :=
  Error (str "Signature is undefined. Cannot proceed.").

(** The error thrown for a response that is not [ok]. *)
Definition rejected (response : Response) : exn :=
  Error (str "Failed to export wallet: " ++ body_text response).

Definition exportWalletPrivateKey
    (privyAppId privyAppSecret walletId authorizationPrivateKey : jsstring)
    : prog jsstring :=
  keypair <- await (GenerateKey ecdh_p256 true [DeriveKey; DeriveBits]) ;;
  exported <- await_all (ExportKey Spki (publicKey keypair))
                        (ExportKey Pkcs8 (privateKey keypair)) ;;
  let recipientPublicKeyBase64 := toBase64 (fst exported) in
  let recipientPrivateKeyBase64 := toBase64 (snd exported) in
  let input := signatureInput privyAppId walletId recipientPublicKeyBase64 in
  signature <- await (GenerateAuthorizationSignature input authorizationPrivateKey) ;;
  match signature with
  | None | Some [] => Throw signature_undefined
  | Some signature =>
      response <- await (Fetch (export_request privyAppId privyAppSecret walletId
                                  input signature)) ;;
      if negb (ok response) then Throw (rejected response)
      else
        exportData <- await (ResponseJson response) ;;
        decryptHPKEMessage recipientPrivateKeyBase64
          (encapsulated_key exportData) (ciphertext exportData)
  end.

Definition createPrivyWallet (privy : PrivyClient) (ownerPublicKey : jsstring)
    : prog Wallet :=
  await (CreateWallet privy Solana ownerPublicKey).

(** The body of the [for] loop of [main], [n] times. *)
Fixpoint export_iterations (n : nat)
    (privyAppId privyAppSecret walletId authorizationPrivateKey : jsstring)
    : prog unit :=
  match n with
  | O => Ret tt
  | S n' =>
      exportWalletPrivateKey privyAppId privyAppSecret walletId
        authorizationPrivateKey ;;
      export_iterations n' privyAppId privyAppSecret walletId
        authorizationPrivateKey
  end.

Definition iterations : nat := 20.

Definition missing_variables : exn :=
  Error (str "Missing required environment variables").

Definition main (env : Env) : prog unit :=
  let privyAppId := PRIVY_APP_ID env in
  let privyAppSecret := PRIVY_APP_SECRET env in
  let privyAuthorizationPublicKey := PRIVY_AUTHORIZATION_PUBLIC_KEY env in
  let privyAuthorizationPrivateKey := PRIVY_AUTHORIZATION_PRIVATE_KEY env in
  if falsy privyAppId || falsy privyAppSecret
     || falsy privyAuthorizationPublicKey || falsy privyAuthorizationPrivateKey
  then Throw missing_variables
  else
    privy <- await (NewPrivyClient (env_string privyAppId) (env_string privyAppSecret)) ;;
    createdWallet <- createPrivyWallet privy (env_string privyAuthorizationPublicKey) ;;
    export_iterations iterations (env_string privyAppId) (env_string privyAppSecret)
      (wallet_id createdWallet) (env_string privyAuthorizationPrivateKey).

(** *** Running a program on a platform *)

(** A platform answers every call, possibly changing its state (random
    generator, network, remote service). *)
Record Platform := {
  World : Type;
  perform : forall X : Type, call X -> World -> (exn + X) * World
}.

(** One performed call with its answer. *)
Record entry := Entry {
  e_type : Type;
  e_call : call e_type;
  e_answer : exn + e_type
}.

Definition trace := list entry.

Fixpoint run (P : Platform) {R : Type} (p : prog R) (w : World P)
    : outcome R * World P * trace :=
  match p with
  | Ret r => (Returned r, w, [])
  | Throw e => (Thrown e, w, [])
  | Vis c k =>
      let (a, w') := perform P c w in
      let '(o, w'', t) := run P (k a) w' in
      (o, w'', Entry c a :: t)
  end.

Definition result_of (P : Platform) {R : Type} (p : prog R) (w : World P) : outcome R :=
  fst (fst (run P p w)).

Definition trace_of (P : Platform) {R : Type} (p : prog R) (w : World P) : trace :=
  snd (run P p w).

Definition world_after (P : Platform) {R : Type} (p : prog R) (w : World P) : World P :=
  snd (fst (run P p w)).

(** *** The decryption engine, step by step

    The calls the engine makes, in order, up to the first failure, with the
    value it returns or the exception it throws. *)

Definition fixed_suite : KemId * KdfId * AeadId :=
  (DhkemP256HkdfSha256, HkdfSha256, Chacha20Poly1305).

Definition new_suite : call CipherSuite :=
  NewCipherSuite DhkemP256HkdfSha256 HkdfSha256 Chacha20Poly1305.

Definition import_pkcs8 (keyData : bytes) : call CryptoKey :=
  ImportKey Pkcs8 keyData ecdh_p256 true [DeriveKey; DeriveBits].

Inductive engine_behaviour (sk64 enc64 ct64 : jsstring)
    : trace -> outcome jsstring -> Prop :=
| suite_fails e :
    engine_behaviour sk64 enc64 ct64 [Entry new_suite (inl e)] (Thrown e)
| key_not_base64 suite e :
    base64ToBuffer sk64 = Thrown e ->
    engine_behaviour sk64 enc64 ct64 [Entry new_suite (inr suite)] (Thrown e)
| import_fails suite keyData e :
    base64ToBuffer sk64 = Returned keyData ->
    engine_behaviour sk64 enc64 ct64
      [Entry new_suite (inr suite); Entry (import_pkcs8 keyData) (inl e)]
      (Thrown e)
| enc_not_base64 suite keyData key e :
    base64ToBuffer sk64 = Returned keyData ->
    base64ToBuffer enc64 = Thrown e ->
    engine_behaviour sk64 enc64 ct64
      [Entry new_suite (inr suite); Entry (import_pkcs8 keyData) (inr key)]
      (Thrown e)
| context_fails suite keyData key enc e :
    base64ToBuffer sk64 = Returned keyData ->
    base64ToBuffer enc64 = Returned enc ->
    engine_behaviour sk64 enc64 ct64
      [Entry new_suite (inr suite); Entry (import_pkcs8 keyData) (inr key);
       Entry (CreateRecipientContext suite key enc) (inl e)]
      (Thrown e)
| ct_not_base64 suite keyData key enc recipient e :
    base64ToBuffer sk64 = Returned keyData ->
    base64ToBuffer enc64 = Returned enc ->
    base64ToBuffer ct64 = Thrown e ->
    engine_behaviour sk64 enc64 ct64
      [Entry new_suite (inr suite); Entry (import_pkcs8 keyData) (inr key);
       Entry (CreateRecipientContext suite key enc) (inr recipient)]
      (Thrown e)
| open_fails suite keyData key enc recipient data e :
    base64ToBuffer sk64 = Returned keyData ->
    base64ToBuffer enc64 = Returned enc ->
    base64ToBuffer ct64 = Returned data ->
    engine_behaviour sk64 enc64 ct64
      [Entry new_suite (inr suite); Entry (import_pkcs8 keyData) (inr key);
       Entry (CreateRecipientContext suite key enc) (inr recipient);
       Entry (Open recipient data None) (inl e)]
      (Thrown e)
| opened suite keyData key enc recipient data plaintext :
    base64ToBuffer sk64 = Returned keyData ->
    base64ToBuffer enc64 = Returned enc ->
    base64ToBuffer ct64 = Returned data ->
    engine_behaviour sk64 enc64 ct64
      [Entry new_suite (inr suite); Entry (import_pkcs8 keyData) (inr key);
       Entry (CreateRecipientContext suite key enc) (inr recipient);
       Entry (Open recipient data None) (inr plaintext)]
      (Returned (str "0x" ++ toHex plaintext)).

End Pipeline.

Arguments NewCipherSuite {Ob} kem kdf aead.
Arguments ImportKey {Ob} format keyData algorithm extractable usages.
Arguments GenerateKey {Ob} algorithm extractable usages.
Arguments ExportKey {Ob} format key.
Arguments CreateRecipientContext {Ob} suite recipientKey enc.
Arguments Open {Ob} recipient data aad.
Arguments GenerateAuthorizationSignature {Ob} input authorizationPrivateKey.
Arguments Fetch {Ob} request.
Arguments ResponseJson {Ob} response.
Arguments NewPrivyClient {Ob} appId appSecret.
Arguments CreateWallet {Ob} privy chainType ownerPublicKey.
Arguments SettlesFirst {Ob}.
Arguments Ret {Ob R} r.
Arguments Throw {Ob R} e.
Arguments Vis {Ob R X} c k.
Arguments Entry {Ob e_type} e_call e_answer.
Arguments decryptHPKEMessage {Ob}.
Arguments exportWalletPrivateKey {Ob}.
Arguments main {Ob}.
Arguments export_iterations {Ob}.
Arguments new_suite {Ob}.
Arguments import_pkcs8 {Ob} keyData.
Arguments engine_behaviour {Ob} sk64 enc64 ct64 _ _.

(** ** Observations on traces *)

Section Observations.

Variable Ob : Objects.

(** The algorithm triple of a cipher-suite instantiation. *)
Definition suite_of (e : entry Ob) : option (KemId * KdfId * AeadId) :=
  match e_call e with
  | NewCipherSuite kem kdf aead => Some (kem, kdf, aead)
  | _ => None
  end.

Definition suites (t : trace Ob) : list (KemId * KdfId * AeadId) :=
  flat_map (fun e => match suite_of e with Some s => [s] | None => [] end) t.

(** Calls that leave the process: the custody service over HTTP or through
    its SDK client. *)
Definition is_network_call (e : entry Ob) : bool :=
  match e_call e with
  | Fetch _ | ResponseJson _ | CreateWallet _ _ _ => true
  | _ => false
  end.

Definition fetch_request_of (e : entry Ob) : option Request :=
  match e_call e with
  | Fetch r => Some r
  | _ => None
  end.

Definition fetch_requests (t : trace Ob) : list Request :=
  flat_map (fun e => match fetch_request_of e with Some r => [r] | None => [] end) t.

Definition fetch_response_of (e : entry Ob) : option Response :=
  match e with
  | Entry c a =>
      match c in call _ X return exn + X -> option Response with
      | Fetch _ => fun a => match a with inr r => Some r | inl _ => None end
      | _ => fun _ => None
      end a
  end.

Definition fetch_responses (t : trace Ob) : list Response :=
  flat_map (fun e => match fetch_response_of e with Some r => [r] | None => [] end) t.

Definition generated_keypair_of (e : entry Ob) : option (CryptoKeyPair Ob) :=
  match e with
  | Entry c a =>
      match c in call _ X return exn + X -> option (CryptoKeyPair Ob) with
      | GenerateKey _ _ _ =>
          fun a => match a with inr kp => Some kp | inl _ => None end
      | _ => fun _ => None
      end a
  end.

Definition generated_keypairs (t : trace Ob) : list (CryptoKeyPair Ob) :=
  flat_map (fun e => match generated_keypair_of e with Some r => [r] | None => [] end) t.

(** SPKI exports: the key exported and the bytes obtained. *)
Definition spki_export_of (e : entry Ob) : option (CryptoKey Ob * bytes) :=
  match e with
  | Entry c a =>
      match c in call _ X return exn + X -> option (CryptoKey Ob * bytes) with
      | ExportKey Spki k =>
          fun a => match a with inr b => Some (k, b) | inl _ => None end
      | _ => fun _ => None
      end a
  end.

Definition spki_exports (t : trace Ob) : list (CryptoKey Ob * bytes) :=
  flat_map (fun e => match spki_export_of e with Some r => [r] | None => [] end) t.

Definition signature_input_of (e : entry Ob) : option SignatureInput :=
  match e_call e with
  | GenerateAuthorizationSignature i _ => Some i
  | _ => None
  end.

Definition signature_inputs (t : trace Ob) : list SignatureInput :=
  flat_map (fun e => match signature_input_of e with Some r => [r] | None => [] end) t.

(** Parameters of the key generations requested. *)
Definition key_generation_of (e : entry Ob)
    : option (KeyAlgorithm * bool * list KeyUsage) :=
  match e_call e with
  | GenerateKey algorithm extractable usages => Some (algorithm, extractable, usages)
  | _ => None
  end.

Definition key_generations (t : trace Ob) : list (KeyAlgorithm * bool * list KeyUsage) :=
  flat_map (fun e => match key_generation_of e with Some r => [r] | None => [] end) t.

(** A trace with no key generation, export, signature or request. *)
Definition quiet (t : trace Ob) : Prop :=
  fetch_requests t = [] /\ fetch_responses t = [] /\ generated_keypairs t = [] /\
  spki_exports t = [] /\ signature_inputs t = [] /\ key_generations t = [].

(** A call is answered by a value whatever the state of the platform. *)
Definition answers (P : Platform Ob) {X : Type} (c : call Ob X) (x : X) : Prop :=
  forall w, fst (perform P c w) = inr x.

Definition fails (P : Platform Ob) {X : Type} (c : call Ob X) (e : exn) : Prop :=
  forall w, fst (perform P c w) = inl e.

End Observations.
Arguments answers {Ob} P {X} c x.
Arguments fails {Ob} P {X} c e.

(** ** Reference encryption and the contract of the HPKE package *)

(** A reference implementation of the sender's side under the fixed suite
    DHKEM(P-256, HKDF-SHA256) / HKDF-SHA256 / ChaCha20-Poly1305, in base
    mode with empty [info] and empty associated data. *)
Record Reference := {
  (* the SPKI public key of a PKCS8 P-256 private key, if it is one *)
  public_key_of : bytes -> option bytes;
  (* recipient public key, sender randomness, plaintext: (enc, ciphertext) *)
  seal : bytes -> bytes -> bytes -> bytes * bytes
}.

Definition valid_triple (ref : Reference) (sk enc ct pt : bytes) : Prop :=
  exists pk seed, public_key_of ref sk = Some pk /\ seal ref pk seed pt = (enc, ct).

(** [bs] with the byte at index [i] replaced by a different byte [y]. *)
Definition flip_at (i : nat) (y : byte) (bs : bytes) : option bytes :=
  match nth_error bs i with
  | Some x => if Byte.eqb x y then None else Some (firstn i bs ++ y :: skipn (S i) bs)
  | None => None
  end.

(** One byte of the encapsulated key or of the ciphertext is flipped. *)
Definition tampered (enc ct enc' ct' : bytes) : Prop :=
  exists i y,
    (flip_at i y enc = Some enc' /\ ct' = ct) \/
    (enc' = enc /\ flip_at i y ct = Some ct').

Definition DecryptionFailure (e : exn) : Prop := exists k, e = HpkeError k.

Section Contract.

Variable Ob : Objects.
Variable P : Platform Ob.
Variable ref : Reference.

(** Correctness of the package: what the reference sender seals for a key
    pair, the recipient side opens. *)
Definition decrypts_reference : Prop :=
  forall sk enc ct pt,
    valid_triple ref sk enc ct pt ->
    exists suite key rc,
      answers P (NewCipherSuite DhkemP256HkdfSha256 HkdfSha256 Chacha20Poly1305) suite /\
      answers P (ImportKey Pkcs8 sk ecdh_p256 true [DeriveKey; DeriveBits]) key /\
      answers P (CreateRecipientContext suite key enc) rc /\
      answers P (Open rc ct None) pt.

(** Authenticity of the package, idealised: a sealed message with one byte
    changed is rejected, at decapsulation or when the tag is checked. *)
Definition rejects_tampering : Prop :=
  forall sk enc ct pt enc' ct',
    valid_triple ref sk enc ct pt ->
    tampered enc ct enc' ct' ->
    exists suite key,
      answers P (NewCipherSuite DhkemP256HkdfSha256 HkdfSha256 Chacha20Poly1305) suite /\
      answers P (ImportKey Pkcs8 sk ecdh_p256 true [DeriveKey; DeriveBits]) key /\
      ((exists k, fails P (CreateRecipientContext suite key enc') (HpkeError k)) \/
       (exists rc k,
          answers P (CreateRecipientContext suite key enc') rc /\
          fails P (Open rc ct' None) (HpkeError k))).

End Contract.

(** ** A test platform

    A mocked custody service and a stand-in cipher (a one-byte checksum as
    tag), used to run the programs on concrete inputs. *)

Module Mock.

Definition objects : Objects :=
  {| CryptoKey := bytes;
     CipherSuite := KemId * KdfId * AeadId;
     RecipientContext := bytes * bytes;
     PrivyClient := jsstring * jsstring |}.

Record world := {
  generated : N;          (* key pairs handed out so far *)
  custody_status : N;     (* status the export endpoint answers with *)
  custody_secret : bytes  (* the wallet key held by the custody service *)
}.

Definition total (l : bytes) : N :=
  fold_right (fun b acc => Byte.to_N b + acc) 0 l.

Definition checksum (l : bytes) : byte := byte_of_N (total l).

Definition mock_seal (pk seed pt : bytes) : bytes * bytes :=
  (seed, pt ++ [checksum (pk ++ seed ++ pt)]).

Definition mock_open (key enc data : bytes) : exn + bytes :=
  match rev data with
  | [] => inl (HpkeError OpenError)
  | t :: rbody =>
      if Byte.eqb t (checksum (key ++ enc ++ rev rbody))
      then inr (rev rbody)
      else inl (HpkeError OpenError)
  end.

Definition reference : Reference :=
  {| public_key_of := fun sk => Some sk; seal := mock_seal |}.

Definition last_key (w : world) : bytes := [byte_of_N (generated w - 1)].

Definition mock_perform (X : Type) (c : call objects X) (w : world)
    : (exn + X) * world :=
  match c in call _ X return (exn + X) * world with
  | NewCipherSuite kem kdf aead => (inr (kem, kdf, aead), w)
  | ImportKey _ keyData _ _ _ => (inr keyData, w)
  | GenerateKey _ _ _ =>
      let k : bytes := [byte_of_N (generated w)] in
      (inr (Build_CryptoKeyPair objects k k),
       {| generated := generated w + 1;
          custody_status := custody_status w;
          custody_secret := custody_secret w |})
  | ExportKey _ key => (inr key, w)
  | CreateRecipientContext _ key enc => (inr (key, enc), w)
  | Open recipient data _ => (mock_open (fst recipient) (snd recipient) data, w)
  | GenerateAuthorizationSignature input key =>
      (inr (Some (key ++ recipient_public_key (si_body input))), w)
  | Fetch _ =>
      (inr {| status := custody_status w;
              body_text := if custody_status w =? 200 then str "{}" else str "denied" |},
       w)
  | ResponseJson _ =>
      let (enc, ct) := mock_seal (last_key w) [x2a] (custody_secret w) in
      (inr {| encapsulated_key := toBase64 enc; ciphertext := toBase64 ct |}, w)
  | NewPrivyClient appId appSecret => (inr (appId, appSecret), w)
  | CreateWallet _ _ _ => (inr {| wallet_id := str "w_123" |}, w)
  | SettlesFirst => (inr true, w)
  end.

Definition platform : Platform objects :=
  {| World := world; perform := mock_perform |}.

Definition world0 (st : N) : world :=
  {| generated := 0; custody_status := st;
     custody_secret := map (fun n => byte_of_N (N.of_nat n)) (seq 1 32) |}.

(** Inputs of the test runs. *)
Definition export : prog objects jsstring :=
  exportWalletPrivateKey (str "app") (str "secret") (str "w_123") (str "authkey").

Definition request (n : N) : Request :=
  let pk := toBase64 [byte_of_N n] in
  export_request (str "app") (str "secret") (str "w_123")
    (signatureInput (str "app") (str "w_123") pk) (str "authkey" ++ pk).


Definition incomplete_env : Env :=
  {| PRIVY_APP_ID := Some (str "app");
     PRIVY_APP_SECRET := None;
     PRIVY_AUTHORIZATION_PUBLIC_KEY := Some (str "key-id");
     PRIVY_AUTHORIZATION_PRIVATE_KEY := Some (str "authkey") |}.

Definition sk : bytes := [x01; x02].
Definition seed : bytes := [x2a].
Definition plaintext : bytes := [xde; xad; xbe; xef].
Definition sealed : bytes := snd (mock_seal sk seed plaintext).
(* the second byte of the ciphertext replaced by 00 *)
Definition sealed_flipped : bytes := [xde; x00; xbe; xef; x65].

End Mock.

(** ** Further observations on the export pipeline *)

Section MoreObservations.

Variable Ob : Objects.

(** PKCS8 exports: the key exported and the bytes obtained. *)
Definition pkcs8_export_of (e : entry Ob) : option (CryptoKey Ob * bytes) :=
  match e with
  | Entry c a =>
      match c in call _ X return exn + X -> option (CryptoKey Ob * bytes) with
      | ExportKey Pkcs8 k =>
          fun a => match a with inr b => Some (k, b) | inl _ => None end
      | _ => fun _ => None
      end a
  end.

Definition pkcs8_exports (t : trace Ob) : list (CryptoKey Ob * bytes) :=
  flat_map (fun e => match pkcs8_export_of e with Some r => [r] | None => [] end) t.

(** Key data handed to [importKey]. *)
Definition imported_key_of (e : entry Ob) : option bytes :=
  match e_call e with
  | ImportKey _ keyData _ _ _ => Some keyData
  | _ => None
  end.

Definition imported_keys (t : trace Ob) : list bytes :=
  flat_map (fun e => match imported_key_of e with Some r => [r] | None => [] end) t.

(** Ciphertexts handed to [open], with the answer. *)
Definition opening_of (e : entry Ob) : option (bytes * (exn + bytes)) :=
  match e with
  | Entry c a =>
      match c in call _ X return exn + X -> option (bytes * (exn + bytes)) with
      | Open _ data _ => fun a => Some (data, a)
      | _ => fun _ => None
      end a
  end.

Definition openings (t : trace Ob) : list (bytes * (exn + bytes)) :=
  flat_map (fun e => match opening_of e with Some r => [r] | None => [] end) t.

(** What the signer answered. *)
Definition signature_answer_of (e : entry Ob) : option (exn + option jsstring) :=
  match e with
  | Entry c a =>
      match c in call _ X return exn + X -> option (exn + option jsstring) with
      | GenerateAuthorizationSignature _ _ => fun a => Some a
      | _ => fun _ => None
      end a
  end.

Definition signature_answers (t : trace Ob) : list (exn + option jsstring) :=
  flat_map (fun e => match signature_answer_of e with Some r => [r] | None => [] end) t.

(** Wallets the custody service created, or its failure. *)
Definition wallet_creation_of (e : entry Ob)
    : option (ChainType * jsstring * (exn + Wallet)) :=
  match e with
  | Entry c a =>
      match c in call _ X
            return exn + X -> option (ChainType * jsstring * (exn + Wallet)) with
      | CreateWallet _ chain owner => fun a => Some (chain, owner, a)
      | _ => fun _ => None
      end a
  end.

Definition wallet_creations (t : trace Ob)
    : list (ChainType * jsstring * (exn + Wallet)) :=
  flat_map (fun e => match wallet_creation_of e with Some r => [r] | None => [] end) t.

End MoreObservations.

(** A request of the export of wallet [walletId] by application [appId]. *)
Definition targets (appId walletId : jsstring) (request : Request) : Prop :=
  req_url request = export_url walletId /\
  req_method request = POST /\
  In (str "privy-app-id", appId) (req_headers request).

(** A character that is neither whitespace, nor of the base64 alphabet, nor
    the padding sign. *)
Definition not_base64 (c : N) : bool :=
  negb (is_ascii_whitespace c) && negb (c =? pad) &&
  match b64_index c with Some _ => false | None => true end.

Definition malformed_base64 (s : jsstring) : Prop :=
  exists c, In c s /\ not_base64 c = true.

(** ** [index.ts]: wallet creation only *)

Module Index.

Definition main {Ob : Objects} (env : Env) : prog Ob unit :=
  let privyAppId := PRIVY_APP_ID env in
  let privyAppSecret := PRIVY_APP_SECRET env in
  let privyAuthorizationPublicKey := PRIVY_AUTHORIZATION_PUBLIC_KEY env in
  if falsy privyAppId || falsy privyAppSecret || falsy privyAuthorizationPublicKey
  then Throw missing_variables
  else
    bind (await (NewPrivyClient (env_string privyAppId) (env_string privyAppSecret)))
      (fun privy =>
    bind (@createPrivyWallet Ob privy (env_string privyAuthorizationPublicKey))
      (fun _ => Ret tt)).

End Index.

(** ** The scripts around the exchange client

    [sign_typed_data.ts], [generate_api_credentials.ts], [place_bet.ts],
    [createCredentialsWithClobClient] and the [placeBetWithClobClient] that
    works from a private key. Console output is left out here too. *)

Module Clob.

(** [process.env] *)
Definition ProcessEnv := list (jsstring * jsstring).

Fixpoint eqb_jsstring (a b : jsstring) : bool :=
  match a, b with
  | [], [] => true
  | x :: a', y :: b' => (x =? y) && eqb_jsstring a' b'
  | _, _ => false
  end.

Fixpoint getenv (env : ProcessEnv) (name : jsstring) : option jsstring :=
  match env with
  | [] => None
  | (k, v) :: rest => if eqb_jsstring k name then Some v else getenv rest name
  end.

(** [v || d] *)
Definition or_default (v : option jsstring) (d : jsstring) : jsstring :=
  if falsy v then d else env_string v.

(** [!s] for a string *)
Definition empty (s : jsstring) : bool :=
  match s with [] => true | _ :: _ => false end.

(** [n.toString()] for a non-negative integer (below 10^21, where
    JavaScript still prints all the digits). *)
Fixpoint uint_units (d : Decimal.uint) : jsstring :=
  match d with
  | Decimal.Nil => []
  | Decimal.D0 d => 48 :: uint_units d
  | Decimal.D1 d => 49 :: uint_units d
  | Decimal.D2 d => 50 :: uint_units d
  | Decimal.D3 d => 51 :: uint_units d
  | Decimal.D4 d => 52 :: uint_units d
  | Decimal.D5 d => 53 :: uint_units d
  | Decimal.D6 d => 54 :: uint_units d
  | Decimal.D7 d => 55 :: uint_units d
  | Decimal.D8 d => 56 :: uint_units d
  | Decimal.D9 d => 57 :: uint_units d
  end.

Definition number_toString (n : N) : jsstring := uint_units (N.to_uint n).


(** EIP-712 typed data, as far as these scripts build it. *)
Record TypedField := { field_name : jsstring; field_type : jsstring }.

Inductive MessageValue := MString (s : jsstring) | MNumber (n : N).

Record TypedDomain := {
  domain_name : jsstring;
  domain_version : jsstring;
  domain_chainId : N;
  domain_verifyingContract : option jsstring
}.

(** [types] and [message] list the entries of the objects in the order
    [Object.keys] enumerates them. *)
Record TypedData := {
  td_types : list (jsstring * list TypedField);
  td_primaryType : option jsstring;
  td_domain : TypedDomain;
  td_message : list (jsstring * MessageValue)
}.

(** What the exchange client does while one of its calls is pending, when
    its signer is the object of [place_bet.ts]: the call settles, or the
    client calls the object's [_signTypedData(domain, types, value)] and goes
    on according to how that settles. *)
Inductive pending (X : Type) : Type :=
| Settles (a : exn + X)
| CallsSigner (domain : TypedDomain) (types : list (jsstring * list TypedField))
    (value : list (jsstring * MessageValue)) (next : exn + jsstring -> pending X).
Arguments Settles {X} a.
Arguments CallsSigner {X} domain types value next.

(** A [fetch] without body. *)
Record HttpRequest := {
  http_url : jsstring;
  http_method : HttpMethod;
  http_headers : list (jsstring * jsstring)
}.

(** The three fields read from the parsed response. *)
Record CredentialsJson := {
  json_apiKey : option jsstring;
  json_secret : option jsstring;
  json_passphrase : option jsstring
}.

Record ApiCredentials := {
  cred_key : option jsstring;
  cred_secret : option jsstring;
  cred_passphrase : option jsstring
}.

(** The credentials handed to the exchange client. *)
Record ClientCreds := {
  client_key : jsstring;
  client_secret : jsstring;
  client_passphrase : jsstring
}.

(** The two fields read from a market, as truth values. *)
Record Market := { market_active : bool; market_accepting_orders : bool }.

Inductive Side := BUY | SELL.

(** A decimal literal: [0.06] is 6 / 10^2. *)
Record DecimalLiteral := { lit_digits : N; lit_scale : nat }.

Record OrderParams := {
  order_tokenID : jsstring;
  order_price : DecimalLiteral;
  order_size : N;
  order_side : Side;
  order_orderType : jsstring;
  order_feeRateBps : N;
  order_nonce : N;
  order_expiration : N;
  order_maker : jsstring
}.

Record OrderResult := { order_orderId : option jsstring }.

Record Handles := {
  PrivyHandle : Type;
  WalletHandle : Type;
  ClobHandle : Type
}.

Inductive kind :=
| KDateNow | KNewPrivy | KSignTypedData | KHttpFetch | KJsonCredentials
| KNewWallet | KGetLegacySign | KSetLegacySign | KNewClob
| KDeriveApiKey | KCreateApiKey | KGetMarket | KGetMarkets
| KCreateAndPostOrder | KGetOrder.

Section Scripts.

Variable Hd : Handles.

(** What the exchange client signs with: an ethers wallet, or the object of
    [place_bet.ts] whose [getAddress] returns [makerAddress] and whose
    [_signTypedData] signs through [signWithServerWallet] for [walletId].
    The client calls the latter while its own calls are pending: see
    [pending] and [serve]. *)
Inductive Signer :=
| EthersSigner (wallet : WalletHandle Hd)
| CustomPrivySigner (makerAddress walletId : jsstring).

(** The calls the scripts make on what is not theirs. Each one settles with
    a value or with an exception. *)
Inductive op : Type -> Type :=
(* [Date.now()] *)
| DateNow : op N
(* [new PrivyClient(appId, appSecret, {walletApi: {authorizationPrivateKey}})] *)
| NewPrivy (appId appSecret authorizationPrivateKey : jsstring) : op (PrivyHandle Hd)
(* [(await privy.walletApi.ethereum.signTypedData({walletId, typedData})).signature] *)
| SignTypedData (privy : PrivyHandle Hd) (walletId : jsstring)
    (typedData : TypedData) : op (option jsstring)
(* [fetch(url, {method, headers})] *)
| HttpFetch (request : HttpRequest) : op Response
(* [response.json()] and the fields [apiKey], [secret], [passphrase] of it *)
| JsonCredentials (response : Response) : op CredentialsJson
(* [new ethers.Wallet(privateKey)] *)
| NewWallet (privateKey : jsstring) : op (WalletHandle Hd)
(* [wallet._signTypedData], as a truth value *)
| GetLegacySign (wallet : WalletHandle Hd) : op bool
(* [wallet._signTypedData = wallet.signTypedData] *)
| SetLegacySign (wallet : WalletHandle Hd) : op unit
(* [new ClobClient(host, chainId, signer, creds)] *)
| NewClob (host : jsstring) (chainId : N) (signer : Signer)
    (creds : option ClientCreds) : op (ClobHandle Hd)
(* [clobClient.deriveApiKey()]: nothing, or an object with its three fields *)
| DeriveApiKey (clob : ClobHandle Hd) : op (option ApiCredentials)
(* [clobClient.createApiKey()] *)
| CreateApiKey (clob : ClobHandle Hd) : op (option ApiCredentials)
(* [clobClient.getMarket(conditionId)] and the two fields read from it *)
| GetMarket (clob : ClobHandle Hd) (conditionId : jsstring) : op Market
(* [clobClient.getMarkets()]; what follows only prints *)
| GetMarkets (clob : ClobHandle Hd) : op unit
(* [clobClient.createAndPostOrder(orderParams)] and the [orderId] of the result *)
| CreateAndPostOrder (clob : ClobHandle Hd) (params : OrderParams) : op OrderResult
(* [clobClient.getOrder(orderId)] *)
| GetOrder (clob : ClobHandle Hd) (orderId : jsstring) : op unit
(* [clobClient.getMarket(conditionId)] and [clobClient.createAndPostOrder(orderParams)]
   on a client whose signer is the object of [place_bet.ts]: answered with
   what the client does while the call is pending *)
| GetMarketSigning (clob : ClobHandle Hd) (conditionId : jsstring) : op (pending Market)
| CreateAndPostOrderSigning (clob : ClobHandle Hd) (params : OrderParams)
    : op (pending OrderResult).

Definition kind_of_op {X : Type} (c : op X) : kind :=
  match c with
  | DateNow => KDateNow
  | NewPrivy _ _ _ => KNewPrivy
  | SignTypedData _ _ _ => KSignTypedData
  | HttpFetch _ => KHttpFetch
  | JsonCredentials _ => KJsonCredentials
  | NewWallet _ => KNewWallet
  | GetLegacySign _ => KGetLegacySign
  | SetLegacySign _ => KSetLegacySign
  | NewClob _ _ _ _ => KNewClob
  | DeriveApiKey _ => KDeriveApiKey
  | CreateApiKey _ => KCreateApiKey
  | GetMarket _ _ => KGetMarket
  | GetMarkets _ => KGetMarkets
  | CreateAndPostOrder _ _ => KCreateAndPostOrder
  | GetOrder _ _ => KGetOrder
  | GetMarketSigning _ _ => KGetMarket
  | CreateAndPostOrderSigning _ _ => KCreateAndPostOrder
  end.

(** A script: a value, an exception, the end of the process
    ([process.exit]), or a call and what follows its settling. *)
Inductive script (R : Type) : Type :=
| Done (r : R)
| Fail (e : exn)
| Exit (code : N)
| Do (X : Type) (c : op X) (k : exn + X -> script R).
Arguments Done {R} r.
Arguments Fail {R} e.
Arguments Exit {R} code.
Arguments Do {R X} c k.

Fixpoint andThen {A B : Type} (p : script A) (f : A -> script B) : script B :=
  match p with
  | Done a => f a
  | Fail e => Fail e
  | Exit code => Exit code
  | Do c k => Do c (fun a => andThen (k a) f)
  end.

(** [try { p } catch (e) { handler e }] *)
Fixpoint tryCatch {A : Type} (p : script A) (handler : exn -> script A) : script A :=
  match p with
  | Done a => Done a
  | Fail e => handler e
  | Exit code => Exit code
  | Do c k => Do c (fun a => tryCatch (k a) handler)
  end.

Definition settled {X : Type} (a : exn + X) : script X :=
  match a with
  | inl e => Fail e
  | inr x => Done x
  end.

Definition awaiting {X : Type} (c : op X) : script X := Do c settled.

Definition lifted {A : Type} (o : outcome A) : script A :=
  match o with
  | Returned a => Done a
  | Thrown e => Fail e
  end.

(** How the promise of [p] settles, for the one who awaits it. *)
Definition attempt {A : Type} (p : script A) : script (exn + A) :=
  tryCatch (andThen p (fun a => Done (inr a))) (fun e => Done (inl e)).

(** A pending call of the client is served: each time the client calls the
    signer, [signer] runs, and the client is given the outcome. *)
Fixpoint serve {X : Type}
    (signer : TypedDomain -> list (jsstring * list TypedField) ->
              list (jsstring * MessageValue) -> script jsstring)
    (call : pending X) : script X :=
  match call with
  | Settles a => settled a
  | CallsSigner domain types value next =>
      andThen (attempt (signer domain types value))
        (fun outcome => serve signer (next outcome))
  end.

Notation "x <- p ;; q" := (andThen p (fun x => q))
  (at level 61, p at next level, right associativity).

(** *** [sign_typed_data.ts] *)

Definition missing_credentials : exn := Error (str "Missing Privy credentials.").
Definition missing_authorization_key : exn :=
  Error (str "Missing Privy authorization key.").

Definition signWithServerWallet (env : ProcessEnv) (walletId : jsstring)
    (typedData : TypedData) : script (option jsstring) :=
  let privyAppId := getenv env (str "PRIVY_APP_ID") in
  let privyAppSecret := getenv env (str "PRIVY_APP_SECRET") in
  let authorizationKey := getenv env (str "PRIVY_AUTHORIZATION_PRIVATE_KEY") in
  if falsy privyAppId || falsy privyAppSecret then Fail missing_credentials
  else if falsy authorizationKey then Fail missing_authorization_key
  else
    privy <- awaiting (NewPrivy (env_string privyAppId) (env_string privyAppSecret)
                         (env_string authorizationKey)) ;;
    awaiting (SignTypedData privy walletId typedData).

(** *** [generate_api_credentials.ts] *)

Definition clobAuthTypedData (makerAddress timestamp : jsstring) (nonce : N)
    : TypedData :=
  {| td_types :=
       [(str "ClobAuth",
         [{| field_name := str "address"; field_type := str "address" |};
          {| field_name := str "timestamp"; field_type := str "string" |};
          {| field_name := str "nonce"; field_type := str "uint256" |};
          {| field_name := str "message"; field_type := str "string" |}])];
     td_primaryType := Some (str "ClobAuth");
     td_domain :=
       {| domain_name := str "ClobAuthDomain";
          domain_version := str "1";
          domain_chainId := 137;
          domain_verifyingContract := None |};
     td_message :=
       [(str "address", MString makerAddress);
        (str "timestamp", MString timestamp);
        (str "nonce", MNumber nonce);
        (str "message",
         MString (str "This message attests that I control the given wallet"))] |}.

Definition poly_headers (makerAddress signature timestamp : jsstring) (nonce : N)
    : list (jsstring * jsstring) :=
  [(str "POLY_ADDRESS", makerAddress);
   (str "POLY_SIGNATURE", signature);
   (str "POLY_TIMESTAMP", timestamp);
   (str "POLY_NONCE", number_toString nonce)].

Definition derive_request (makerAddress signature timestamp : jsstring) (nonce : N)
    : HttpRequest :=
  {| http_url := str "https://clob.polymarket.com/auth/derive-api-key";
     http_method := GET;
     http_headers := poly_headers makerAddress signature timestamp nonce |}.

Definition creation_request (makerAddress signature timestamp : jsstring) (nonce : N)
    : HttpRequest :=
  {| http_url := str "https://clob.polymarket.com/auth/api-key";
     http_method := POST;
     http_headers :=
       (str "Content-Type", str "application/json")
       :: poly_headers makerAddress signature timestamp nonce |}.

(** [`${prefix}${response.status} - ${errorText}`] *)
Definition status_and_body (prefix : jsstring) (response : Response) : exn :=
  Error (prefix ++ number_toString (status response) ++ str " - " ++ body_text response).

Definition derive_failed : Response -> exn :=
  status_and_body (str "Failed to derive API credentials: ").

Definition generate_failed : Response -> exn :=
  status_and_body (str "Failed to generate API credentials: ").

Definition derivation_not_signed : exn :=
  Error (str "Failed to sign API key derivation request").

Definition creation_not_signed : exn :=
  Error (str "Failed to sign API key creation request").

Definition arguments_required : exn :=
  Error (str "walletId and makerAddress are required").

Definition credentials_of (responseData : CredentialsJson) : ApiCredentials :=
  {| cred_key := json_apiKey responseData;
     cred_secret := json_secret responseData;
     cred_passphrase := json_passphrase responseData |}.

Definition deriveApiCredentials (env : ProcessEnv)
    (walletId makerAddress : jsstring) (nonce : N) : script ApiCredentials :=
  now <- awaiting DateNow ;;
  let timestamp := now / 1000 in
  let typedData := clobAuthTypedData makerAddress (number_toString timestamp) nonce in
  signature <- signWithServerWallet env walletId typedData ;;
  if falsy signature then Fail derivation_not_signed
  else
    response <- awaiting (HttpFetch (derive_request makerAddress (env_string signature)
                                       (number_toString timestamp) nonce)) ;;
    if negb (ok response) then Fail (derive_failed response)
    else
      responseData <- awaiting (JsonCredentials response) ;;
      Done (credentials_of responseData).

Definition generateApiCredentials (env : ProcessEnv)
    (walletId makerAddress : jsstring) : script ApiCredentials :=
  if empty walletId || empty makerAddress then Fail arguments_required
  else
    now <- awaiting DateNow ;;
    let timestamp := now / 1000 in
    let nonce := 0 in
    let typedData := clobAuthTypedData makerAddress (number_toString timestamp) nonce in
    signature <- signWithServerWallet env walletId typedData ;;
    if falsy signature then Fail creation_not_signed
    else
      (* the inner [try]: [Some] stands for its [return] *)
      derived <- tryCatch
        (derivedCreds <- deriveApiCredentials env walletId makerAddress nonce ;;
         if negb (falsy (cred_key derivedCreds)) then Done (Some derivedCreds)
         else Done None)
        (fun _ => Done None) ;;
      match derived with
      | Some derivedCreds => Done derivedCreds
      | None =>
          response <- awaiting (HttpFetch (creation_request makerAddress
                                             (env_string signature)
                                             (number_toString timestamp) nonce)) ;;
          if negb (ok response) then Fail (generate_failed response)
          else
            responseData <- awaiting (JsonCredentials response) ;;
            Done (credentials_of responseData)
      end.

(** *** [createCredentialsWithClobClient] *)

Definition clob_host : jsstring := str "https://clob.polymarket.com".

Definition private_key_not_found : exn := Error (str "PRIVATE_KEY not found in .env file").
Definition derive_without_key : exn :=
  Error (str "Derive API key did not return a valid key. Trying to create a new one.").
Definition no_credentials : exn := Error (str "Failed to obtain API credentials.").

Definition nullish_text (v : nullish) : jsstring :=
  match v with
  | Undefined => str "undefined"
  | Null => str "null"
  end.

(** The error of reading [property] of [undefined] or [null]. *)
Definition cannot_read (v : nullish) (property : jsstring) : exn :=
  TypeError (str "Cannot read properties of " ++ nullish_text v
             ++ str " (reading '" ++ property ++ str "')").

(** [!apiCredentials || !apiCredentials.key] *)
Definition unusable (apiCredentials : option ApiCredentials) : bool :=
  match apiCredentials with
  | None => true
  | Some c => falsy (cred_key c)
  end.

Definition createCredentialsWithClobClient (env : ProcessEnv) : script unit :=
  tryCatch
    (let encodedPrivateKey := getenv env (str "PRIVATE_KEY") in
     if falsy encodedPrivateKey then Fail private_key_not_found
     else
       privateKey <- lifted (decodePrivateKey (env_string encodedPrivateKey)) ;;
       wallet <- awaiting (NewWallet privateKey) ;;
       legacy <- awaiting (GetLegacySign wallet) ;;
       _ <- (if negb legacy then awaiting (SetLegacySign wallet) else Done tt) ;;
       clobClient <- awaiting (NewClob clob_host 137 (EthersSigner wallet) None) ;;
       apiCredentials <- tryCatch
         (derived <- awaiting (DeriveApiKey clobClient) ;;
          if unusable derived then Fail derive_without_key else Done derived)
         (fun _ =>
            tryCatch (awaiting (CreateApiKey clobClient))
              (fun creationError => Fail creationError)) ;;
       match apiCredentials with
       | None => Fail no_credentials
       | Some _ => Done tt
       end)
    (fun err =>
       (* [if (err.error)]: the read throws when what was caught is nothing *)
       match err with
       | Nullish v => Fail (cannot_read v (str "error"))
       | _ => Exit 1
       end).

(** *** Running a script *)

Inductive ending (A : Type) :=
| Fulfilled (a : A)
| RejectedWith (e : exn)
| Exited (code : N).
Arguments Fulfilled {A} a.
Arguments RejectedWith {A} e.
Arguments Exited {A} code.

Record Host := {
  HostState : Type;
  respond : forall X : Type, op X -> HostState -> (exn + X) * HostState
}.

Record step := Step {
  step_type : Type;
  step_op : op step_type;
  step_answer : exn + step_type
}.

Fixpoint exec (host : Host) {R : Type} (p : script R) (w : HostState host)
    : ending R * HostState host * list step :=
  match p with
  | Done r => (Fulfilled r, w, [])
  | Fail e => (RejectedWith e, w, [])
  | Exit code => (Exited code, w, [])
  | Do c k =>
      let (a, w') := respond host c w in
      let '(o, w'', t) := exec host (k a) w' in
      (o, w'', Step c a :: t)
  end.

Definition ending_of (host : Host) {R : Type} (p : script R) (w : HostState host)
    : ending R :=
  fst (fst (exec host p w)).

Definition steps_of (host : Host) {R : Type} (p : script R) (w : HostState host)
    : list step :=
  snd (exec host p w).

(** *** Observations *)

Definition kinds (t : list step) : list kind :=
  map (fun s => kind_of_op (step_op s)) t.

Definition failed (s : step) : bool :=
  match step_answer s with inl _ => true | inr _ => false end.

(** Kinds of the calls that failed. *)
Definition failures (t : list step) : list kind :=
  kinds (filter failed t).

(** The calls that failed, with what they failed with. *)
Definition rejection_of (s : step) : option (kind * exn) :=
  match step_answer s with
  | inl e => Some (kind_of_op (step_op s), e)
  | inr _ => None
  end.

Definition rejections (t : list step) : list (kind * exn) :=
  flat_map (fun s => match rejection_of s with Some r => [r] | None => [] end) t.

(** The calls the signer of [place_bet.ts] makes. *)
Definition signer_kind (k : kind) : bool :=
  match k with
  | KNewPrivy | KSignTypedData => true
  | _ => false
  end.

(** The kinds of the other calls. *)
Definition own_kinds (t : list step) : list kind :=
  filter (fun k => negb (signer_kind k)) (kinds t).

Definition request_of (s : step) : option HttpRequest :=
  match step_op s with
  | HttpFetch r => Some r
  | _ => None
  end.

Definition requests (t : list step) : list HttpRequest :=
  flat_map (fun s => match request_of s with Some r => [r] | None => [] end) t.

Definition response_of (s : step) : option Response :=
  match s with
  | Step c a =>
      match c in op X return exn + X -> option Response with
      | HttpFetch _ => fun a => match a with inr r => Some r | inl _ => None end
      | _ => fun _ => None
      end a
  end.

Definition responses (t : list step) : list Response :=
  flat_map (fun s => match response_of s with Some r => [r] | None => [] end) t.

Definition signing_of (s : step) : option (exn + option jsstring) :=
  match s with
  | Step c a =>
      match c in op X return exn + X -> option (exn + option jsstring) with
      | SignTypedData _ _ _ => fun a => Some a
      | _ => fun _ => None
      end a
  end.

Definition signings (t : list step) : list (exn + option jsstring) :=
  flat_map (fun s => match signing_of s with Some r => [r] | None => [] end) t.

(** Responses whose body was parsed, with what the parsing gave. *)
Definition parsing_of (s : step) : option (Response * (exn + CredentialsJson)) :=
  match s with
  | Step c a =>
      match c in op X return exn + X -> option (Response * (exn + CredentialsJson)) with
      | JsonCredentials r => fun a => Some (r, a)
      | _ => fun _ => None
      end a
  end.

Definition parsings (t : list step) : list (Response * (exn + CredentialsJson)) :=
  flat_map (fun s => match parsing_of s with Some r => [r] | None => [] end) t.

(** What the custody wallet was asked to sign, and for which wallet. *)
Definition sign_request_of (s : step) : option (jsstring * TypedData) :=
  match step_op s with
  | SignTypedData _ walletId typedData => Some (walletId, typedData)
  | _ => None
  end.

Definition sign_requests (t : list step) : list (jsstring * TypedData) :=
  flat_map (fun s => match sign_request_of s with Some r => [r] | None => [] end) t.

Definition clock_of (s : step) : option (exn + N) :=
  match s with
  | Step c a =>
      match c in op X return exn + X -> option (exn + N) with
      | DateNow => fun a => Some a
      | _ => fun _ => None
      end a
  end.

Definition clock_readings (t : list step) : list (exn + N) :=
  flat_map (fun s => match clock_of s with Some r => [r] | None => [] end) t.

Definition wallet_key_of (s : step) : option jsstring :=
  match step_op s with
  | NewWallet k => Some k
  | _ => None
  end.

Definition wallet_keys (t : list step) : list jsstring :=
  flat_map (fun s => match wallet_key_of s with Some r => [r] | None => [] end) t.

Definition derivation_of (s : step) : option (exn + option ApiCredentials) :=
  match s with
  | Step c a =>
      match c in op X return exn + X -> option (exn + option ApiCredentials) with
      | DeriveApiKey _ => fun a => Some a
      | _ => fun _ => None
      end a
  end.

Definition derivations (t : list step) : list (exn + option ApiCredentials) :=
  flat_map (fun s => match derivation_of s with Some r => [r] | None => [] end) t.

Definition creation_of (s : step) : option (exn + option ApiCredentials) :=
  match s with
  | Step c a =>
      match c in op X return exn + X -> option (exn + option ApiCredentials) with
      | CreateApiKey _ => fun a => Some a
      | _ => fun _ => None
      end a
  end.

Definition creations (t : list step) : list (exn + option ApiCredentials) :=
  flat_map (fun s => match creation_of s with Some r => [r] | None => [] end) t.

Definition order_of (s : step) : option OrderParams :=
  match step_op s with
  | CreateAndPostOrder _ p => Some p
  | CreateAndPostOrderSigning _ p => Some p
  | _ => None
  end.

Definition orders (t : list step) : list OrderParams :=
  flat_map (fun s => match order_of s with Some r => [r] | None => [] end) t.

Definition market_of (s : step) : option Market :=
  match s with
  | Step c a =>
      match c in op X return exn + X -> option Market with
      | GetMarket _ _ => fun a => match a with inr m => Some m | inl _ => None end
      | _ => fun _ => None
      end a
  end.

Definition markets (t : list step) : list Market :=
  flat_map (fun s => match market_of s with Some r => [r] | None => [] end) t.

Definition order_result_of (s : step) : option OrderResult :=
  match s with
  | Step c a =>
      match c in op X return exn + X -> option OrderResult with
      | CreateAndPostOrder _ _ =>
          fun a => match a with inr m => Some m | inl _ => None end
      | _ => fun _ => None
      end a
  end.

Definition order_results (t : list step) : list OrderResult :=
  flat_map (fun s => match order_result_of s with Some r => [r] | None => [] end) t.

(** What a served call leaves in a run: it has settled, and meanwhile only
    the signer has made calls, and signed for one wallet only. *)
Definition served_by_signer (walletId : jsstring) {X : Type}
    (o : ending X) (t : list step) : Prop :=
  (exists a : exn + X,
     o = match a with inl e => RejectedWith e | inr x => Fulfilled x end) /\
  own_kinds t = [] /\
  clock_readings t = [] /\
  orders t = [] /\
  (forall request, In request (sign_requests t) -> fst request = walletId).

End Scripts.

Arguments DateNow {Hd}.
Arguments NewPrivy {Hd} appId appSecret authorizationPrivateKey.
Arguments SignTypedData {Hd} privy walletId typedData.
Arguments HttpFetch {Hd} request.
Arguments JsonCredentials {Hd} response.
Arguments NewWallet {Hd} privateKey.
Arguments GetLegacySign {Hd} wallet.
Arguments SetLegacySign {Hd} wallet.
Arguments NewClob {Hd} host chainId signer creds.
Arguments DeriveApiKey {Hd} clob.
Arguments CreateApiKey {Hd} clob.
Arguments GetMarket {Hd} clob conditionId.
Arguments GetMarkets {Hd} clob.
Arguments CreateAndPostOrder {Hd} clob params.
Arguments GetOrder {Hd} clob orderId.
Arguments GetMarketSigning {Hd} clob conditionId.
Arguments CreateAndPostOrderSigning {Hd} clob params.
Arguments EthersSigner {Hd} wallet.
Arguments CustomPrivySigner {Hd} makerAddress walletId.
Arguments Done {Hd R} r.
Arguments Fail {Hd R} e.
Arguments Exit {Hd R} code.
Arguments Do {Hd R X} c k.
Arguments Step {Hd step_type} step_op step_answer.
Arguments lifted {Hd A} o.
Arguments Fulfilled {A} a.
Arguments RejectedWith {A} e.
Arguments Exited {A} code.
Arguments signWithServerWallet {Hd}.
Arguments deriveApiCredentials {Hd}.
Arguments generateApiCredentials {Hd}.
Arguments createCredentialsWithClobClient {Hd}.

End Clob.

(** *** [place_bet.ts]: placing an order with the custody wallet as signer *)

Module PlaceBet.
Import Clob.

Definition default_market : jsstring :=
  str "0x2b247ca3101b16d95afcb5117a03a126c6a767d3131814f0647fe61442981622".

Definition yes_token : jsstring :=
  str "60487116984468020978247225474488676749601001829886755968952521846780452448915".

Definition missing_wallet_or_maker : exn :=
  Error (str "Missing required environment variables: WALLET_ID and MAKER_ADDRESS").

Definition client_creds (env : ProcessEnv) : ClientCreds :=
  {| client_key := or_default (getenv env (str "POLYMARKET_API_KEY")) [];
     client_secret := or_default (getenv env (str "POLYMARKET_API_SECRET")) [];
     client_passphrase := or_default (getenv env (str "POLYMARKET_PASSPHRASE")) [] |}.

Definition orderParams (size : N) (makerAddress : jsstring) (now : N) : OrderParams :=
  {| order_tokenID := yes_token;
     order_price := {| lit_digits := 6; lit_scale := 2 |};
     order_size := size;
     order_side := BUY;
     order_orderType := str "GTC";
     order_feeRateBps := 0;
     order_nonce := now;
     order_expiration := 0;
     order_maker := makerAddress |}.

Local Notation "x <- p ;; q" := (andThen p (fun x => q))
  (at level 61, p at next level, right associativity).

Definition signature_not_obtained : exn :=
  Error (str "Failed to get signature from Privy wallet").

(** [customPrivySigner._signTypedData]; [Object.keys(types)[0]] is
    [undefined] when [types] has no key. *)
Definition signTypedData {Hd : Handles} (env : ProcessEnv) (walletId : jsstring)
    (domain : TypedDomain) (types : list (jsstring * list TypedField))
    (value : list (jsstring * MessageValue)) : script Hd jsstring :=
  let typedData :=
    {| td_types := types;
       td_primaryType := match types with
                         | [] => None
                         | (key, _) :: _ => Some key
                         end;
       td_domain := domain;
       td_message := value |} in
  signature <- signWithServerWallet env walletId typedData ;;
  if falsy signature then Fail signature_not_obtained
  else Done (env_string signature).

Definition placeBetWithClobClient {Hd : Handles} (env : ProcessEnv) : script Hd unit :=
  let makerAddress := getenv env (str "MAKER_ADDRESS") in
  let walletId := getenv env (str "WALLET_ID") in
  let targetMarketId := or_default (getenv env (str "TARGET_MARKET_ID")) default_market in
  if falsy walletId || falsy makerAddress then Fail missing_wallet_or_maker
  else
    let customPrivySigner := signTypedData env (env_string walletId) in
    tryCatch
      (clobClient <- awaiting (NewClob clob_host 137
                                 (CustomPrivySigner (env_string makerAddress)
                                    (env_string walletId))
                                 (Some (client_creds env))) ;;
       _ <- tryCatch
              (call <- awaiting (GetMarketSigning clobClient targetMarketId) ;;
               market <- serve customPrivySigner call ;;
               Done tt)
              (fun _ => Done tt) ;;
       now <- awaiting DateNow ;;
       call <- awaiting (CreateAndPostOrderSigning clobClient
                           (orderParams 3 (env_string makerAddress) now)) ;;
       orderResult <- serve customPrivySigner call ;;
       Done tt)
      (fun _ => Done tt).

End PlaceBet.

(** *** The [placeBetWithClobClient] that signs with a private key *)

Module PlaceBetWithKey.
Import Clob.

Definition missing_key_or_maker : exn :=
  Error (str "Missing required environment variables: PRIVATE_KEY and MAKER_ADDRESS").

Definition unexpected_length (privateKey : jsstring) : exn :=
  Error (str "Invalid private key format. Expected 66 characters (including 0x), got "
         ++ number_toString (N.of_nat (length privateKey))).

Definition not_hex : exn := Error (str "Invalid private key: not a valid hex string").

(** [/^0x[0-9a-fA-F]{64}$/.test(s)] *)
Definition test_0x_hex64 (s : jsstring) : bool :=
  startsWith s (str "0x") && test_hex 64 (slice 2 s).

Local Notation "x <- p ;; q" := (andThen p (fun x => q))
  (at level 61, p at next level, right associativity).

Definition placeBetWithClobClient {Hd : Handles} (env : ProcessEnv) : script Hd unit :=
  privateKey <- lifted (decodeDoubleHexPrivateKey
                          (or_default (getenv env (str "PRIVATE_KEY")) [])) ;;
  let makerAddress := getenv env (str "MAKER_ADDRESS") in
  let targetMarketId :=
    or_default (getenv env (str "TARGET_MARKET_ID")) PlaceBet.default_market in
  if empty privateKey || falsy makerAddress then Fail missing_key_or_maker
  else if negb (startsWith privateKey (str "0x")) || negb (length privateKey =? 66)%nat
  then Fail (unexpected_length privateKey)
  else if negb (test_0x_hex64 privateKey) then Fail not_hex
  else
    tryCatch
      (wallet <- awaiting (NewWallet privateKey) ;;
       _ <- awaiting (SetLegacySign wallet) ;;
       clobClient <- awaiting (NewClob clob_host 137 (EthersSigner wallet)
                                 (Some (PlaceBet.client_creds env))) ;;
       _ <- tryCatch
              (market <- awaiting (GetMarket clobClient targetMarketId) ;;
               if negb (market_accepting_orders market)
               then awaiting (GetMarkets clobClient)
               else Done tt)
              (fun _ => Done tt) ;;
       now <- awaiting DateNow ;;
       orderResult <- awaiting (CreateAndPostOrder clobClient
                                  (PlaceBet.orderParams 5 (env_string makerAddress) now)) ;;
       if falsy (order_orderId orderResult) then Done tt
       else awaiting (GetOrder clobClient (env_string (order_orderId orderResult))))
      (fun _ => Done tt).

End PlaceBetWithKey.

(** *** A test host for the scripts *)

Module ClobMock.
Import Clob.

Definition handles : Handles :=
  {| PrivyHandle := jsstring * jsstring * jsstring;
     WalletHandle := jsstring;
     ClobHandle := unit |}.

Record state := {
  clock : N;                          (* what [Date.now()] answers *)
  signature : option jsstring;        (* what the custody wallet signs *)
  derive_status : N;                  (* status of the GET derive-api-key *)
  creation_status : N;                (* status of the POST api-key *)
  derived : exn + option ApiCredentials;  (* [clobClient.deriveApiKey()] *)
  market : exn + Market;              (* [clobClient.getMarket()] *)
  order_fails : bool                  (* [createAndPostOrder] throws *)
}.

Definition credentials : ApiCredentials :=
  {| cred_key := Some (str "key");
     cred_secret := Some (str "secret");
     cred_passphrase := Some (str "passphrase") |}.

Definition rejection : exn := Error (str "rejected").

(** What the client of the test host asks the signer to sign. *)
Definition order_domain : TypedDomain :=
  {| domain_name := str "Polymarket CTF Exchange";
     domain_version := str "1";
     domain_chainId := 137;
     domain_verifyingContract := Some (str "0xexchange") |}.

Definition order_types : list (jsstring * list TypedField) :=
  [(str "Order",
    [{| field_name := str "maker"; field_type := str "address" |};
     {| field_name := str "tokenId"; field_type := str "uint256" |}])].

Definition order_value : list (jsstring * MessageValue) :=
  [(str "maker", MString (str "0xmaker")); (str "tokenId", MNumber 1)].

Definition mock_respond (X : Type) (c : op handles X) (s : state)
    : (exn + X) * state :=
  match c in op _ X return (exn + X) * state with
  | DateNow => (inr (clock s), s)
  | NewPrivy appId appSecret key => (inr (appId, appSecret, key), s)
  | SignTypedData _ _ _ => (inr (signature s), s)
  | HttpFetch request =>
      let st := match http_method request with
                | GET => derive_status s
                | _ => creation_status s
                end in
      (inr {| status := st; body_text := str "answer" |}, s)
  | JsonCredentials _ =>
      (inr {| json_apiKey := Some (str "key");
              json_secret := Some (str "secret");
              json_passphrase := Some (str "passphrase") |}, s)
  | NewWallet privateKey => (inr privateKey, s)
  | GetLegacySign _ => (inr false, s)
  | SetLegacySign _ => (inr tt, s)
  | NewClob _ _ _ _ => (inr tt, s)
  | DeriveApiKey _ => (derived s, s)
  | CreateApiKey _ => (inr (Some credentials), s)
  | GetMarket _ _ => (market s, s)
  | GetMarkets _ => (inr tt, s)
  | CreateAndPostOrder _ _ =>
      (if order_fails s then inl rejection
       else inr {| order_orderId := Some (str "order-1") |}, s)
  | GetOrder _ _ => (inr tt, s)
  | GetMarketSigning _ _ => (inr (Settles (market s)), s)
  | CreateAndPostOrderSigning _ _ =>
      (* the client has the order signed, once, and posts it *)
      (inr (CallsSigner order_domain order_types order_value
              (fun signed =>
                 match signed with
                 | inl e => Settles (inl e)
                 | inr _ =>
                     Settles (if order_fails s then inl rejection
                              else inr {| order_orderId := Some (str "order-1") |})
                 end)), s)
  end.

Definition host : Host handles :=
  {| HostState := state; respond := mock_respond |}.

(** The same host, but [createApiKey] rejects with [undefined]. *)
Definition respond_undefined (X : Type) (c : op handles X) (s : state)
    : (exn + X) * state :=
  match c in op _ X return (exn + X) * state with
  | CreateApiKey _ => (inl (Nullish Undefined), s)
  | other => mock_respond other s
  end.

Definition host_rejecting_with_undefined : Host handles :=
  {| HostState := state; respond := respond_undefined |}.

(** Everything answers; the derivation endpoint says 404. *)
Definition state0 : state :=
  {| clock := 1700000000123;
     signature := Some (str "0xsig");
     derive_status := 404;
     creation_status := 200;
     derived := inl rejection;
     market := inl rejection;
     order_fails := true |}.

(** The derivation endpoint accepts. *)
Definition accepting : state :=
  {| clock := 1700000000123;
     signature := Some (str "0xsig");
     derive_status := 200;
     creation_status := 200;
     derived := inl rejection;
     market := inl rejection;
     order_fails := true |}.

Definition unsigned : state :=
  {| clock := 1700000000123;
     signature := None;
     derive_status := 404;
     creation_status := 200;
     derived := inl rejection;
     market := inl rejection;
     order_fails := true |}.

Definition privy_env : ProcessEnv :=
  [(str "PRIVY_APP_ID", str "app");
   (str "PRIVY_APP_SECRET", str "secret");
   (str "PRIVY_AUTHORIZATION_PRIVATE_KEY", str "authkey");
   (str "WALLET_ID", str "w_123");
   (str "MAKER_ADDRESS", str "0xmaker");
   (str "PRIVATE_KEY", str "0x" ++ repeat 102 64)].

(** Inputs of the test runs. *)
Definition typedData : TypedData :=
  clobAuthTypedData (str "0xmaker") (str "1700000000") 0.


Definition derive : script handles ApiCredentials :=
  deriveApiCredentials privy_env (str "w_123") (str "0xmaker") 0.

Definition generate : script handles ApiCredentials :=
  generateApiCredentials privy_env (str "w_123") (str "0xmaker").

End ClobMock.

(** The test platform with a signer that answers [undefined]. *)
Module MockUnsigned.

Definition perform_unsigned (X : Type) (c : call Mock.objects X) (w : Mock.world)
    : (exn + X) * Mock.world :=
  match c in call _ X return (exn + X) * Mock.world with
  | GenerateAuthorizationSignature _ _ => (inr None, w)
  | other => Mock.mock_perform other w
  end.

Definition platform : Platform Mock.objects :=
  {| World := Mock.world; perform := perform_unsigned |}.

End MockUnsigned.

(** * Proofs *)

Ltac Zify.zify_post_hook ::= Z.to_euclidean_division_equations.

Ltac cases_on_tests :=
  repeat match goal with
  | |- context [?a <? ?b] => destruct (N.ltb_spec a b)
  | |- context [?a <=? ?b] => destruct (N.leb_spec a b)
  | |- context [?a =? ?b] => destruct (N.eqb_spec a b)
  | H : context [?a <? ?b] |- _ => destruct (N.ltb_spec a b)
  | H : context [?a <=? ?b] |- _ => destruct (N.leb_spec a b)
  | H : context [?a =? ?b] |- _ => destruct (N.eqb_spec a b)
  end.

Ltac bound_bytes :=
  repeat match goal with
  | |- context [Byte.to_N ?v] =>
      let H := fresh in
      pose proof (Byte.to_N_bounded v) as H;
      generalize dependent (Byte.to_N v); intros
  end.

(** ** Bytes *)

Lemma byte_of_to_N (b : byte) : byte_of_N (Byte.to_N b) = b.
Proof.
  unfold byte_of_N.
  rewrite N.mod_small by (pose proof (Byte.to_N_bounded b); lia).
  now rewrite Byte.of_to_N.
Qed.

Lemma to_N_byte_of_N_mod (n : N) : Byte.to_N (byte_of_N n) = n mod 256.
Proof.
  unfold byte_of_N.
  destruct (Byte.of_N (n mod 256)) as [b|] eqn:E.
  - now apply Byte.to_of_N.
  - apply Byte.of_N_None_iff in E. lia.
Qed.

Lemma to_N_lt (b : byte) : Byte.to_N b < 256.
Proof. pose proof (Byte.to_N_bounded b). lia. Qed.

Lemma eqb_byte_refl (b : byte) : Byte.eqb b b = true.
Proof. now apply Byte.byte_dec_lb. Qed.

Lemma eqb_byte_neq (a b : byte) : a <> b -> Byte.eqb a b = false.
Proof.
  intros H. destruct (Byte.eqb a b) eqn:E; [|reflexivity].
  now apply Byte.byte_dec_bl in E.
Qed.

Lemma bytes_ind3 (Q : bytes -> Prop) :
  Q [] -> (forall x, Q [x]) -> (forall x y, Q [x; y]) ->
  (forall x y z rest, Q rest -> Q (x :: y :: z :: rest)) ->
  forall b, Q b.
Proof.
  intros H0 H1 H2 H3.
  assert (H : forall n b, (length b <= n)%nat -> Q b).
  { induction n as [|n IH]; intros b Hb.
    - destruct b; [assumption | simpl in Hb; lia].
    - destruct b as [|x [|y [|z rest]]]; auto.
      apply H3, IH. simpl in Hb. lia. }
  intros b. now apply (H (length b)).
Qed.

(** ** Base64: decoding undoes encoding *)

Lemma b64_char_not_pad (i : N) : b64_char i <> pad.
Proof. unfold b64_char, pad. cases_on_tests; lia. Qed.

Lemma b64_char_not_whitespace (i : N) : is_ascii_whitespace (b64_char i) = false.
Proof.
  unfold is_ascii_whitespace, b64_char.
  cases_on_tests; cbn [andb orb negb]; try reflexivity; lia.
Qed.

Lemma b64_index_char (i : N) : i < 64 -> b64_index (b64_char i) = Some i.
Proof.
  intros Hi. unfold b64_index, b64_char.
  cases_on_tests; cbn [andb orb negb]; try (f_equal; lia); try lia.
Qed.

Lemma padding_of_cons3 (x y z : byte) (rest : bytes) :
  padding_of (x :: y :: z :: rest) = padding_of rest.
Proof.
  unfold padding_of.
  change (length (x :: y :: z :: rest)) with (3 + length rest)%nat.
  replace ((3 + length rest) mod 3)%nat with (length rest mod 3)%nat; [reflexivity|].
  lia.
Qed.

Lemma padding_of_cases (b : bytes) :
  padding_of b = [] \/ padding_of b = [pad] \/ padding_of b = [pad; pad].
Proof.
  unfold padding_of. destruct (length b mod 3)%nat as [|[|[|n]]]; auto.
Qed.

Lemma toBase64_sextets (b : bytes) :
  toBase64 b = map b64_char (sextets_of_bytes b) ++ padding_of b.
Proof.
  induction b as [| x | x y | x y z rest IH] using bytes_ind3; try reflexivity.
  rewrite padding_of_cons3.
  cbn [toBase64 sextets_of_bytes map app]. now rewrite IH.
Qed.

Lemma sextets_bounded (b : bytes) : Forall (fun i => i < 64) (sextets_of_bytes b).
Proof.
  induction b as [| x | x y | x y z rest IH] using bytes_ind3;
    cbn [sextets_of_bytes]; repeat constructor; try assumption.
  all: bound_bytes; lia.
Qed.

Lemma regroup_first (a b : N) :
  b < 256 -> a / 4 * 4 + (a mod 4 * 16 + b / 16) / 16 = a.
Proof. intros. lia. Qed.

Lemma regroup_first_alone (a : N) : a / 4 * 4 + (a mod 4 * 16) / 16 = a.
Proof. lia. Qed.

Lemma regroup_second (a b c : N) :
  b < 256 -> c < 256 ->
  (a mod 4 * 16 + b / 16) mod 16 * 16 + (b mod 16 * 4 + c / 64) / 4 = b.
Proof. intros. lia. Qed.

Lemma regroup_second_alone (a b : N) :
  b < 256 -> (a mod 4 * 16 + b / 16) mod 16 * 16 + (b mod 16 * 4) / 4 = b.
Proof. intros. lia. Qed.

Lemma regroup_third (b c : N) :
  c < 256 -> (b mod 16 * 4 + c / 64) mod 4 * 64 + c mod 64 = c.
Proof. intros. lia. Qed.

Lemma sextets_roundtrip (b : bytes) : sextets_to_bytes (sextets_of_bytes b) = b.
Proof.
  induction b as [| x | x y | x y z rest IH] using bytes_ind3.
  - reflexivity.
  - cbn [sextets_of_bytes sextets_to_bytes].
    now rewrite regroup_first_alone, byte_of_to_N.
  - cbn [sextets_of_bytes sextets_to_bytes].
    rewrite regroup_first, regroup_second_alone by apply to_N_lt.
    now rewrite !byte_of_to_N.
  - cbn [sextets_of_bytes sextets_to_bytes]. rewrite IH.
    rewrite regroup_first, regroup_second, regroup_third by apply to_N_lt.
    now rewrite !byte_of_to_N.
Qed.

Lemma filter_id {A} (f : A -> bool) (l : list A) :
  (forall x, In x l -> f x = true) -> filter f l = l.
Proof.
  induction l as [|a l IH]; intros H; [reflexivity|].
  simpl. rewrite (H a) by now left. f_equal. apply IH. intros. apply H. now right.
Qed.

Lemma toBase64_no_whitespace (b : bytes) :
  filter (fun c => negb (is_ascii_whitespace c)) (toBase64 b) = toBase64 b.
Proof.
  apply filter_id. intros c Hc. rewrite toBase64_sextets in Hc.
  apply in_app_or in Hc. destruct Hc as [Hc|Hc].
  - apply in_map_iff in Hc. destruct Hc as [i [<- _]].
    now rewrite b64_char_not_whitespace.
  - destruct (padding_of_cases b) as [E|[E|E]]; rewrite E in Hc; simpl in Hc;
      intuition (subst; reflexivity).
Qed.

Lemma strip_padding_app (body pads : jsstring) :
  (forall c, In c body -> c <> pad) ->
  pads = [] \/ pads = [pad] \/ pads = [pad; pad] ->
  strip_padding (body ++ pads) = body.
Proof.
  intros Hbody Hpads.
  assert (Hlast : forall c r, rev body = c :: r -> (c =? pad) = false).
  { intros c r E. apply N.eqb_neq, Hbody. rewrite in_rev, E. now left. }
  unfold strip_padding. rewrite rev_app_distr.
  destruct Hpads as [-> | [-> | ->]]; cbn [rev app].
  - rewrite app_nil_r.
    destruct (rev body) as [|c [|d r]] eqn:E; try reflexivity.
    + now rewrite (Hlast c []).
    + rewrite (Hlast c (d :: r)) by reflexivity. reflexivity.
  - change (pad =? pad) with true.
    destruct (rev body) as [|d r] eqn:E.
    + apply (f_equal (@rev N)) in E. rewrite rev_involutive in E. now subst.
    + rewrite (Hlast d r) by reflexivity. cbn [andb].
      change (rev (d :: r) = body). rewrite <- E. apply rev_involutive.
  - change (pad =? pad) with true. cbn [andb]. apply rev_involutive.
Qed.

Lemma length_toBase64 (b : bytes) : (length (toBase64 b) mod 4 = 0)%nat.
Proof.
  induction b as [| x | x y | x y z rest IH] using bytes_ind3; try reflexivity.
  cbn [toBase64 length]. lia.
Qed.

Lemma length_sextets (b : bytes) : (length (sextets_of_bytes b) mod 4 <> 1)%nat.
Proof.
  induction b as [| x | x y | x y z rest IH] using bytes_ind3;
    try (cbv; discriminate).
  cbn [sextets_of_bytes length]. lia.
Qed.

Lemma b64_indices_chars (s : list N) :
  Forall (fun i => i < 64) s -> b64_indices (map b64_char s) = Some s.
Proof.
  induction 1 as [|i s Hi _ IH]; [reflexivity|].
  cbn [map b64_indices]. now rewrite b64_index_char, IH.
Qed.

Lemma forgiving_base64_decode_toBase64 (b : bytes) :
  forgiving_base64_decode (toBase64 b) = Some (map Byte.to_N b).
Proof.
  unfold forgiving_base64_decode.
  rewrite toBase64_no_whitespace, length_toBase64. cbn [Nat.eqb].
  rewrite toBase64_sextets, strip_padding_app.
  - rewrite length_map.
    destruct (Nat.eqb_spec (length (sextets_of_bytes b) mod 4) 1) as [E|_].
    + now apply length_sextets in E.
    + rewrite b64_indices_chars by apply sextets_bounded.
      now rewrite sextets_roundtrip.
  - intros c Hc. apply in_map_iff in Hc. destruct Hc as [i [<- _]].
    apply b64_char_not_pad.
  - apply padding_of_cases.
Qed.

Lemma atob_toBase64 (b : bytes) : atob (toBase64 b) = Returned (map Byte.to_N b).
Proof. unfold atob. now rewrite forgiving_base64_decode_toBase64. Qed.

Lemma base64ToBuffer_toBase64 (b : bytes) : base64ToBuffer (toBase64 b) = Returned b.
Proof.
  unfold base64ToBuffer. rewrite atob_toBase64. f_equal.
  rewrite map_map. rewrite <- (map_id b) at 2. apply map_ext, byte_of_to_N.
Qed.

Lemma toBase64_injective (a b : bytes) : toBase64 a = toBase64 b -> a = b.
Proof.
  intros E. apply (f_equal base64ToBuffer) in E.
  rewrite !base64ToBuffer_toBase64 in E. congruence.
Qed.

(** ** The key material formatter *)

Lemma length_toHex (b : bytes) : length (toHex b) = (2 * length b)%nat.
Proof.
  induction b as [|x b IH]; [reflexivity|].
  cbn [toHex flat_map app length] in *. unfold toHex in IH. rewrite IH. lia.
Qed.

Lemma hex_digit_lower (n : N) : n < 16 -> is_lower_hex_digit (hex_digit n) = true.
Proof.
  intros Hn. unfold is_lower_hex_digit, hex_digit.
  cases_on_tests; cbn [andb orb]; try reflexivity; lia.
Qed.

Lemma toHex_lower (b : bytes) : forallb is_lower_hex_digit (toHex b) = true.
Proof.
  induction b as [|x b IH]; [reflexivity|].
  cbn [toHex flat_map app forallb]. unfold toHex in IH. rewrite IH.
  pose proof (to_N_lt x).
  rewrite !hex_digit_lower; [reflexivity | |]; lia.
Qed.

(** C7. For every 32-byte plaintext the formatter returns a string of
    exactly 66 characters: [0x] followed by 64 lowercase hexadecimal
    digits. *)
Theorem formatter_fixed_length (pt : bytes) :
  length pt = 32%nat ->
  exists digits,
    formatKeyMaterial pt = Returned (str "0x" ++ digits) /\
    length (str "0x" ++ digits) = 66%nat /\
    length digits = 64%nat /\
    forallb is_lower_hex_digit digits = true.
Proof.
  intros Hlen. exists (toHex pt). split; [reflexivity|].
  rewrite length_app, length_toHex, Hlen. repeat split.
  apply toHex_lower.
Qed.

Lemma formatter_fixed_length_witness :
  exists digits,
    formatKeyMaterial (repeat xab 32) = Returned (str "0x" ++ digits) /\
    length (str "0x" ++ digits) = 66%nat /\
    length digits = 64%nat /\
    forallb is_lower_hex_digit digits = true.
Proof. apply formatter_fixed_length. reflexivity. Defined.

(** C6, as the code has it. The formatter has no failure mode and checks no
    length: for a plaintext of [n] bytes it returns [0x] followed by [2 n]
    lowercase hexadecimal digits, so the result has 66 characters exactly
    when the plaintext has 32 bytes. *)
Theorem formatter_total (pt : bytes) :
  formatKeyMaterial pt = Returned (str "0x" ++ toHex pt) /\
  length (str "0x" ++ toHex pt) = (2 + 2 * length pt)%nat /\
  forallb is_lower_hex_digit (toHex pt) = true /\
  (length (str "0x" ++ toHex pt) = 66%nat <-> length pt = 32%nat).
Proof.
  split; [reflexivity|].
  rewrite length_app, length_toHex. cbn [str length map list_ascii_of_string].
  repeat split; try apply toHex_lower; lia.
Qed.

(** C6 as stated fails: a one-byte plaintext is formatted, not rejected. *)
Lemma formatter_accepts_short_input :
  length [xab] <> 32%nat /\ formatKeyMaterial [xab] = Returned (str "0xab").
Proof. split; [discriminate | reflexivity]. Qed.

(** ** Private-key normalisation *)

Lemma is_prefix_app (p s : jsstring) : is_prefix p (p ++ s) = true.
Proof.
  induction p as [|a p IH]; [reflexivity|].
  cbn [app is_prefix]. now rewrite N.eqb_refl, IH.
Qed.

Lemma is_prefix_inv (p s : jsstring) :
  is_prefix p s = true -> s = p ++ skipn (length p) s.
Proof.
  revert s. induction p as [|a p IH]; intros s H; [reflexivity|].
  destruct s as [|b s]; [discriminate|].
  cbn [is_prefix] in H. apply andb_true_iff in H. destruct H as [Hab Hp].
  apply N.eqb_eq in Hab. subst b. cbn [app length skipn]. f_equal. now apply IH.
Qed.

Lemma startsWith_0x (h : jsstring) : startsWith (str "0x" ++ h) (str "0x") = true.
Proof. apply is_prefix_app. Qed.

Lemma replace_prefix (p r s : jsstring) :
  startsWith s p = true -> replace p r s = r ++ skipn (length p) s.
Proof. intros H. destruct s; cbn [replace]; now rewrite H. Qed.

(** C10. On every input on which [decodeDoubleHexPrivateKey] returns, the
    result is [0x] followed by exactly 64 hexadecimal digits, and decoding
    the result again returns it unchanged. *)
Theorem decodeDoubleHex_idempotent (s r : jsstring) :
  decodeDoubleHexPrivateKey s = Returned r ->
  (exists h, r = str "0x" ++ h /\ test_hex 64 h = true) /\
  decodeDoubleHexPrivateKey r = Returned r.
Proof.
  intros H.
  assert (Hr : exists h, r = str "0x" ++ h /\ test_hex 64 h = true).
  { unfold decodeDoubleHexPrivateKey in H.
    set (cleanKey := if startsWith s (str "0x") then slice 2 s else s) in H.
    destruct (test_hex 64 cleanKey) eqn:E64.
    - exists cleanKey. split; congruence.
    - destruct (test_hex 128 cleanKey); [|discriminate].
      destruct (test_hex 64 (utf8Decode (fromHex cleanKey))) eqn:E; [|discriminate].
      exists (utf8Decode (fromHex cleanKey)). split; congruence. }
  split; [exact Hr|].
  destruct Hr as [h [-> Hh]].
  unfold decodeDoubleHexPrivateKey. rewrite startsWith_0x.
  change (slice 2 (str "0x" ++ h)) with h. now rewrite Hh.
Qed.

(** A double-encoded key: the hexadecimal encoding of 64 characters [f]. *)
Lemma decodeDoubleHex_idempotent_witness :
  (exists h, str "0x" ++ repeat 102 64 = str "0x" ++ h /\ test_hex 64 h = true) /\
  decodeDoubleHexPrivateKey (str "0x" ++ repeat 102 64)
  = Returned (str "0x" ++ repeat 102 64).
Proof.
  apply (@decodeDoubleHex_idempotent (toHex (repeat x66 64))). reflexivity.
Defined.

(** C9 as stated fails on [decodePrivateKey]: an input of none of the
    recognised shapes is cut down to its first 66 characters. *)
Lemma decodePrivateKey_truncates :
  ~ recognized_shape long_key /\
  decodePrivateKey long_key = Returned (str "0x" ++ repeat 102 64).
Proof.
  split; [|reflexivity].
  intros [H | [[h [E H]] | [H _]]].
  - vm_compute in H. discriminate.
  - unfold long_key in E. apply app_inv_head in E. subst h.
    vm_compute in H. discriminate.
  - vm_compute in H. discriminate.
Qed.

Lemma decodePrivateKey_cases (c : jsstring) :
  (if startsWith c (str "0x") && (length c =? 66)%nat then Returned c
   else if negb (startsWith c (str "0x")) && (length c =? 64)%nat then
     Returned (str "0x" ++ c)
   else if startsWith c (str "0x") && (66 <? length c)%nat then
     Returned (str "0x" ++ substring 2 66 c)
   else Thrown unknown_format) =
  (if startsWith c (str "0x") then
     if (length c <? 66)%nat then Thrown unknown_format
     else Returned (firstn 66 c)
   else
     if (length c =? 64)%nat then Returned (str "0x" ++ c)
     else Thrown unknown_format).
Proof.
  destruct (startsWith c (str "0x")) eqn:E0; cbn [andb negb]; [|reflexivity].
  apply is_prefix_inv in E0. cbn [str length map list_ascii_of_string skipn] in E0.
  destruct (Nat.eqb_spec (length c) 66) as [E66|N66].
  - destruct (Nat.ltb_spec (length c) 66); [lia|].
    f_equal. symmetry. apply firstn_all2. lia.
  - destruct (Nat.ltb_spec 66 (length c)); destruct (Nat.ltb_spec (length c) 66);
      try lia; try reflexivity.
    f_equal. unfold substring.
    destruct c as [|a [|b c']]; try discriminate.
    injection E0 as -> ->. reflexivity.
Qed.

(** C9, as the code has it. [decodeDoubleHexPrivateKey] never guesses: an
    input that is none of the recognised shapes (nor the double encoding
    behind a [0x] prefix) is rejected with a hard error.
    [decodePrivateKey] looks at the prefix and the length only: after an
    optional [PRIVATE_KEY=], a string that starts with [0x] is cut to its
    first 66 characters (rejected when shorter), any other string of 64
    characters gets [0x] in front, and everything else is rejected. *)
Theorem normalisation_strictness (s k : jsstring) :
  ~ recognized_shape s -> ~ prefixed_double_hex130 s ->
  decodeDoubleHexPrivateKey s = Thrown invalid_format /\
  decodePrivateKey k =
    let cleanKey := if startsWith k (str "PRIVATE_KEY=") then skipn 12 k else k in
    if startsWith cleanKey (str "0x") then
      if (length cleanKey <? 66)%nat then Thrown unknown_format
      else Returned (firstn 66 cleanKey)
    else
      if (length cleanKey =? 64)%nat then Returned (str "0x" ++ cleanKey)
      else Thrown unknown_format.
Proof.
  intros Hs Hd. split.
  - unfold decodeDoubleHexPrivateKey.
    destruct (startsWith s (str "0x")) eqn:E0.
    + apply is_prefix_inv in E0. change (skipn (length (str "0x")) s) with (slice 2 s) in E0.
      destruct (test_hex 64 (slice 2 s)) eqn:E64.
      { exfalso. apply Hs. right. left. now exists (slice 2 s). }
      destruct (test_hex 128 (slice 2 s)) eqn:E128; [|reflexivity].
      destruct (test_hex 64 (utf8Decode (fromHex (slice 2 s)))) eqn:E; [|reflexivity].
      exfalso. apply Hd. exists (slice 2 s). now repeat split.
    + destruct (test_hex 64 s) eqn:E64.
      { exfalso. apply Hs. now left. }
      destruct (test_hex 128 s) eqn:E128; [|reflexivity].
      destruct (test_hex 64 (utf8Decode (fromHex s))) eqn:E; [|reflexivity].
      exfalso. apply Hs. right. right. now split.
  - unfold decodePrivateKey.
    destruct (startsWith k (str "PRIVATE_KEY=")) eqn:E.
    + rewrite replace_prefix by assumption. apply decodePrivateKey_cases.
    + apply decodePrivateKey_cases.
Qed.

Lemma normalisation_strictness_witness :
  decodeDoubleHexPrivateKey (str "not a key") = Thrown invalid_format /\
  decodePrivateKey long_key =
    let cleanKey :=
      if startsWith long_key (str "PRIVATE_KEY=") then skipn 12 long_key else long_key in
    if startsWith cleanKey (str "0x") then
      if (length cleanKey <? 66)%nat then Thrown unknown_format
      else Returned (firstn 66 cleanKey)
    else
      if (length cleanKey =? 64)%nat then Returned (str "0x" ++ cleanKey)
      else Thrown unknown_format.
Proof.
  apply normalisation_strictness.
  - intros [H | [[h [E H]] | [H _]]]; vm_compute in H; discriminate.
  - intros [h [E _]]. vm_compute in E. discriminate.
Defined.

(** ** Running programs *)

Ltac run_call_as x :=
  cbn [run bind await await_all settle lift];
  match goal with
  | |- context [perform ?P ?c ?w] =>
      let e := fresh "e" in
      let w' := fresh "w" in
      destruct (perform P c w) as [[e | x] w']
  end;
  cbn [run bind await await_all settle lift fst snd].

Ltac run_call := let x := fresh "x" in run_call_as x.

(** After two rejections: which one settled first. *)
Ltac settle_race :=
  match goal with
  | |- context [perform ?P SettlesFirst ?w] =>
      let e := fresh "e" in
      let w' := fresh "w" in
      destruct (perform P SettlesFirst w) as [[e | [|]] w']
  end;
  cbn [run bind await await_all settle lift fst snd].

Ltac decode_buffer :=
  match goal with
  | |- context [base64ToBuffer ?s] =>
      let E := fresh "E" in destruct (base64ToBuffer s) eqn:E
  end;
  cbn [run bind await await_all settle lift fst snd].

Ltac run_answer H :=
  cbn [run bind await await_all settle lift];
  match goal with
  | |- context [perform ?P ?c ?w] =>
      let E := fresh "E" in
      let a := fresh "a" in
      let w' := fresh "w" in
      pose proof (H w) as E;
      unfold new_suite, import_pkcs8 in E;
      destruct (perform P c w) as [a w'];
      cbn [fst] in E; subst a
  end;
  cbn [run bind await await_all settle lift fst snd].

Section Engine.

Variable Ob : Objects.
Variable P : Platform Ob.

Lemma run_bind {A B : Type} (p : prog Ob A) (f : A -> prog Ob B) (w : World P) :
  run P (bind p f) w =
  let '(o, w1, t1) := run P p w in
  match o with
  | Returned a => let '(o2, w2, t2) := run P (f a) w1 in (o2, w2, t1 ++ t2)
  | Thrown e => (Thrown e, w1, t1)
  end.
Proof.
  revert w. induction p as [r | e | X c k IH]; intros w; cbn [bind run].
  - destruct (run P (f r) w) as [[o2 w2] t2]. reflexivity.
  - reflexivity.
  - destruct (perform P c w) as [a w1].
    rewrite IH. destruct (run P (k a) w1) as [[[r | e] w2] t1]; [|reflexivity].
    destruct (run P (f r) w2) as [[o2 w3] t2]. reflexivity.
Qed.

Lemma trace_of_bind {A B : Type} (p : prog Ob A) (f : A -> prog Ob B) (w : World P) :
  trace_of P (bind p f) w =
  trace_of P p w ++
  match result_of P p w with
  | Returned a => trace_of P (f a) (world_after P p w)
  | Thrown _ => []
  end.
Proof.
  unfold trace_of, result_of, world_after. rewrite run_bind.
  destruct (run P p w) as [[[a | e] w1] t1]; cbn [fst snd].
  - destruct (run P (f a) w1) as [[o2 w2] t2]. reflexivity.
  - now rewrite app_nil_r.
Qed.

(** C3. Whatever the inputs and the platform, the engine makes its calls
    in this order and with these parameters: one cipher suite, DHKEM(P-256,
    HKDF-SHA256) / HKDF-SHA256 / ChaCha20-Poly1305; the private key
    imported from PKCS8 as an ECDH P-256 key; the recipient context made
    from that suite, that key and the decoded encapsulated key; the decoded
    ciphertext opened in that context with no associated data. No other
    suite appears in any run. *)
Theorem engine_uses_fixed_suite (sk64 enc64 ct64 : jsstring) (w : World P) :
  engine_behaviour sk64 enc64 ct64
    (trace_of P (decryptHPKEMessage sk64 enc64 ct64) w)
    (result_of P (decryptHPKEMessage sk64 enc64 ct64) w) /\
  suites (trace_of P (decryptHPKEMessage sk64 enc64 ct64) w) = [fixed_suite].
Proof.
  unfold trace_of, result_of, decryptHPKEMessage.
  run_call. { split; [apply suite_fails | reflexivity]. }
  decode_buffer. 2:{ split; [now apply key_not_base64 | reflexivity]. }
  run_call. { split; [now apply import_fails | reflexivity]. }
  decode_buffer. 2:{ split; [now apply enc_not_base64 | reflexivity]. }
  run_call. { split; [now apply context_fails | reflexivity]. }
  decode_buffer. 2:{ split; [now apply ct_not_base64 | reflexivity]. }
  run_call. { split; [now apply open_fails | reflexivity]. }
  split; [now apply opened | reflexivity].
Qed.

Lemma decrypt_quiet (a b c : jsstring) (w : World P) :
  quiet (trace_of P (decryptHPKEMessage a b c) w).
Proof.
  unfold trace_of, decryptHPKEMessage, quiet.
  run_call. { now repeat split. }
  decode_buffer. 2:{ now repeat split. }
  run_call. { now repeat split. }
  decode_buffer. 2:{ now repeat split. }
  run_call. { now repeat split. }
  decode_buffer. 2:{ now repeat split. }
  run_call. { now repeat split. }
  now repeat split.
Qed.

Lemma decrypt_opens (sk enc ct pt : bytes) suite key rc (w : World P) :
  answers P new_suite suite ->
  answers P (import_pkcs8 sk) key ->
  answers P (CreateRecipientContext suite key enc) rc ->
  answers P (Open rc ct None) pt ->
  result_of P (decryptHPKEMessage (toBase64 sk) (toBase64 enc) (toBase64 ct)) w
  = Returned (str "0x" ++ toHex pt).
Proof.
  intros Hs Hk Hc Ho. unfold result_of, decryptHPKEMessage.
  run_answer Hs. rewrite base64ToBuffer_toBase64.
  run_answer Hk. rewrite base64ToBuffer_toBase64.
  run_answer Hc. rewrite base64ToBuffer_toBase64.
  run_answer Ho. reflexivity.
Qed.

Lemma decrypt_context_fails (sk enc ct : bytes) suite key e (w : World P) :
  answers P new_suite suite ->
  answers P (import_pkcs8 sk) key ->
  fails P (CreateRecipientContext suite key enc) e ->
  result_of P (decryptHPKEMessage (toBase64 sk) (toBase64 enc) (toBase64 ct)) w
  = Thrown e.
Proof.
  intros Hs Hk Hc. unfold result_of, decryptHPKEMessage.
  run_answer Hs. rewrite base64ToBuffer_toBase64.
  run_answer Hk. rewrite base64ToBuffer_toBase64.
  run_answer Hc. reflexivity.
Qed.

Lemma decrypt_open_fails (sk enc ct : bytes) suite key rc e (w : World P) :
  answers P new_suite suite ->
  answers P (import_pkcs8 sk) key ->
  answers P (CreateRecipientContext suite key enc) rc ->
  fails P (Open rc ct None) e ->
  result_of P (decryptHPKEMessage (toBase64 sk) (toBase64 enc) (toBase64 ct)) w
  = Thrown e.
Proof.
  intros Hs Hk Hc Ho. unfold result_of, decryptHPKEMessage.
  run_answer Hs. rewrite base64ToBuffer_toBase64.
  run_answer Hk. rewrite base64ToBuffer_toBase64.
  run_answer Hc. rewrite base64ToBuffer_toBase64.
  run_answer Ho. reflexivity.
Qed.

Variable ref : Reference.

(** What the code adds to the round trip of the HPKE package. On a platform
    whose package opens what the reference sender seals under the fixed
    suite, [decryptHPKEMessage] applied to the base64 encodings of the
    private key, the encapsulated key and the ciphertext of a valid triple
    returns exactly [0x] followed by the hexadecimal encoding of the whole
    plaintext. The hypothesis is the package's own law: it is assumed here,
    not proved. *)
Theorem hpke_round_trip (sk enc ct pt : bytes) (w : World P) :
  decrypts_reference P ref ->
  valid_triple ref sk enc ct pt ->
  result_of P (decryptHPKEMessage (toBase64 sk) (toBase64 enc) (toBase64 ct)) w
  = Returned (str "0x" ++ toHex pt).
Proof.
  intros Hlib Hvalid.
  destruct (Hlib sk enc ct pt Hvalid) as (suite & key & rc & Hs & Hk & Hc & Ho).
  now apply decrypt_opens with suite key rc.
Qed.

(** What the code adds to the authenticity of the HPKE package, taken
    idealised. On a platform whose package rejects a sealed message with one
    byte changed, [decryptHPKEMessage] applied to a valid triple with one
    byte of the ciphertext or of the encapsulated key flipped throws the
    package's error: it returns no string at all. The hypothesis is assumed,
    not proved; a real cipher meets it up to a negligible probability
    only. *)
Theorem tampering_is_rejected (sk enc ct pt enc' ct' : bytes) (w : World P) :
  rejects_tampering P ref ->
  valid_triple ref sk enc ct pt ->
  tampered enc ct enc' ct' ->
  exists e,
    result_of P (decryptHPKEMessage (toBase64 sk) (toBase64 enc') (toBase64 ct')) w
    = Thrown e /\
    DecryptionFailure e.
Proof.
  intros Hlib Hvalid Htamper.
  destruct (Hlib sk enc ct pt enc' ct' Hvalid Htamper)
    as (suite & key & Hs & Hk & [[k Hc] | (rc & k & Hc & Ho)]).
  - exists (HpkeError k). split; [|now exists k].
    now apply decrypt_context_fails with suite key.
  - exists (HpkeError k). split; [|now exists k].
    now apply decrypt_open_fails with suite key rc.
Qed.

End Engine.

(** ** The export pipeline *)

Section ExportPipeline.

Variable Ob : Objects.
Variable P : Platform Ob.

(** C4. When one of the four configuration values is missing (undefined
    or empty), [main] throws its configuration error before any call to the
    platform is made: the trace is empty, so nothing reached the network,
    and the state of the platform is unchanged. *)
Theorem missing_configuration_fails_before_network (env : Env) (w : World P) :
  falsy (PRIVY_APP_ID env) = true \/
  falsy (PRIVY_APP_SECRET env) = true \/
  falsy (PRIVY_AUTHORIZATION_PUBLIC_KEY env) = true \/
  falsy (PRIVY_AUTHORIZATION_PRIVATE_KEY env) = true ->
  run P (main env) w = (Thrown missing_variables, w, []) /\
  existsb (@is_network_call Ob) (trace_of P (main env) w) = false.
Proof.
  intros H.
  assert (E : main env = Throw (Ob := Ob) missing_variables).
  { unfold main.
    destruct H as [H | [H | [H | H]]]; rewrite H;
      rewrite ?orb_true_r; reflexivity. }
  unfold trace_of. rewrite E. split; reflexivity.
Qed.

Ltac tail_is_quiet sk exportData Q :=
  match goal with
  | |- context [run P ?p ?w] =>
      pose proof (decrypt_quiet P (toBase64 sk) (encapsulated_key exportData)
                    (ciphertext exportData) w) as Q;
      unfold trace_of, quiet in Q; destruct (run P p w) as [[?o ?w] ?t]
  end;
  cbn [snd] in Q.


Lemma export_single (appId appSecret walletId authKey : jsstring) (w : World P) :
  let t := trace_of P (exportWalletPrivateKey appId appSecret walletId authKey) w in
  (fetch_requests t = [] /\
   exists e, result_of P (exportWalletPrivateKey appId appSecret walletId authKey) w
             = Thrown e) \/
  (exists kp pk sig,
     key_generations t = [(ecdh_p256, true, [DeriveKey; DeriveBits])] /\
     generated_keypairs t = [kp] /\
     spki_exports t = [(publicKey kp, pk)] /\
     signature_inputs t = [signatureInput appId walletId (toBase64 pk)] /\
     fetch_requests t =
       [export_request appId appSecret walletId
          (signatureInput appId walletId (toBase64 pk)) sig]).
Proof.
  unfold trace_of, result_of, exportWalletPrivateKey.
  run_call_as keypair. { left. split; [reflexivity | now eexists]. }
  run_call_as pk; run_call_as sk; try settle_race;
    try (left; split; [reflexivity | now eexists]).
  run_call_as signature. { left. split; [reflexivity | now eexists]. }
  destruct signature as [[|c sig]|]; cbn [run bind await lift fst snd];
    try (left; split; [reflexivity | now eexists]).
  right. exists keypair, pk, (c :: sig).
  run_call_as response. { now repeat split. }
  destruct (ok response) eqn:Eok; cbn [negb run bind await settle lift fst snd].
  - run_call_as exportData. { now repeat split. }
    tail_is_quiet sk exportData Q.
    destruct Q as (Q1 & Q2 & Q3 & Q4 & Q5 & Q6).
    cbn [fst snd flat_map app
         generated_keypairs generated_keypair_of spki_exports spki_export_of
         signature_inputs signature_input_of fetch_requests fetch_request_of
         key_generations key_generation_of e_call].
    match goal with
    | H : fetch_requests ?t = [] |- _ =>
        fold (generated_keypairs t); fold (spki_exports t);
        fold (signature_inputs t); fold (fetch_requests t);
        fold (key_generations t)
    end.
    rewrite Q1, Q3, Q4, Q5, Q6. now repeat split.
  - now repeat split.
Qed.

Lemma fetch_requests_app (a b : trace Ob) :
  fetch_requests (a ++ b) = fetch_requests a ++ fetch_requests b.
Proof. apply flat_map_app. Qed.

Lemma spki_exports_app (a b : trace Ob) :
  spki_exports (a ++ b) = spki_exports a ++ spki_exports b.
Proof. apply flat_map_app. Qed.

Lemma generated_keypairs_app (a b : trace Ob) :
  generated_keypairs (a ++ b) = generated_keypairs a ++ generated_keypairs b.
Proof. apply flat_map_app. Qed.

Lemma signature_inputs_app (a b : trace Ob) :
  signature_inputs (a ++ b) = signature_inputs a ++ signature_inputs b.
Proof. apply flat_map_app. Qed.

Lemma key_generations_app (a b : trace Ob) :
  key_generations (a ++ b) = key_generations a ++ key_generations b.
Proof. apply flat_map_app. Qed.

End ExportPipeline.

(** ** Successive exports *)

Lemma json_units_plain (s : jsstring) : Forall plain s -> json_units s = s.
Proof.
  induction 1 as [|c s (Hh & Hl & Hc) _ IH]; [reflexivity|].
  cbn [json_units]. now rewrite Hh, Hl, Hc, IH.
Qed.

Lemma b64_char_plain (i : N) : plain (b64_char i).
Proof.
  unfold plain, json_escape, b64_char, is_high_surrogate, is_low_surrogate,
    dquote, backslash.
  repeat split; cases_on_tests; cbn [andb orb]; try reflexivity; lia.
Qed.

Lemma pad_plain : plain pad.
Proof. repeat split. Qed.

Lemma json_string_toBase64 (b : bytes) :
  json_string (toBase64 b) = dquote :: toBase64 b ++ [dquote].
Proof.
  unfold json_string. do 2 f_equal. apply json_units_plain.
  rewrite toBase64_sextets. apply Forall_app. split.
  - apply Forall_map, Forall_forall. intros i _. apply b64_char_plain.
  - destruct (padding_of_cases b) as [E | [E | E]]; rewrite E;
      repeat constructor.
Qed.

Lemma stringify_body_injective (pk1 pk2 : bytes) :
  stringify_body (export_body (toBase64 pk1)) =
  stringify_body (export_body (toBase64 pk2)) ->
  pk1 = pk2.
Proof.
  unfold stringify_body, export_body. cbn [encryption_type recipient_public_key].
  intros E. do 7 apply app_inv_head in E. apply app_inv_tail in E.
  rewrite !json_string_toBase64 in E. injection E as E.
  apply app_inv_tail in E. now apply toBase64_injective.
Qed.

Section Successive.

Variable Ob : Objects.
Variable P : Platform Ob.

(** Two successive exports for the same wallet, both reaching the custody
    endpoint: each call asked the platform for its own extractable ECDH
    P-256 key pair and exported that pair's public key; each signature was
    requested over the call's own input, and each request carries the
    call's own public key. Provided the platform's generator did not hand
    out the same public key twice, the recipient keys sent, the two
    requests and the two signed inputs differ. That proviso is the
    generator's matter: it is assumed here, not proved. *)
Theorem successive_exports_use_fresh_keys
    (appId appSecret walletId authKey : jsstring) (w : World P) (r1 r2 : Request) :
  let export := exportWalletPrivateKey (Ob := Ob) appId appSecret walletId authKey in
  let t := trace_of P (bind export (fun _ => export)) w in
  fetch_requests t = [r1; r2] ->
  NoDup (map snd (spki_exports t)) ->
  exists kp1 kp2 pk1 pk2,
    key_generations t =
      [(ecdh_p256, true, [DeriveKey; DeriveBits]);
       (ecdh_p256, true, [DeriveKey; DeriveBits])] /\
    generated_keypairs t = [kp1; kp2] /\
    spki_exports t = [(publicKey kp1, pk1); (publicKey kp2, pk2)] /\
    signature_inputs t =
      [signatureInput appId walletId (toBase64 pk1);
       signatureInput appId walletId (toBase64 pk2)] /\
    req_body r1 = stringify_body (export_body (toBase64 pk1)) /\
    req_body r2 = stringify_body (export_body (toBase64 pk2)) /\
    toBase64 pk1 <> toBase64 pk2 /\
    req_body r1 <> req_body r2 /\
    signatureInput appId walletId (toBase64 pk1) <>
    signatureInput appId walletId (toBase64 pk2).
Proof.
  intros export t. subst t. rewrite trace_of_bind.
  rewrite fetch_requests_app, spki_exports_app, generated_keypairs_app,
    signature_inputs_app, key_generations_app.
  destruct (export_single P appId appSecret walletId authKey w)
    as [[F1 [e E1]] | (kp1 & pk1 & sig1 & K1 & G1 & S1 & I1 & F1)].
  { fold export in F1, E1. rewrite F1, E1. discriminate. }
  fold export in K1, G1, S1, I1, F1. rewrite K1, G1, S1, I1, F1.
  destruct (result_of P export w) as [a | e]; [|discriminate].
  destruct (export_single P appId appSecret walletId authKey (world_after P export w))
    as [[F2 _] | (kp2 & pk2 & sig2 & K2 & G2 & S2 & I2 & F2)].
  { fold export in F2. rewrite F2. discriminate. }
  fold export in K2, G2, S2, I2, F2. rewrite K2, G2, S2, I2, F2.
  cbn [app map snd]. intros E Hfresh. injection E as <- <-.
  assert (Hpk : pk1 <> pk2).
  { intros ->. inversion Hfresh as [|? ? Hin _]. apply Hin. now left. }
  exists kp1, kp2, pk1, pk2. repeat split; try assumption.
  - intros E. now apply Hpk, toBase64_injective.
  - cbn [req_body export_request]. intros E.
    now apply Hpk, stringify_body_injective.
  - intros E. apply Hpk, toBase64_injective.
    now apply (f_equal (fun i => recipient_public_key (si_body i))) in E.
Qed.

End Successive.

(** ** The test platform meets the contract *)

Lemma flip_at_split (i : nat) (y : byte) (l l' : bytes) :
  flip_at i y l = Some l' ->
  exists pre x post, l = pre ++ x :: post /\ l' = pre ++ y :: post /\ x <> y.
Proof.
  unfold flip_at. intros H.
  destruct (nth_error l i) as [x|] eqn:E; [|discriminate].
  destruct (Byte.eqb x y) eqn:Exy; [discriminate|].
  apply Byte.eqb_false in Exy.
  apply nth_error_split in E. destruct E as (pre & post & -> & <-).
  assert (F : firstn (length pre) (pre ++ x :: post) = pre).
  { rewrite firstn_app, firstn_all, Nat.sub_diag. cbn [firstn]. apply app_nil_r. }
  assert (S : skipn (S (length pre)) (pre ++ x :: post) = post).
  { rewrite skipn_app, skipn_all2 by lia.
    replace (S (length pre) - length pre)%nat with 1%nat by lia. reflexivity. }
  rewrite F, S in H. injection H as <-.
  exists pre, x, post. now repeat split.
Qed.

Module MockFacts.
Import Mock.

Lemma total_app (a b : bytes) : total (a ++ b) = total a + total b.
Proof.
  unfold total. induction a as [|x a IH]; cbn [app fold_right]; [reflexivity|].
  rewrite IH. lia.
Qed.

Lemma checksum_flip (a pre post b : bytes) (x y : byte) :
  x <> y ->
  checksum (a ++ (pre ++ x :: post) ++ b) <> checksum (a ++ (pre ++ y :: post) ++ b).
Proof.
  intros Hxy E. apply (f_equal Byte.to_N) in E.
  unfold checksum in E. rewrite !to_N_byte_of_N_mod in E.
  rewrite !total_app in E.
  change (total (x :: post)) with (Byte.to_N x + total post) in E.
  change (total (y :: post)) with (Byte.to_N y + total post) in E.
  assert (Byte.to_N x <> Byte.to_N y).
  { intros F. apply Hxy. rewrite <- (byte_of_to_N x), <- (byte_of_to_N y). now f_equal. }
  pose proof (to_N_lt x). pose proof (to_N_lt y).
  lia.
Qed.

Lemma mock_open_sealed (sk seed pt : bytes) :
  mock_open sk seed (pt ++ [checksum (sk ++ seed ++ pt)]) = inr pt.
Proof.
  unfold mock_open. rewrite rev_app_distr. cbn [rev app].
  now rewrite rev_involutive, eqb_byte_refl.
Qed.

Lemma mock_open_bad_tag (sk seed body : bytes) (t : byte) :
  t <> checksum (sk ++ seed ++ body) ->
  mock_open sk seed (body ++ [t]) = inl (HpkeError OpenError).
Proof.
  intros H. unfold mock_open. rewrite rev_app_distr. cbn [rev app].
  now rewrite rev_involutive, eqb_byte_neq.
Qed.

Lemma mock_decrypts_reference : decrypts_reference platform reference.
Proof.
  intros sk enc ct pt (pk & seed & Hpk & Hseal).
  cbn in Hpk. injection Hpk as <-.
  cbn [reference seal mock_seal] in Hseal. injection Hseal as <- <-.
  exists (DhkemP256HkdfSha256, HkdfSha256, Chacha20Poly1305), sk, (sk, seed).
  repeat split; intros w; cbn [platform perform mock_perform fst snd];
    try reflexivity.
  apply mock_open_sealed.
Qed.

Lemma mock_rejects_tampering : rejects_tampering platform reference.
Proof.
  intros sk enc ct pt enc' ct' (pk & seed & Hpk & Hseal) (i & y & Hflip).
  cbn in Hpk. injection Hpk as <-.
  cbn [reference seal mock_seal] in Hseal. injection Hseal as <- <-.
  exists (DhkemP256HkdfSha256, HkdfSha256, Chacha20Poly1305), sk.
  split; [intros w; reflexivity|]. split; [intros w; reflexivity|].
  right. exists (sk, enc'), OpenError.
  split; [intros w; reflexivity|].
  intros w. cbn [platform perform mock_perform fst snd].
  destruct Hflip as [[Hf ->] | [-> Hf]];
    apply flip_at_split in Hf; destruct Hf as (pre & x & post & E & -> & Hxy).
  - subst seed. apply mock_open_bad_tag. now apply checksum_flip.
  - destruct (rev post) as [|z rpost] eqn:Epost.
    + apply (f_equal (@rev byte)) in Epost. rewrite rev_involutive in Epost.
      cbn [rev] in Epost. subst post.
      apply app_inj_tail in E. destruct E as [-> <-].
      apply mock_open_bad_tag. congruence.
    + apply (f_equal (@rev byte)) in Epost. rewrite rev_involutive in Epost.
      cbn [rev] in Epost. subst post.
      change (pre ++ x :: rev rpost ++ [z]) with (pre ++ (x :: rev rpost) ++ [z]) in E.
      rewrite (app_assoc pre (x :: rev rpost) [z]) in E.
      apply app_inj_tail in E. destruct E as [-> <-].
      change (pre ++ y :: rev rpost ++ [checksum (sk ++ seed ++ pre ++ x :: rev rpost)])
        with (pre ++ (y :: rev rpost) ++ [checksum (sk ++ seed ++ pre ++ x :: rev rpost)]).
      rewrite (app_assoc pre (y :: rev rpost)). apply mock_open_bad_tag.
      pose proof (@checksum_flip (sk ++ seed) pre (rev rpost) [] x y Hxy) as C.
      rewrite !app_nil_r, <- !app_assoc in C. exact C.
Qed.

End MockFacts.

(** ** Runs on the test platform *)

Lemma hpke_round_trip_witness :
  result_of Mock.platform
    (decryptHPKEMessage (toBase64 Mock.sk) (toBase64 Mock.seed) (toBase64 Mock.sealed))
    (Mock.world0 200)
  = Returned (str "0x" ++ toHex Mock.plaintext).
Proof.
  apply (@hpke_round_trip Mock.objects Mock.platform Mock.reference
           Mock.sk Mock.seed Mock.sealed Mock.plaintext (Mock.world0 200)).
  - exact MockFacts.mock_decrypts_reference.
  - exists Mock.sk, Mock.seed. split; reflexivity.
Defined.

Lemma tampering_is_rejected_witness :
  exists e,
    result_of Mock.platform
      (decryptHPKEMessage (toBase64 Mock.sk) (toBase64 Mock.seed)
         (toBase64 Mock.sealed_flipped))
      (Mock.world0 200)
    = Thrown e /\
    DecryptionFailure e.
Proof.
  apply (@tampering_is_rejected Mock.objects Mock.platform Mock.reference
           Mock.sk Mock.seed Mock.sealed Mock.plaintext
           Mock.seed Mock.sealed_flipped (Mock.world0 200)).
  - exact MockFacts.mock_rejects_tampering.
  - exists Mock.sk, Mock.seed. split; reflexivity.
  - exists 1%nat, x00. right. split; reflexivity.
Defined.

Lemma missing_configuration_witness :
  run Mock.platform (main Mock.incomplete_env) (Mock.world0 200)
  = (Thrown missing_variables, Mock.world0 200, []) /\
  existsb (@is_network_call Mock.objects)
    (trace_of Mock.platform (main Mock.incomplete_env) (Mock.world0 200)) = false.
Proof.
  apply (@missing_configuration_fails_before_network Mock.objects Mock.platform
           Mock.incomplete_env (Mock.world0 200)).
  right. left. reflexivity.
Defined.



Lemma successive_exports_witness :
  let t := trace_of Mock.platform (bind Mock.export (fun _ => Mock.export))
             (Mock.world0 200) in
  exists kp1 kp2 pk1 pk2,
    key_generations t =
      [(ecdh_p256, true, [DeriveKey; DeriveBits]);
       (ecdh_p256, true, [DeriveKey; DeriveBits])] /\
    generated_keypairs t = [kp1; kp2] /\
    spki_exports t = [(publicKey kp1, pk1); (publicKey kp2, pk2)] /\
    signature_inputs t =
      [signatureInput (str "app") (str "w_123") (toBase64 pk1);
       signatureInput (str "app") (str "w_123") (toBase64 pk2)] /\
    req_body (Mock.request 0) = stringify_body (export_body (toBase64 pk1)) /\
    req_body (Mock.request 1) = stringify_body (export_body (toBase64 pk2)) /\
    toBase64 pk1 <> toBase64 pk2 /\
    req_body (Mock.request 0) <> req_body (Mock.request 1) /\
    signatureInput (str "app") (str "w_123") (toBase64 pk1) <>
    signatureInput (str "app") (str "w_123") (toBase64 pk2).
Proof.
  apply (@successive_exports_use_fresh_keys Mock.objects Mock.platform
           (str "app") (str "secret") (str "w_123") (str "authkey")
           (Mock.world0 200) (Mock.request 0) (Mock.request 1)).
  - reflexivity.
  - vm_compute. constructor.
    + intros [H | []]. discriminate.
    + constructor; [intros [] | constructor].
Defined.

(** ** The double encoding of a key is decoded *)

Lemma hex_value_digit (n : N) : n < 16 -> hex_value (hex_digit n) = Some n.
Proof.
  intros Hn. unfold hex_value, hex_digit.
  cases_on_tests; cbn [andb]; try (f_equal; lia); lia.
Qed.

Lemma fromHex_toHex (b : bytes) : fromHex (toHex b) = b.
Proof.
  induction b as [|x b IH]; [reflexivity|].
  cbn [toHex flat_map app fromHex]. pose proof (to_N_lt x).
  rewrite !hex_value_digit by lia. fold (toHex b). rewrite IH. f_equal.
  rewrite <- (byte_of_to_N x) at 3. f_equal. lia.
Qed.

Lemma toHex_all_hex (b : bytes) : forallb is_hex_digit (toHex b) = true.
Proof.
  induction b as [|x b IH]; [reflexivity|].
  cbn [toHex flat_map app forallb]. fold (toHex b). rewrite IH.
  pose proof (to_N_lt x). unfold is_hex_digit.
  rewrite !hex_value_digit by lia. reflexivity.
Qed.

Lemma utf8_run_ascii (s : jsstring) :
  Forall (fun c => c <= 127) s -> utf8_run None s = s.
Proof.
  induction 1 as [|c s Hc _ IH]; [reflexivity|].
  cbn [utf8_run]. unfold utf8_lead.
  destruct (N.leb_spec c 127); [|lia]. now rewrite IH.
Qed.

Lemma hex_digits_are_ascii (h : jsstring) :
  forallb is_hex_digit h = true -> Forall (fun c => c <= 127) h.
Proof.
  induction h as [|c h IH]; intros H; [constructor|].
  cbn [forallb] in H. apply andb_true_iff in H. destruct H as [Hc Hh].
  constructor; [|now apply IH].
  unfold is_hex_digit, hex_value in Hc. cases_on_tests; cbn [andb] in Hc;
    try discriminate; lia.
Qed.

Lemma utf8Decode_ascii (h : jsstring) :
  Forall (fun c => c <= 127) h -> utf8Decode (map byte_of_N h) = h.
Proof.
  intros H. unfold utf8Decode. rewrite map_map.
  assert (E : map (fun c => Byte.to_N (byte_of_N c)) h = h).
  { induction H as [|c h Hc _ IH]; [reflexivity|].
    cbn [map]. rewrite IH, to_N_byte_of_N_mod. f_equal.
    apply N.mod_small. lia. }
  rewrite E. now apply utf8_run_ascii.
Qed.

Lemma startsWith_0x_not_hex (s : jsstring) :
  startsWith s (str "0x") = true -> forallb is_hex_digit s = false.
Proof.
  intros H. apply is_prefix_inv in H. rewrite H.
  cbn [str map list_ascii_of_string app forallb]. now rewrite andb_false_r.
Qed.

(** Every key of 64 hexadecimal digits, encoded a second time (the
    hexadecimal digits of its characters), is recovered. *)
Lemma double_encoding_is_decoded (h : jsstring) :
  test_hex 64 h = true ->
  decodeDoubleHexPrivateKey (toHex (map byte_of_N h)) = Returned (str "0x" ++ h).
Proof.
  intros H. unfold test_hex in H. apply andb_true_iff in H.
  destruct H as [Hlen Hhex]. apply Nat.eqb_eq in Hlen.
  unfold decodeDoubleHexPrivateKey.
  destruct (startsWith (toHex (map byte_of_N h)) (str "0x")) eqn:E0.
  { apply startsWith_0x_not_hex in E0. now rewrite toHex_all_hex in E0. }
  assert (L : length (toHex (map byte_of_N h)) = 128%nat).
  { rewrite length_toHex, length_map, Hlen. reflexivity. }
  unfold test_hex at 1. rewrite L. cbn [Nat.eqb andb].
  unfold test_hex at 1. rewrite L, toHex_all_hex. cbn [Nat.eqb andb].
  rewrite fromHex_toHex, utf8Decode_ascii by now apply hex_digits_are_ascii.
  unfold test_hex. now rewrite Hlen, Nat.eqb_refl, Hhex.
Qed.

(** ** Sample evaluations *)

Example toBase64_hello :
  toBase64 (map byte_of_N (str "hello")) = str "aGVsbG8=".
Proof. reflexivity. Qed.

Example atob_without_padding : atob (str "aGVsbG8") = Returned (str "hello").
Proof. reflexivity. Qed.

Example atob_skips_whitespace : atob (str "aGVs bG8= ") = Returned (str "hello").
Proof. reflexivity. Qed.

Example atob_rejects_bad_length : atob (str "aGVsbG8==") = Thrown InvalidCharacterError.
Proof. reflexivity. Qed.

Example atob_rejects_url_alphabet : atob (str "a-b_") = Thrown InvalidCharacterError.
Proof. reflexivity. Qed.

(** At the level of the base64 text the decoder is forgiving: the bits
    beyond the last byte are dropped. *)
Example atob_drops_surplus_bits : atob (str "QR==") = atob (str "QQ==").
Proof. reflexivity. Qed.

Example toHex_sample : toHex [x00; xab; xff] = str "00abff".
Proof. reflexivity. Qed.

Example fromHex_stops_at_first_bad_pair : fromHex (str "6162zz63") = [x61; x62].
Proof. reflexivity. Qed.

Example utf8Decode_sample :
  utf8Decode [x61; xc3; xa9; xe2; x82; xac; xf0; x9f; x98; x80; xff; xe0; x80; x41]
  = [97; 233; 8364; 55357; 56832; 65533; 65533; 65533; 65].
Proof. reflexivity. Qed.

Example utf8Encode_sample :
  utf8Encode [97; 233; 8364; 55357; 56832; 55357]
  = [x61; xc3; xa9; xe2; x82; xac; xf0; x9f; x98; x80; xef; xbf; xbd].
Proof. reflexivity. Qed.

Example decodePrivateKey_env_line :
  decodePrivateKey (str "PRIVATE_KEY=" ++ repeat 97 64)
  = Returned (str "0x" ++ repeat 97 64).
Proof. reflexivity. Qed.

Example decodePrivateKey_keeps_non_hex :
  decodePrivateKey (str "0x" ++ repeat 122 64) = Returned (str "0x" ++ repeat 122 64).
Proof. reflexivity. Qed.

Example decodePrivateKey_short : decodePrivateKey (str "0xabc") = Thrown unknown_format.
Proof. reflexivity. Qed.

Example decodeDoubleHex_rejects_non_hex :
  decodeDoubleHexPrivateKey (str "0x" ++ repeat 122 64) = Thrown invalid_format.
Proof. reflexivity. Qed.

Example decodeDoubleHex_prefixed_double :
  decodeDoubleHexPrivateKey (str "0x" ++ toHex (repeat x41 64))
  = Returned (str "0x" ++ repeat 65 64).
Proof. reflexivity. Qed.

Example stringify_body_sample :
  stringify_body (export_body (str "AQ=="))
  = str "{" ++ [dquote] ++ str "encryption_type" ++ [dquote] ++ str ":"
      ++ [dquote] ++ str "HPKE" ++ [dquote] ++ str ","
      ++ [dquote] ++ str "recipient_public_key" ++ [dquote] ++ str ":"
      ++ [dquote] ++ str "AQ==" ++ [dquote] ++ str "}".
Proof. reflexivity. Qed.

Example mock_export_succeeds :
  result_of Mock.platform Mock.export (Mock.world0 200)
  = Returned (str "0x" ++ toHex (Mock.custody_secret (Mock.world0 200))).
Proof. reflexivity. Qed.

Example mock_main_trace_length :
  length (trace_of Mock.platform
            (main {| PRIVY_APP_ID := Some (str "app");
                     PRIVY_APP_SECRET := Some (str "secret");
                     PRIVY_AUTHORIZATION_PUBLIC_KEY := Some (str "key-id");
                     PRIVY_AUTHORIZATION_PRIVATE_KEY := Some (str "authkey") |})
            (Mock.world0 200))
  = (2 + 20 * 10)%nat.
Proof. vm_compute. reflexivity. Qed.

(** * Further properties of the export pipeline *)

(** ** Base64 text *)

(** X1. [base64ToBuffer] undoes [Buffer.toString('base64')]: every byte
    buffer is recovered from its base64 text, so two buffers with the same
    text are equal. *)
Theorem base64_text_round_trip (b : bytes) :
  base64ToBuffer (toBase64 b) = Returned b /\
  (forall a, toBase64 a = toBase64 b -> a = b).
Proof.
  split; [apply base64ToBuffer_toBase64 | intros a; apply toBase64_injective].
Qed.

Lemma strip_padding_keeps (c : N) (d : jsstring) :
  c <> pad -> In c d -> In c (strip_padding d).
Proof.
  intros Hc Hin. unfold strip_padding.
  assert (Hrev : In c (rev d)) by now apply in_rev in Hin.
  destruct (rev d) as [|a [|b r]] eqn:E; [assumption | |].
  - destruct (N.eqb_spec a pad); [|assumption].
    destruct Hrev as [-> | []]. contradiction.
  - destruct (N.eqb_spec a pad) as [Ea|Na]; cbn [andb].
    + assert (Hbr : In c (b :: r)).
      { destruct Hrev as [<- | H]; [contradiction | exact H]. }
      destruct (N.eqb_spec b pad) as [Eb|Nb].
      * apply in_rev. rewrite rev_involutive.
        destruct Hbr as [<- | H]; [contradiction | exact H].
      * apply in_rev. now rewrite rev_involutive.
    + assumption.
Qed.

Lemma b64_indices_bad (c : N) (d : jsstring) :
  In c d -> b64_index c = None -> b64_indices d = None.
Proof.
  induction d as [|x d IH]; intros Hin Hc; [destruct Hin|].
  cbn [b64_indices]. destruct Hin as [-> | Hin].
  - now rewrite Hc.
  - destruct (b64_index x); [|reflexivity]. now rewrite IH.
Qed.

Lemma atob_rejects (data : jsstring) :
  malformed_base64 data -> atob data = Thrown InvalidCharacterError.
Proof.
  intros (c & Hin & Hbad). unfold not_base64 in Hbad.
  apply andb_true_iff in Hbad. destruct Hbad as [Hbad Hidx].
  apply andb_true_iff in Hbad. destruct Hbad as [Hws Hpad].
  apply negb_true_iff in Hpad. apply N.eqb_neq in Hpad.
  destruct (b64_index c) eqn:Ec; [discriminate|].
  unfold atob, forgiving_base64_decode.
  set (d := filter (fun c0 => negb (is_ascii_whitespace c0)) data).
  assert (Hd : In c d) by (apply filter_In; now split).
  set (d' := if (length d mod 4 =? 0)%nat then strip_padding d else d).
  assert (Hd' : In c d').
  { unfold d'. destruct (length d mod 4 =? 0)%nat; [|assumption].
    now apply strip_padding_keeps. }
  destruct (length d' mod 4 =? 1)%nat; [reflexivity|].
  now rewrite (b64_indices_bad c d').
Qed.

Lemma base64ToBuffer_rejects (data : jsstring) :
  malformed_base64 data -> base64ToBuffer data = Thrown InvalidCharacterError.
Proof. intros H. unfold base64ToBuffer. now rewrite atob_rejects. Qed.

Section DecryptionEdges.

Variable Ob : Objects.
Variable P : Platform Ob.

(** X2. A text with a character outside the base64 alphabet (the URL-safe
    alphabet, say) makes [decryptHPKEMessage] throw: whichever of its three
    inputs is malformed, nothing is opened, and when it is the private key
    nothing is imported either. *)
Theorem decrypt_rejects_malformed_base64 (sk64 enc64 ct64 : jsstring) (w : World P) :
  malformed_base64 sk64 \/ malformed_base64 enc64 \/ malformed_base64 ct64 ->
  let t := trace_of P (decryptHPKEMessage sk64 enc64 ct64) w in
  (exists e, result_of P (decryptHPKEMessage sk64 enc64 ct64) w = Thrown e) /\
  openings t = [] /\
  (malformed_base64 sk64 -> imported_keys t = []).
Proof.
  intros H. unfold trace_of, result_of, decryptHPKEMessage.
  run_call. { repeat split; eauto. }
  decode_buffer. 2:{ repeat split; eauto. }
  run_call.
  { repeat split; eauto. intros M. apply base64ToBuffer_rejects in M. congruence. }
  decode_buffer.
  2:{ repeat split; eauto. intros M. apply base64ToBuffer_rejects in M. congruence. }
  run_call.
  { repeat split; eauto. intros M. apply base64ToBuffer_rejects in M. congruence. }
  decode_buffer.
  2:{ repeat split; eauto. intros M. apply base64ToBuffer_rejects in M. congruence. }
  exfalso. destruct H as [M | [M | M]]; apply base64ToBuffer_rejects in M; congruence.
Qed.

(** X3. [decryptHPKEMessage] is all or nothing: when it returns, exactly
    four calls were made and all succeeded, the last one opened the decoded
    ciphertext, and the result is [0x] followed by the lowercase
    hexadecimal digits of the whole plaintext that call answered. *)
Theorem decrypt_returns_what_was_opened
    (sk64 enc64 ct64 r : jsstring) (w : World P) :
  result_of P (decryptHPKEMessage sk64 enc64 ct64) w = Returned r ->
  let t := trace_of P (decryptHPKEMessage sk64 enc64 ct64) w in
  exists data pt,
    base64ToBuffer ct64 = Returned data /\
    openings t = [(data, inr pt)] /\
    length t = 4%nat /\
    r = str "0x" ++ toHex pt /\
    length r = (2 + 2 * length pt)%nat.
Proof.
  unfold trace_of, result_of, decryptHPKEMessage.
  run_call. { discriminate. }
  decode_buffer. 2:{ discriminate. }
  run_call. { discriminate. }
  decode_buffer. 2:{ discriminate. }
  run_call. { discriminate. }
  decode_buffer. 2:{ discriminate. }
  run_call_as pt. { discriminate. }
  intros Hr. injection Hr as <-. do 2 eexists.
  repeat split.
  match goal with |- context [toHex ?p] => pose proof (length_toHex p) as L end.
  cbn [str map list_ascii_of_string app length] in *. lia.
Qed.

End DecryptionEdges.

(** ** One export *)

Section ExportEdges.

Variable Ob : Objects.
Variable P : Platform Ob.

Lemma decrypt_observed (sk : bytes) (enc64 ct64 : jsstring) (w : World P) :
  let t := trace_of P (decryptHPKEMessage (toBase64 sk) enc64 ct64) w in
  pkcs8_exports t = [] /\
  signature_answers t = [] /\
  (imported_keys t = [] \/ imported_keys t = [sk]) /\
  (forall r,
     result_of P (decryptHPKEMessage (toBase64 sk) enc64 ct64) w = Returned r ->
     exists data pt, openings t = [(data, inr pt)] /\ r = str "0x" ++ toHex pt).
Proof.
  unfold trace_of, result_of, decryptHPKEMessage.
  rewrite base64ToBuffer_toBase64.
  run_call. { repeat split; auto; discriminate. }
  run_call. { repeat split; auto; discriminate. }
  decode_buffer. 2:{ repeat split; auto; discriminate. }
  run_call. { repeat split; auto; discriminate. }
  decode_buffer. 2:{ repeat split; auto; discriminate. }
  run_call. { repeat split; auto; discriminate. }
  repeat split; auto. intros r Hr. injection Hr as <-. now do 2 eexists.
Qed.

Ltac decryption_tail sk exportData Q D :=
  match goal with
  | |- context [run P ?p ?w] =>
      pose proof (decrypt_quiet P (toBase64 sk) (encapsulated_key exportData)
                    (ciphertext exportData) w) as Q;
      pose proof (decrypt_observed sk (encapsulated_key exportData)
                    (ciphertext exportData) w) as D;
      unfold trace_of, result_of, quiet in Q, D;
      destruct (run P p w) as [[?o ?w] ?t]
  end;
  cbn [fst snd] in Q, D.

Ltac observe :=
  cbn [fst snd flat_map app
       generated_keypairs generated_keypair_of spki_exports spki_export_of
       pkcs8_exports pkcs8_export_of imported_keys imported_key_of
       openings opening_of signature_answers signature_answer_of
       signature_inputs signature_input_of fetch_requests fetch_request_of
       fetch_responses fetch_response_of
       key_generations key_generation_of e_call].

(** X4. The private key of the pair a call generated never takes another
    form on its way to decryption: the only key data [importKey] ever
    receives in a run of [exportWalletPrivateKey] is, byte for byte, the
    PKCS8 export of that call's own private key. *)
Theorem export_imports_its_own_key
    (appId appSecret walletId authKey : jsstring) (w : World P) :
  let t := trace_of P (exportWalletPrivateKey appId appSecret walletId authKey) w in
  imported_keys t = [] \/
  exists kp sk,
    generated_keypairs t = [kp] /\
    pkcs8_exports t = [(privateKey kp, sk)] /\
    imported_keys t = [sk].
Proof.
  unfold trace_of, exportWalletPrivateKey.
  run_call_as keypair. { now left. }
  run_call_as pk; run_call_as sk; try settle_race; try (now left).
  run_call_as signature. { now left. }
  destruct signature as [[|c sig]|]; cbn [run bind await lift fst snd];
    try (now left).
  run_call_as response. { now left. }
  destruct (ok response) eqn:Eok; cbn [negb run bind await settle lift fst snd].
  - run_call_as exportData. { now left. }
    decryption_tail sk exportData Q D.
    destruct Q as (_ & _ & Q3 & _). destruct D as (D1 & _ & [D3 | D3] & _).
    + left. observe.
      match goal with
      | H : imported_keys ?t = [] |- _ => fold (imported_keys t); now rewrite H
      end.
    + right. exists keypair, sk. observe.
      match goal with
      | H : imported_keys ?t = _ |- _ =>
          fold (imported_keys t); fold (pkcs8_exports t); fold (generated_keypairs t)
      end.
      now rewrite D1, D3, Q3.
  - now left.
Qed.

(** X5. Without a signature nothing is sent: when the signer answers
    [undefined] or the empty string, [exportWalletPrivateKey] throws
    [Signature is undefined. Cannot proceed.] and no request is made. *)
Theorem export_without_signature_sends_nothing
    (appId appSecret walletId authKey : jsstring) (w : World P) :
  let t := trace_of P (exportWalletPrivateKey appId appSecret walletId authKey) w in
  In (inr None) (signature_answers t) \/ In (inr (Some [])) (signature_answers t) ->
  result_of P (exportWalletPrivateKey appId appSecret walletId authKey) w
  = Thrown signature_undefined /\
  fetch_requests t = [].
Proof.
  unfold trace_of, result_of, exportWalletPrivateKey.
  run_call_as keypair. { intros [[] | []]. }
  run_call_as pk; run_call_as sk; try settle_race; try (intros [[] | []]).
  run_call_as signature. { intros [[H | []] | [H | []]]; discriminate. }
  destruct signature as [[|c sig]|]; cbn [run bind await lift fst snd];
    try (intros _; split; reflexivity).
  intros H. exfalso. revert H.
  run_call_as response. { intros [[H | []] | [H | []]]; discriminate. }
  destruct (ok response) eqn:Eok; cbn [negb run bind await settle lift fst snd].
  - run_call_as exportData. { intros [[H | []] | [H | []]]; discriminate. }
    decryption_tail sk exportData Q D.
    destruct D as (_ & D2 & _). observe.
    match goal with
    | H : signature_answers ?t = [] |- _ => fold (signature_answers t); rewrite H
    end.
    intros [[H | []] | [H | []]]; discriminate.
  - intros [[H | []] | [H | []]]; discriminate.
Qed.

(** X6. [exportWalletPrivateKey] returns a key only at the end of a
    complete exchange: exactly one request was sent, its response was [ok],
    one ciphertext was opened, and the result is [0x] followed by the
    hexadecimal digits of the plaintext obtained. *)
Theorem export_returns_after_ok_response
    (appId appSecret walletId authKey r : jsstring) (w : World P) :
  result_of P (exportWalletPrivateKey appId appSecret walletId authKey) w
  = Returned r ->
  let t := trace_of P (exportWalletPrivateKey appId appSecret walletId authKey) w in
  exists request response data pt,
    fetch_requests t = [request] /\
    req_url request = export_url walletId /\
    fetch_responses t = [response] /\
    ok response = true /\
    openings t = [(data, inr pt)] /\
    r = str "0x" ++ toHex pt.
Proof.
  unfold trace_of, result_of, exportWalletPrivateKey.
  run_call_as keypair. { discriminate. }
  run_call_as pk; run_call_as sk; try settle_race; try discriminate.
  run_call_as signature. { discriminate. }
  destruct signature as [[|c sig]|]; cbn [run bind await lift fst snd];
    try discriminate.
  run_call_as response. { discriminate. }
  destruct (ok response) eqn:Eok; cbn [negb run bind await settle lift fst snd];
    [|discriminate].
  run_call_as exportData. { discriminate. }
  decryption_tail sk exportData Q D.
  destruct Q as (Q1 & Q2 & _). destruct D as (_ & _ & _ & D4).
  intros Hr. destruct (D4 r Hr) as (data & pt & Ho & ->).
  eexists; exists response, data, pt. observe.
  match goal with
  | H : fetch_requests ?t = [] |- _ =>
      fold (fetch_requests t); fold (fetch_responses t); fold (openings t)
  end.
  rewrite Q1, Q2, Ho. now repeat split.
Qed.

(** X7. What is sent is what was signed: the one request a run of
    [exportWalletPrivateKey] makes has the address, the method and the
    headers of the signature input and its body as JSON text, and carries
    the signature the signer returned for that input. *)
Theorem export_sends_what_was_signed
    (appId appSecret walletId authKey : jsstring) (w : World P) (request : Request) :
  let t := trace_of P (exportWalletPrivateKey appId appSecret walletId authKey) w in
  In request (fetch_requests t) ->
  exists input signature,
    signature_inputs t = [input] /\
    signature_answers t = [inr (Some signature)] /\
    fetch_requests t = [request] /\
    req_url request = si_url input /\
    req_method request = si_method input /\
    req_body request = stringify_body (si_body input) /\
    (forall header, In header (si_headers input) -> In header (req_headers request)) /\
    In (str "privy-authorization-signature", signature) (req_headers request).
Proof.
  unfold trace_of, exportWalletPrivateKey.
  run_call_as keypair. { intros []. }
  run_call_as pk; run_call_as sk; try settle_race; try (intros []).
  run_call_as signature. { intros []. }
  destruct signature as [[|c sig]|]; cbn [run bind await lift fst snd];
    try (intros []).
  assert (S : forall rest : trace Ob,
             fetch_requests rest = [] -> signature_inputs rest = [] ->
             signature_answers rest = [] ->
             forall a,
             let t := Entry (GenerateKey ecdh_p256 true [DeriveKey; DeriveBits])
                        (inr keypair)
                      :: Entry (ExportKey Spki (publicKey keypair)) (inr pk)
                      :: Entry (ExportKey Pkcs8 (privateKey keypair)) (inr sk)
                      :: Entry (GenerateAuthorizationSignature
                                  (signatureInput appId walletId (toBase64 pk)) authKey)
                           (inr (Some (c :: sig)))
                      :: Entry (Fetch (export_request appId appSecret walletId
                                         (signatureInput appId walletId (toBase64 pk))
                                         (c :: sig))) a
                      :: rest in
             In request (fetch_requests t) ->
             exists input signature,
               signature_inputs t = [input] /\
               signature_answers t = [inr (Some signature)] /\
               fetch_requests t = [request] /\
               req_url request = si_url input /\
               req_method request = si_method input /\
               req_body request = stringify_body (si_body input) /\
               (forall header, In header (si_headers input) ->
                               In header (req_headers request)) /\
               In (str "privy-authorization-signature", signature)
                 (req_headers request)).
  { intros rest F I A a t. subst t. observe.
    fold (fetch_requests rest); fold (signature_inputs rest);
      fold (signature_answers rest).
    rewrite F, I, A. intros [<-|[]].
    exists (signatureInput appId walletId (toBase64 pk)), (c :: sig).
    repeat split.
    - intros header [<-|[]]. now left.
    - right; right; now left. }
  run_call_as response. { now apply S. }
  destruct (ok response) eqn:Eok; cbn [negb run bind await settle lift fst snd];
    [|now apply S].
  run_call_as exportData. { now apply (S [_]). }
  decryption_tail sk exportData Q D.
  destruct Q as (Q1 & _ & _ & _ & Q5 & _). destruct D as (_ & D2 & _).
  cbn [snd].
  match goal with
  | |- In _ (fetch_requests (_ :: _ :: _ :: _ :: _ :: ?e :: ?rest)) -> _ =>
      apply (S (e :: rest))
  end; observe;
    match goal with
    | H : fetch_requests ?t = [] |- _ =>
        try fold (fetch_requests t); try fold (signature_inputs t);
        try fold (signature_answers t)
    end; assumption.
Qed.

End ExportEdges.

(** ** The export loop of [main] and the [main] of [index.ts] *)

Section MainLoop.

Variable Ob : Objects.
Variable P : Platform Ob.

Lemma result_of_bind {A B : Type} (p : prog Ob A) (f : A -> prog Ob B) (w : World P) :
  result_of P (bind p f) w =
  match result_of P p w with
  | Returned a => result_of P (f a) (world_after P p w)
  | Thrown e => Thrown e
  end.
Proof.
  unfold result_of, world_after. rewrite run_bind.
  destruct (run P p w) as [[[a | e] w1] t1]; cbn [fst snd]; [|reflexivity].
  destruct (run P (f a) w1) as [[o2 w2] t2]. reflexivity.
Qed.

Ltac counted :=
  cbn [fst snd flat_map app length fetch_requests fetch_request_of
       key_generations key_generation_of e_call];
  repeat split; try lia; try congruence;
  try (repeat constructor; assumption); auto.

Lemma export_counts (appId appSecret walletId authKey : jsstring) (w : World P) :
  let t := trace_of P (exportWalletPrivateKey appId appSecret walletId authKey) w in
  (length (fetch_requests t) <= 1)%nat /\
  (length (key_generations t) <= 1)%nat /\
  Forall (targets appId walletId) (fetch_requests t) /\
  (forall r,
     result_of P (exportWalletPrivateKey appId appSecret walletId authKey) w
     = Returned r ->
     length (fetch_requests t) = 1%nat /\ length (key_generations t) = 1%nat).
Proof.
  assert (T : forall sig,
             targets appId walletId
               (export_request appId appSecret walletId
                  (signatureInput appId walletId sig) sig)).
  { intros sig. repeat split. now left. }
  unfold trace_of, result_of, exportWalletPrivateKey.
  run_call_as keypair. { counted. }
  run_call_as pk; run_call_as sk; try settle_race; try solve [counted].
  run_call_as signature. { counted. }
  destruct signature as [[|c sig]|]; cbn [run bind await lift fst snd];
    try solve [counted].
  assert (T' : targets appId walletId
                 (export_request appId appSecret walletId
                    (signatureInput appId walletId (toBase64 pk)) (c :: sig))).
  { repeat split. now left. }
  run_call_as response. { counted. }
  destruct (ok response) eqn:Eok; cbn [negb run bind await settle lift fst snd].
  - run_call_as exportData. { counted. }
    match goal with
    | |- context [run P ?p ?w] =>
        pose proof (decrypt_quiet P (toBase64 sk) (encapsulated_key exportData)
                      (ciphertext exportData) w) as Q;
        unfold trace_of, quiet in Q; destruct (run P p w) as [[?o ?w] ?t]
    end.
    cbn [snd] in Q. destruct Q as (Q1 & _ & _ & _ & _ & Q6).
    cbn [fst snd flat_map app fetch_requests fetch_request_of
         key_generations key_generation_of e_call].
    match goal with
    | H : fetch_requests ?t = [] |- _ =>
        try fold (fetch_requests t); try fold (key_generations t)
    end.
    rewrite ?Q1, ?Q6. counted.
  - counted.
Qed.

Lemma iterations_counts (n : nat) (appId appSecret walletId authKey : jsstring) :
  forall w : World P,
  let t := trace_of P (export_iterations n appId appSecret walletId authKey) w in
  (length (fetch_requests t) <= n)%nat /\
  (length (key_generations t) <= n)%nat /\
  Forall (targets appId walletId) (fetch_requests t) /\
  (result_of P (export_iterations n appId appSecret walletId authKey) w = Returned tt ->
   length (fetch_requests t) = n /\ length (key_generations t) = n).
Proof.
  induction n as [|n IH]; intros w.
  - cbn. repeat split; auto.
  - cbn [export_iterations]. cbv zeta.
    rewrite trace_of_bind, result_of_bind.
    rewrite fetch_requests_app, key_generations_app, !length_app.
    destruct (export_counts appId appSecret walletId authKey w)
      as (F1 & K1 & T1 & R1).
    destruct (result_of P (exportWalletPrivateKey appId appSecret walletId authKey) w)
      as [r | e].
    + cbv beta. destruct (R1 r eq_refl) as [F1' K1'].
      destruct (IH (world_after P
                      (exportWalletPrivateKey appId appSecret walletId authKey) w))
        as (F2 & K2 & T2 & R2).
      rewrite F1', K1'. cbn [Nat.add].
      split; [now apply le_n_S|]. split; [now apply le_n_S|].
      split; [apply Forall_app; now split|].
      intros H. apply R2 in H. destruct H as [-> ->]. now split.
    + change (fetch_requests (@nil (entry Ob))) with (@nil Request).
      change (key_generations (@nil (entry Ob)))
        with (@nil (KeyAlgorithm * bool * list KeyUsage)).
      rewrite app_nil_r. cbn [length]. rewrite !Nat.add_0_r.
      split; [now apply Nat.le_trans with 1%nat; [|apply le_n_S, Nat.le_0_l]|].
      split; [now apply Nat.le_trans with 1%nat; [|apply le_n_S, Nat.le_0_l]|].
      split; [assumption | discriminate].
Qed.

(** X8. [main] exports for the wallet it has just created, and only for
    it: every export request of a run goes, by POST and under the
    configured application id, to the export address of the wallet the
    custody service answered at creation (a Solana wallet owned by the
    configured key). There are at most 20 requests and 20 key generations,
    and exactly 20 of each when [main] returns. *)
Theorem main_exports_for_the_created_wallet (env : Env) (w : World P) :
  let t := trace_of P (main env) w in
  (length (fetch_requests t) <= 20)%nat /\
  (length (key_generations t) <= 20)%nat /\
  (forall request,
     In request (fetch_requests t) ->
     exists privy wallet,
       In (Entry (CreateWallet privy Solana
                    (env_string (PRIVY_AUTHORIZATION_PUBLIC_KEY env)))
             (inr wallet)) t /\
       targets (env_string (PRIVY_APP_ID env)) (wallet_id wallet) request) /\
  (result_of P (main env) w = Returned tt ->
   length (fetch_requests t) = 20%nat /\ length (key_generations t) = 20%nat).
Proof.
  unfold trace_of, result_of, main. cbv zeta.
  destruct (falsy (PRIVY_APP_ID env) || falsy (PRIVY_APP_SECRET env)
            || falsy (PRIVY_AUTHORIZATION_PUBLIC_KEY env)
            || falsy (PRIVY_AUTHORIZATION_PRIVATE_KEY env)).
  { cbn; repeat split; intros; try lia; try discriminate; try contradiction. }
  unfold createPrivyWallet.
  run_call_as privy. { cbn; repeat split; intros; try lia; try discriminate; try contradiction. }
  run_call_as wallet. { cbn; repeat split; intros; try lia; try discriminate; try contradiction. }
  match goal with
  | |- context [run P ?p ?w] =>
      pose proof (iterations_counts iterations (env_string (PRIVY_APP_ID env))
                    (env_string (PRIVY_APP_SECRET env)) (wallet_id wallet)
                    (env_string (PRIVY_AUTHORIZATION_PRIVATE_KEY env)) w) as I;
      unfold trace_of, result_of in I; destruct (run P p w) as [[?o ?w] ?t]
  end.
  cbn [fst snd] in I. destruct I as (F & K & T & R).
  cbn [fst snd flat_map app fetch_requests fetch_request_of
       key_generations key_generation_of e_call].
  match goal with
  | H : Forall _ (fetch_requests ?t) |- _ =>
      try fold (fetch_requests t); try fold (key_generations t)
  end.
  repeat split; try assumption; try (now apply R).
  intros request Hin. exists privy, wallet. split.
  - right. left. reflexivity.
  - rewrite Forall_forall in T. now apply T.
Qed.

(** X9. The [main] of [index.ts] needs three variables only: with the
    application id, the application secret or the authorization public key
    missing (undefined or empty) it throws before any call; the
    authorization private key plays no part. *)
Theorem index_main_needs_three_variables (env : Env) (w : World P) :
  falsy (PRIVY_APP_ID env) = true \/
  falsy (PRIVY_APP_SECRET env) = true \/
  falsy (PRIVY_AUTHORIZATION_PUBLIC_KEY env) = true ->
  run P (Index.main env) w = (Thrown missing_variables, w, []).
Proof.
  intros H.
  assert (E : Index.main env = Throw (Ob := Ob) missing_variables).
  { unfold Index.main.
    destruct H as [H | [H | H]]; rewrite H; rewrite ?orb_true_r; reflexivity. }
  now rewrite E.
Qed.

(** X10. The [main] of [index.ts] creates a wallet and does nothing else:
    it makes at most two calls, generates no key and sends no export
    request, and the only wallet it asks for is a Solana wallet owned by
    the configured authorization key. *)
Theorem index_main_only_creates_a_wallet (env : Env) (w : World P) :
  let t := trace_of P (Index.main env) w in
  (length t <= 2)%nat /\
  fetch_requests t = [] /\
  key_generations t = [] /\
  (forall chain owner a,
     In (chain, owner, a) (wallet_creations t) ->
     chain = Solana /\
     owner = env_string (PRIVY_AUTHORIZATION_PUBLIC_KEY env)).
Proof.
  unfold trace_of, Index.main. cbv zeta.
  destruct (falsy (PRIVY_APP_ID env) || falsy (PRIVY_APP_SECRET env)
            || falsy (PRIVY_AUTHORIZATION_PUBLIC_KEY env)).
  { cbn. repeat split; try lia; destruct H. }
  unfold createPrivyWallet.
  run_call_as privy. { cbn. repeat split; try lia; destruct H. }
  run_call_as wallet.
  - cbn. repeat split; try lia; destruct H as [H | []]; congruence.
  - cbn. repeat split; try lia; destruct H as [H | []]; congruence.
Qed.

End MainLoop.

Lemma index_main_needs_three_variables_witness :
  run Mock.platform (Index.main Mock.incomplete_env) (Mock.world0 200)
  = (Thrown missing_variables, Mock.world0 200, []).
Proof.
  apply (@index_main_needs_three_variables Mock.objects Mock.platform
           Mock.incomplete_env (Mock.world0 200)).
  right. left. reflexivity.
Defined.

(** ** The two normalisers together *)

Lemma decodePrivateKey_fixed (r : jsstring) :
  startsWith r (str "0x") = true -> length r = 66%nat ->
  decodePrivateKey r = Returned r.
Proof.
  intros H0 L. unfold decodePrivateKey.
  assert (P : startsWith r (str "PRIVATE_KEY=") = false).
  { apply is_prefix_inv in H0. rewrite H0. reflexivity. }
  rewrite P, H0, L. reflexivity.
Qed.

Lemma decodeDoubleHex_shape (s r : jsstring) :
  decodeDoubleHexPrivateKey s = Returned r ->
  exists h, r = str "0x" ++ h /\ test_hex 64 h = true.
Proof.
  unfold decodeDoubleHexPrivateKey.
  set (cleanKey := if startsWith s (str "0x") then slice 2 s else s).
  intros H. destruct (test_hex 64 cleanKey) eqn:E64.
  - exists cleanKey. split; congruence.
  - destruct (test_hex 128 cleanKey); [|discriminate].
    destruct (test_hex 64 (utf8Decode (fromHex cleanKey))) eqn:E; [|discriminate].
    exists (utf8Decode (fromHex cleanKey)). split; congruence.
Qed.

Lemma test_hex_length (n : nat) (h : jsstring) :
  test_hex n h = true -> length h = n.
Proof.
  unfold test_hex. intros H. apply andb_true_iff in H.
  now apply Nat.eqb_eq.
Qed.

Lemma decodePrivateKey_shape (s r : jsstring) :
  decodePrivateKey s = Returned r ->
  length r = 66%nat /\ startsWith r (str "0x") = true.
Proof.
  intros H. unfold decodePrivateKey in H.
  set (c := if startsWith s (str "PRIVATE_KEY=")
            then replace (str "PRIVATE_KEY=") [] s else s) in H.
  rewrite decodePrivateKey_cases in H.
  destruct (startsWith c (str "0x")) eqn:E0.
  - destruct (Nat.ltb_spec (length c) 66) as [|L]; [discriminate|].
    assert (Er : firstn 66 c = r) by congruence. rewrite <- Er. split.
    + rewrite length_firstn. lia.
    + apply is_prefix_inv in E0. rewrite E0.
      destruct (skipn (length (str "0x")) c); reflexivity.
  - destruct (Nat.eqb_spec (length c) 64) as [L|]; [|discriminate].
    assert (Er : str "0x" ++ c = r) by congruence. rewrite <- Er. split.
    + rewrite length_app, L. reflexivity.
    + apply startsWith_0x.
Qed.

(** X11. What [decodePrivateKey] returns has 66 characters, starts with
    [0x], and is returned unchanged when it is decoded again. *)
Theorem decodePrivateKey_result_is_stable (s r : jsstring) :
  decodePrivateKey s = Returned r ->
  length r = 66%nat /\ startsWith r (str "0x") = true /\
  decodePrivateKey r = Returned r.
Proof.
  intros H.
  destruct (decodePrivateKey_shape _ H) as [L P]. repeat split; trivial.
  now apply decodePrivateKey_fixed.
Qed.

Lemma decodePrivateKey_result_is_stable_witness :
  length (str "0x" ++ repeat 102 64) = 66%nat /\
  startsWith (str "0x" ++ repeat 102 64) (str "0x") = true /\
  decodePrivateKey (str "0x" ++ repeat 102 64) = Returned (str "0x" ++ repeat 102 64).
Proof.
  apply (@decodePrivateKey_result_is_stable
           (str "PRIVATE_KEY=0x" ++ repeat 102 64 ++ str "trailing")).
  reflexivity.
Defined.

(** X12. The two normalisers agree on what a normal form is: a key returned
    by [decodeDoubleHexPrivateKey] is accepted by [decodePrivateKey] and
    returned as it is. The converse fails: [decodePrivateKey] does not look
    at the digits. *)
Theorem strict_result_passes_lenient_decoder (s r : jsstring) :
  decodeDoubleHexPrivateKey s = Returned r ->
  decodePrivateKey r = Returned r.
Proof.
  intros H. apply decodeDoubleHex_shape in H. destruct H as [h [-> Hh]].
  apply decodePrivateKey_fixed; [apply startsWith_0x|].
  rewrite length_app, (test_hex_length _ _ Hh). reflexivity.
Qed.

Lemma strict_result_passes_lenient_decoder_witness :
  decodePrivateKey (str "0x" ++ repeat 102 64) = Returned (str "0x" ++ repeat 102 64).
Proof.
  apply (@strict_result_passes_lenient_decoder (toHex (repeat x66 64))).
  reflexivity.
Defined.

(** X13. A key of 64 hexadecimal digits is recovered from each of the four
    spellings [decodeDoubleHexPrivateKey] takes: bare, behind [0x], encoded
    a second time, and encoded a second time behind [0x]. *)
Theorem four_spellings_one_key (h : jsstring) :
  test_hex 64 h = true ->
  let twice := toHex (map byte_of_N h) in
  decodeDoubleHexPrivateKey h = Returned (str "0x" ++ h) /\
  decodeDoubleHexPrivateKey (str "0x" ++ h) = Returned (str "0x" ++ h) /\
  decodeDoubleHexPrivateKey twice = Returned (str "0x" ++ h) /\
  decodeDoubleHexPrivateKey (str "0x" ++ twice) = Returned (str "0x" ++ h).
Proof.
  intros H twice.
  assert (B : decodeDoubleHexPrivateKey (str "0x" ++ h) = Returned (str "0x" ++ h)).
  { unfold decodeDoubleHexPrivateKey. rewrite startsWith_0x.
    change (slice 2 (str "0x" ++ h)) with h. now rewrite H. }
  assert (T : decodeDoubleHexPrivateKey twice = Returned (str "0x" ++ h))
    by now apply double_encoding_is_decoded.
  repeat split; trivial.
  - unfold decodeDoubleHexPrivateKey.
    destruct (startsWith h (str "0x")) eqn:E0.
    + apply startsWith_0x_not_hex in E0. unfold test_hex in H.
      apply andb_true_iff in H. destruct H as [_ H]. congruence.
    + now rewrite H.
  - unfold decodeDoubleHexPrivateKey in T |- *. rewrite startsWith_0x.
    change (slice 2 (str "0x" ++ twice)) with twice.
    destruct (startsWith twice (str "0x")) eqn:E0; [|exact T].
    apply startsWith_0x_not_hex in E0. unfold twice in E0.
    now rewrite toHex_all_hex in E0.
Qed.

Lemma four_spellings_one_key_witness :
  let h := repeat 102 64 in
  let twice := toHex (map byte_of_N h) in
  decodeDoubleHexPrivateKey h = Returned (str "0x" ++ h) /\
  decodeDoubleHexPrivateKey (str "0x" ++ h) = Returned (str "0x" ++ h) /\
  decodeDoubleHexPrivateKey twice = Returned (str "0x" ++ h) /\
  decodeDoubleHexPrivateKey (str "0x" ++ twice) = Returned (str "0x" ++ h).
Proof.
  apply (@four_spellings_one_key (repeat 102 64)). reflexivity.
Defined.

(** X14. A line copied from the [.env] file is read as its value:
    [decodePrivateKey] drops one leading [PRIVATE_KEY=] and treats what
    follows as it would have treated it alone. *)
Theorem env_line_is_read_as_its_value (value : jsstring) :
  startsWith value (str "PRIVATE_KEY=") = false ->
  decodePrivateKey (str "PRIVATE_KEY=" ++ value) = decodePrivateKey value.
Proof.
  intros H. unfold decodePrivateKey at 1.
  assert (P : startsWith (str "PRIVATE_KEY=" ++ value) (str "PRIVATE_KEY=") = true)
    by apply is_prefix_app.
  rewrite P, (replace_prefix _ [] _ P).
  change (skipn (length (str "PRIVATE_KEY=")) (str "PRIVATE_KEY=" ++ value))
    with value.
  cbn [app]. unfold decodePrivateKey. now rewrite H.
Qed.

Lemma env_line_is_read_as_its_value_witness :
  decodePrivateKey (str "PRIVATE_KEY=" ++ repeat 102 64)
  = decodePrivateKey (repeat 102 64).
Proof.
  apply (@env_line_is_read_as_its_value (repeat 102 64)). reflexivity.
Defined.

(** ** The scripts around the exchange client *)

Import Clob.






(** One step of a script: the next call is answered, with a failure or a
    value. *)
Ltac answer_as x :=
  cbn [exec andThen tryCatch awaiting settled lifted];
  match goal with
  | |- context [respond ?h ?c ?w] =>
      let e := fresh "e" in let w' := fresh "w" in
      destruct (respond h c w) as [[e|x] w']
  end;
  cbn [exec andThen tryCatch awaiting settled lifted].

Ltac answer := let x := fresh "x" in answer_as x.

(** The rest of a run, whatever it is. *)
Ltac rest_of_run :=
  match goal with
  | |- context [exec ?h ?q ?w] =>
      let o := fresh "o" in let w' := fresh "w" in let t := fresh "t" in
      destruct (exec h q w) as [[o w'] t]
  end.

Ltac observe_steps :=
  cbn [exec andThen tryCatch awaiting settled lifted
       ending_of steps_of fst snd kinds failures failed requests responses signings
       clock_readings sign_requests sign_request_of parsings parsing_of wallet_keys derivations creations orders markets order_results
       request_of response_of signing_of clock_of wallet_key_of derivation_of
       creation_of order_of market_of order_result_of
       step_op step_answer kind_of_op flat_map map filter app hd_error].

Section ScriptFacts.

Variable Hd : Handles.
Variable host : Host Hd.

(** X15. Without the application's id or secret, or without the
    authorization key, [signWithServerWallet] fails before it builds a
    client or asks for a signature; the missing id or secret is reported
    first. *)
Theorem sign_requires_credentials (env : ProcessEnv) (walletId : jsstring)
    (typedData : TypedData) (w : HostState host) :
  let id := getenv env (str "PRIVY_APP_ID") in
  let secret := getenv env (str "PRIVY_APP_SECRET") in
  let key := getenv env (str "PRIVY_AUTHORIZATION_PRIVATE_KEY") in
  falsy id || falsy secret || falsy key = true ->
  exec host (signWithServerWallet env walletId typedData) w =
  (RejectedWith (if falsy id || falsy secret then missing_credentials
                 else missing_authorization_key), w, []).
Proof.
  intros id secret key H. unfold signWithServerWallet. fold id secret key.
  destruct (falsy id || falsy secret); [reflexivity|].
  cbn [orb] in H. now rewrite H.
Qed.

(** With the three variables set the client is built from them and asked
    once, for this wallet and these data; the answer is passed on as it
    is. *)
Lemma sign_steps (env : ProcessEnv) (walletId : jsstring)
    (typedData : TypedData) :
  let id := getenv env (str "PRIVY_APP_ID") in
  let secret := getenv env (str "PRIVY_APP_SECRET") in
  let key := getenv env (str "PRIVY_AUTHORIZATION_PRIVATE_KEY") in
  falsy id || falsy secret || falsy key = false ->
  signWithServerWallet (Hd := Hd) env walletId typedData =
  andThen (awaiting (NewPrivy (env_string id) (env_string secret) (env_string key)))
    (fun privy => awaiting (SignTypedData privy walletId typedData)).
Proof.
  intros id secret key H. unfold signWithServerWallet. fold id secret key.
  apply orb_false_iff in H. destruct H as [H1 H2]. now rewrite H1, H2.
Qed.

Lemma sign_unconfigured (env : ProcessEnv) (walletId : jsstring)
    (typedData : TypedData) :
  let id := getenv env (str "PRIVY_APP_ID") in
  let secret := getenv env (str "PRIVY_APP_SECRET") in
  let key := getenv env (str "PRIVY_AUTHORIZATION_PRIVATE_KEY") in
  falsy id || falsy secret || falsy key = true ->
  signWithServerWallet (Hd := Hd) env walletId typedData =
  Fail (if falsy id || falsy secret then missing_credentials
        else missing_authorization_key).
Proof.
  intros id secret key H. unfold signWithServerWallet. fold id secret key.
  destruct (falsy id || falsy secret); [reflexivity|].
  cbn [orb] in H. now rewrite H.
Qed.


(** X17. The one request [deriveApiCredentials] sends carries the signature
    it was given, and as its timestamp the very text that was signed: the
    seconds of the clock reading taken first. *)
Theorem derive_request_matches_what_was_signed (env : ProcessEnv)
    (walletId makerAddress : jsstring) (nonce : N) (w : HostState host)
    (r : HttpRequest) :
  let t := steps_of host (deriveApiCredentials env walletId makerAddress nonce) w in
  In r (requests t) ->
  exists now signature,
    let timestamp := number_toString (now / 1000) in
    clock_readings t = [inr now] /\
    sign_requests t = [(walletId, clobAuthTypedData makerAddress timestamp nonce)] /\
    signings t = [inr signature] /\
    falsy signature = false /\
    requests t = [derive_request makerAddress (env_string signature) timestamp nonce].
Proof.
  intros t. unfold t, deriveApiCredentials, steps_of.
  answer_as now; [observe_steps; contradiction|].
  destruct (falsy (getenv env (str "PRIVY_APP_ID"))
            || falsy (getenv env (str "PRIVY_APP_SECRET"))
            || falsy (getenv env (str "PRIVY_AUTHORIZATION_PRIVATE_KEY"))) eqn:C.
  { rewrite sign_unconfigured by exact C. observe_steps. contradiction. }
  rewrite sign_steps by exact C.
  answer_as privy; [observe_steps; contradiction|].
  answer_as signature; [observe_steps; contradiction|].
  destruct (falsy signature) eqn:S; [observe_steps; contradiction|].
  intros _. exists now, signature.
  answer_as response; [observe_steps; now repeat split|].
  destruct (ok response); cbn [negb]; [answer_as data|];
    observe_steps; now repeat split.
Qed.

(** X18. [deriveApiCredentials] returns only what an accepted response
    said: when it returns, its one request was answered with a status in
    200..299, the body of that response was parsed, and the result holds
    the three fields read from it, none of them checked. *)
Theorem derive_returns_the_parsed_fields (env : ProcessEnv)
    (walletId makerAddress : jsstring) (nonce : N) (w : HostState host)
    (apiCreds : ApiCredentials) :
  let p := deriveApiCredentials env walletId makerAddress nonce in
  let t := steps_of host p w in
  ending_of host p w = Fulfilled apiCreds ->
  exists response responseData,
    responses t = [response] /\
    ok response = true /\
    parsings t = [(response, inr responseData)] /\
    apiCreds = {| cred_key := json_apiKey responseData;
                  cred_secret := json_secret responseData;
                  cred_passphrase := json_passphrase responseData |} /\
    kinds t = [KDateNow; KNewPrivy; KSignTypedData; KHttpFetch; KJsonCredentials].
Proof.
  intros p t. unfold t, p, deriveApiCredentials, ending_of, steps_of.
  answer_as now; [discriminate|].
  destruct (falsy (getenv env (str "PRIVY_APP_ID"))
            || falsy (getenv env (str "PRIVY_APP_SECRET"))
            || falsy (getenv env (str "PRIVY_AUTHORIZATION_PRIVATE_KEY"))) eqn:C.
  { rewrite sign_unconfigured by exact C. discriminate. }
  rewrite sign_steps by exact C.
  answer_as privy; [discriminate|].
  answer_as signature; [discriminate|].
  destruct (falsy signature); [discriminate|].
  answer_as response; [discriminate|].
  destruct (ok response) eqn:R; cbn [negb]; [|discriminate].
  answer_as data; [discriminate|].
  observe_steps. intros E. injection E as <-.
  exists response, data. now repeat split.
Qed.

(** X19. Without its two arguments, or without the custody configuration,
    [generateApiCredentials] fails having done nothing but, at most, read
    the clock. *)
Theorem generate_without_configuration_only_reads_the_clock (env : ProcessEnv)
    (walletId makerAddress : jsstring) (w : HostState host) :
  let p := generateApiCredentials env walletId makerAddress in
  empty walletId || empty makerAddress
  || (falsy (getenv env (str "PRIVY_APP_ID"))
      || falsy (getenv env (str "PRIVY_APP_SECRET"))
      || falsy (getenv env (str "PRIVY_AUTHORIZATION_PRIVATE_KEY"))) = true ->
  (exists e, ending_of host p w = RejectedWith e) /\
  (kinds (steps_of host p w) = [] \/ kinds (steps_of host p w) = [KDateNow]) /\
  (empty walletId || empty makerAddress = true ->
   exec host p w = (RejectedWith arguments_required, w, [])).
Proof.
  intros p H. unfold p, generateApiCredentials, ending_of, steps_of.
  destruct (empty walletId || empty makerAddress) eqn:A; cbn [orb] in H.
  { cbn. split; [eauto|split; [now left|reflexivity]]. }
  answer_as now.
  - observe_steps. split; [eauto|split; [now right|discriminate]].
  - rewrite sign_unconfigured by exact H. observe_steps.
    split; [eauto|split; [now right|discriminate]].
Qed.

(** X20. When the custody wallet returns no signature,
    [generateApiCredentials] fails with its own error and sends nothing to
    the exchange; it does not go on to the derivation. *)
Theorem generate_unsigned_sends_nothing (env : ProcessEnv)
    (walletId makerAddress : jsstring) (w : HostState host)
    (signature : option jsstring) :
  let p := generateApiCredentials env walletId makerAddress in
  hd_error (signings (steps_of host p w)) = Some (inr signature) ->
  falsy signature = true ->
  ending_of host p w = RejectedWith creation_not_signed /\
  requests (steps_of host p w) = [] /\
  signings (steps_of host p w) = [inr signature].
Proof.
  intros p. unfold p, generateApiCredentials, ending_of, steps_of.
  destruct (empty walletId || empty makerAddress); [discriminate|].
  answer_as now; [discriminate|].
  destruct (falsy (getenv env (str "PRIVY_APP_ID"))
            || falsy (getenv env (str "PRIVY_APP_SECRET"))
            || falsy (getenv env (str "PRIVY_AUTHORIZATION_PRIVATE_KEY"))) eqn:C.
  { rewrite sign_unconfigured by exact C. discriminate. }
  rewrite sign_steps by exact C.
  answer_as privy; [discriminate|].
  answer_as s; [discriminate|].
  destruct (falsy s) eqn:F.
  - observe_steps. intros E _. injection E as <-. now repeat split.
  - rest_of_run. observe_steps. intros E F'. congruence.
Qed.

(** Every call answered either way, every test decided either way. *)
Ltac every_run :=
  repeat first
    [ progress observe_steps
    | rewrite sign_steps by assumption
    | answer
    | match goal with
      | |- context [if ?b then _ else _] => destruct b eqn:?
      end ].

(** X21. Once [generateApiCredentials] holds a signature, whatever goes
    wrong in the derivation is put aside: either the derivation gave
    credentials with a key and they are returned without any POST, or the
    creation request is sent, with the signature obtained first and the
    timestamp that was signed. *)
Theorem generate_falls_back_to_creation (env : ProcessEnv)
    (walletId makerAddress : jsstring) (w : HostState host)
    (signature : option jsstring) :
  let p := generateApiCredentials env walletId makerAddress in
  let t := steps_of host p w in
  hd_error (signings t) = Some (inr signature) ->
  falsy signature = false ->
  exists now,
    hd_error (clock_readings t) = Some (inr now) /\
    let post := creation_request makerAddress (env_string signature)
                  (number_toString (now / 1000)) 0 in
    ((exists derivedCreds,
        ending_of host p w = Fulfilled derivedCreds /\
        falsy (cred_key derivedCreds) = false /\
        forall r, In r (requests t) -> http_method r = GET)
     \/
     (exists before,
        requests t = before ++ [post] /\
        forall r, In r before -> http_method r = GET)).
Proof.
  intros p t. unfold t, p, generateApiCredentials, ending_of, steps_of.
  destruct (empty walletId || empty makerAddress); [discriminate|].
  answer_as now; [discriminate|].
  destruct (falsy (getenv env (str "PRIVY_APP_ID"))
            || falsy (getenv env (str "PRIVY_APP_SECRET"))
            || falsy (getenv env (str "PRIVY_AUTHORIZATION_PRIVATE_KEY"))) eqn:C.
  { rewrite sign_unconfigured by exact C. discriminate. }
  rewrite sign_steps by exact C.
  answer_as privy; [discriminate|].
  answer_as s; [discriminate|].
  destruct (falsy s) eqn:F.
  { observe_steps. intros E F'. congruence. }
  unfold deriveApiCredentials.
  every_run; intros E _; injection E as <-; exists now;
    (split; [reflexivity|]); cbv zeta;
    first
      [ solve [right; exists []; split; [reflexivity|intros ? []]]
      | solve [right; eexists [_]; split;
               [reflexivity|intros ? [<-|[]]; reflexivity]]
      | solve [left; eexists; split; [reflexivity|split;
               [ match goal with H : negb _ = true |- _ =>
                   apply negb_true_iff in H; exact H end
               | intros ? [<-|[]]; reflexivity ]]] ].
Qed.

(** *** [createCredentialsWithClobClient] *)

Ltac unusable_cases :=
  repeat match goal with
         | H : unusable ?x = _ |- _ =>
             first [ is_var x; destruct x | idtac ]; cbn [unusable] in H
         end.

Lemma decodePrivateKey_throws (s : jsstring) (e : exn) :
  decodePrivateKey s = Thrown e -> e = unknown_format.
Proof.
  unfold decodePrivateKey.
  repeat match goal with
         | |- context [if ?b then _ else _] => destruct b
         end; intros H; try discriminate H; now injection H.
Qed.

Lemma cannot_read_injective (v v' : nullish) (property : jsstring) :
  cannot_read v property = cannot_read v' property -> v = v'.
Proof. destruct v, v'; trivial; discriminate. Qed.

Lemma rejected_cannot_read {A : Type} (v v' : nullish) (property : jsstring) :
  @RejectedWith A (cannot_read v property) = RejectedWith (cannot_read v' property) ->
  v = v'.
Proof. intros H. apply (@cannot_read_injective v v' property). congruence. Qed.

(** What was caught is looked at. *)
Ltac caught :=
  match goal with
  | |- context [match ?e with Nullish _ => _ | _ => _ end] => is_var e; destruct e
  end.

Ltac every_run_caught :=
  repeat first
    [ progress observe_steps
    | progress cbv delta [private_key_not_found derive_without_key no_credentials]
    | answer
    | caught
    | match goal with
      | |- context [if ?b then _ else _] => destruct b eqn:?
      end ].

Ltac rejection_cases :=
  cbn [rejections rejection_of flat_map app step_answer step_op kind_of_op];
  split;
  [ let E := fresh "E" in
    intros E; first [ discriminate E
                    | apply rejected_cannot_read in E; subst;
                      eexists; split;
                      [first [apply in_eq | apply in_cons, in_eq]|discriminate] ]
  | let I := fresh "I" in let K := fresh "K" in
    intros [? [I K]]; cbn [In] in I;
    repeat match goal with
           | H : _ \/ _ |- _ => destruct H
           | H : False |- _ => destruct H
           | H : (_, _) = (_, _) |- _ => injection H as ? ?; subst
           end;
    first [ reflexivity | discriminate | congruence ] ].

(** X22. [createCredentialsWithClobClient] ends in one of three ways: it
    ends normally, it ends the process with code 1, or it rejects with the
    [TypeError] of its own catch block, which reads [err.error]. It ends
    normally exactly when the exchange client derived credentials that have
    a key, or created credentials (for these the key is not looked at); it
    rejects exactly when a call other than the derivation failed with
    [undefined] or [null]. *)
Theorem create_credentials_endings (env : ProcessEnv) (w : HostState host) :
  let p := createCredentialsWithClobClient env in
  let t := steps_of host p w in
  (ending_of host p w = Fulfilled tt \/ ending_of host p w = Exited 1 \/
   exists v, ending_of host p w = RejectedWith (cannot_read v (str "error"))) /\
  (ending_of host p w = Fulfilled tt <->
   (exists c, In (inr (Some c)) (derivations t) /\ falsy (cred_key c) = false) \/
   (exists c, In (inr (Some c)) (creations t))) /\
  (forall v,
     ending_of host p w = RejectedWith (cannot_read v (str "error")) <->
     exists k, In (k, Nullish v) (rejections t) /\ k <> KDeriveApiKey).
Proof.
  intros p t. unfold t, p, createCredentialsWithClobClient, ending_of, steps_of.
  destruct (falsy (getenv env (str "PRIVATE_KEY"))).
  { cbn. split; [now right; left|]. split.
    - split; [discriminate|]. now intros [[c [[] _]]|[c []]].
    - intros v. split; [discriminate|]. now intros [k [[] _]]. }
  destruct (decodePrivateKey (env_string (getenv env (str "PRIVATE_KEY"))))
    as [k|e] eqn:D.
  2:{ apply decodePrivateKey_throws in D. subst e. cbn.
      split; [now right; left|]. split.
      - split; [discriminate|]. now intros [[c [[] _]]|[c []]].
      - intros v. split; [discriminate|]. now intros [k [[] _]]. }
  every_run_caught; unusable_cases;
    (split; [first [now left|now right; left|right; right; eexists; reflexivity]|]);
    (split;
     [ split;
       [ intros E; first [discriminate E | eauto 6 using in_eq]
       | intros [[c [I F]]|[c I]]; cbn [In] in I; intuition (try congruence) ]
     | intro; rejection_cases ]).
Qed.

(** X23. The exchange client is asked to create a key exactly when it was
    asked to derive one and that failed or gave nothing with a key. *)
Theorem creation_only_after_failed_derivation (env : ProcessEnv) (w : HostState host) :
  let t := steps_of host (createCredentialsWithClobClient env) w in
  In KCreateApiKey (kinds t) <->
  exists d, In d (derivations t) /\
            match d with inl _ => True | inr derived => unusable derived = true end.
Proof.
  intros t. unfold t, createCredentialsWithClobClient, steps_of.
  destruct (falsy (getenv env (str "PRIVATE_KEY"))).
  { cbn. split; [intros []|intros [d [[] _]]]. }
  destruct (decodePrivateKey (env_string (getenv env (str "PRIVATE_KEY"))))
    as [k|e] eqn:D.
  2:{ apply decodePrivateKey_throws in D. subst e. cbn.
      split; [intros []|intros [d [[] _]]]. }
  every_run_caught;
    (split;
     [ intros I; cbn [In] in I;
       first [ eexists; split; [apply in_eq|]; first [exact Logic.I | assumption]
             | intuition discriminate ]
     | intros [d [I U]]; cbn [In] in I |- *;
       first [ tauto
             | destruct I as [<-|[]]; congruence ] ]).
Qed.

(** X24. The key from which [createCredentialsWithClobClient] builds its
    wallet is what [decodePrivateKey] made of [PRIVATE_KEY]: 66 characters
    that start with [0x]. *)
Theorem wallet_key_is_the_decoded_key (env : ProcessEnv) (w : HostState host)
    (key : jsstring) :
  let t := steps_of host (createCredentialsWithClobClient env) w in
  In key (wallet_keys t) ->
  decodePrivateKey (env_string (getenv env (str "PRIVATE_KEY"))) = Returned key /\
  length key = 66%nat /\ startsWith key (str "0x") = true /\
  wallet_keys t = [key].
Proof.
  intros t. unfold t, createCredentialsWithClobClient, steps_of.
  destruct (falsy (getenv env (str "PRIVATE_KEY"))); [intros []|].
  destruct (decodePrivateKey (env_string (getenv env (str "PRIVATE_KEY"))))
    as [k|e] eqn:D.
  2:{ apply decodePrivateKey_throws in D. subst e. intros []. }
  apply decodePrivateKey_shape in D. destruct D as [L P].
  every_run_caught; intros [<-|[]]; now repeat split.
Qed.

(** X25. Without [PRIVATE_KEY], or with one [decodePrivateKey] rejects,
    [createCredentialsWithClobClient] ends the process with code 1 before
    it builds a wallet or a client. *)
Theorem create_credentials_without_key_exits (env : ProcessEnv) (w : HostState host) :
  let encodedPrivateKey := getenv env (str "PRIVATE_KEY") in
  falsy encodedPrivateKey = true \/
  decodePrivateKey (env_string encodedPrivateKey) = Thrown unknown_format ->
  exec host (createCredentialsWithClobClient env) w = (Exited 1, w, []).
Proof.
  intros k H. unfold createCredentialsWithClobClient. fold k.
  destruct (falsy k); [reflexivity|].
  destruct H as [H|H]; [discriminate|]. now rewrite H.
Qed.

(** *** Scripts in sequence *)

Lemma exec_andThen {A B : Type} (p : script Hd A) (f : A -> script Hd B)
    (w : HostState host) :
  exec host (andThen p f) w =
  let '(o, w1, t1) := exec host p w in
  match o with
  | Fulfilled a => let '(o2, w2, t2) := exec host (f a) w1 in (o2, w2, t1 ++ t2)
  | RejectedWith e => (RejectedWith e, w1, t1)
  | Exited code => (Exited code, w1, t1)
  end.
Proof.
  revert w. induction p as [r|e|code|X c k IH]; intros w; cbn [andThen exec].
  - destruct (exec host (f r) w) as [[o2 w2] t2]. reflexivity.
  - reflexivity.
  - reflexivity.
  - destruct (respond host c w) as [a w']. rewrite IH.
    destruct (exec host (k a) w') as [[o w1] t1].
    destruct o; [destruct (exec host (f a0) w1) as [[o2 w2] t2]|..]; reflexivity.
Qed.

Lemma exec_tryCatch {A : Type} (p : script Hd A) (handler : exn -> script Hd A)
    (w : HostState host) :
  exec host (tryCatch p handler) w =
  let '(o, w1, t1) := exec host p w in
  match o with
  | Fulfilled a => (Fulfilled a, w1, t1)
  | RejectedWith e =>
      let '(o2, w2, t2) := exec host (handler e) w1 in (o2, w2, t1 ++ t2)
  | Exited code => (Exited code, w1, t1)
  end.
Proof.
  revert w. induction p as [r|e|code|X c k IH]; intros w; cbn [tryCatch exec].
  - reflexivity.
  - destruct (exec host (handler e) w) as [[o2 w2] t2]. reflexivity.
  - reflexivity.
  - destruct (respond host c w) as [a w']. rewrite IH.
    destruct (exec host (k a) w') as [[o w1] t1].
    destruct o; [|destruct (exec host (handler e) w1) as [[o2 w2] t2]|]; reflexivity.
Qed.

(** *** [place_bet.ts] *)

(** X26. Without [WALLET_ID] or [MAKER_ADDRESS] the order script of
    [place_bet.ts] rejects before it builds a client. *)
Theorem place_bet_requires_wallet_and_maker (env : ProcessEnv) (w : HostState host) :
  falsy (getenv env (str "WALLET_ID")) || falsy (getenv env (str "MAKER_ADDRESS")) = true ->
  exec host (PlaceBet.placeBetWithClobClient env) w =
  (RejectedWith PlaceBet.missing_wallet_or_maker, w, []).
Proof.
  intros H. unfold PlaceBet.placeBetWithClobClient. now rewrite H.
Qed.

Lemma served_after_client (walletId : jsstring) {X : Type} (o : ending X)
    (t : list (step Hd)) (appId appSecret key : jsstring) (a : exn + PrivyHandle Hd) :
  served_by_signer walletId o t ->
  served_by_signer walletId o (Step (NewPrivy appId appSecret key) a :: t).
Proof. intros (E & O & C & R & S). now repeat split. Qed.

Lemma served_after_signing (walletId : jsstring) {X : Type} (o : ending X)
    (t : list (step Hd)) (privy : PrivyHandle Hd) (typedData : TypedData)
    (a : exn + option jsstring) :
  served_by_signer walletId o t ->
  served_by_signer walletId o (Step (SignTypedData privy walletId typedData) a :: t).
Proof.
  intros (E & O & C & R & S). repeat split; trivial.
  intros request [<-|I]; [reflexivity|now apply S].
Qed.

Lemma signer_script (env : ProcessEnv) (walletId : jsstring) (domain : TypedDomain)
    (types : list (jsstring * list TypedField)) (value : list (jsstring * MessageValue)) :
  PlaceBet.signTypedData (Hd := Hd) env walletId domain types value =
  andThen
    (signWithServerWallet env walletId
       {| td_types := types;
          td_primaryType := match types with
                            | [] => None
                            | (key, _) :: _ => Some key
                            end;
          td_domain := domain;
          td_message := value |})
    (fun signature =>
       if falsy signature then Fail PlaceBet.signature_not_obtained
       else Done (env_string signature)).
Proof. reflexivity. Qed.

(** While a call of the client is served, only the signer makes calls, and
    it signs for the configured wallet. *)
Lemma serve_signer (env : ProcessEnv) (walletId : jsstring) {X : Type}
    (call : pending X) (w : HostState host) :
  let r := exec host (serve (PlaceBet.signTypedData env walletId) call) w in
  served_by_signer walletId (fst (fst r)) (snd r).
Proof.
  revert w. induction call as [a|domain types value next IH]; intros w; cbn [serve].
  - destruct a as [e|x]; cbn.
    + split; [now exists (inl e)|]. repeat split. intros request [].
    + split; [now exists (inr x)|]. repeat split. intros request [].
  - unfold attempt. rewrite signer_script.
    destruct (falsy (getenv env (str "PRIVY_APP_ID"))
              || falsy (getenv env (str "PRIVY_APP_SECRET"))
              || falsy (getenv env (str "PRIVY_AUTHORIZATION_PRIVATE_KEY"))) eqn:C.
    + rewrite sign_unconfigured by exact C. cbn [andThen tryCatch].
      apply IH.
    + rewrite sign_steps by exact C.
      answer_as privy; [|answer_as signature; [|destruct (falsy signature)]];
        cbn [andThen tryCatch exec];
        match goal with
        | |- context [exec host (serve ?S (next ?outcome)) ?w'] =>
            pose proof (IH outcome w') as F; cbv zeta in F;
            destruct (exec host (serve S (next outcome)) w') as [[o w''] t]
        end;
        cbn [fst snd] in F |- *;
        repeat first [apply served_after_client | apply served_after_signing];
        exact F.
Qed.

Lemma own_kinds_app (t1 t2 : list (step Hd)) :
  own_kinds (t1 ++ t2) = own_kinds t1 ++ own_kinds t2.
Proof. unfold own_kinds, kinds. now rewrite map_app, filter_app. Qed.

Lemma clock_readings_app (t1 t2 : list (step Hd)) :
  clock_readings (t1 ++ t2) = clock_readings t1 ++ clock_readings t2.
Proof. apply flat_map_app. Qed.

Lemma orders_app (t1 t2 : list (step Hd)) :
  orders (t1 ++ t2) = orders t1 ++ orders t2.
Proof. apply flat_map_app. Qed.

Lemma sign_requests_app (t1 t2 : list (step Hd)) :
  sign_requests (t1 ++ t2) = sign_requests t1 ++ sign_requests t2.
Proof. apply flat_map_app. Qed.


(** X27. With both variables set, the script of [place_bet.ts] never
    rejects, and the market lookup decides nothing: once the client is
    built the market is looked up, the clock is read and, whatever the
    lookup gave, the order is posted: 3 units at 0.06 of the fixed token,
    for the maker address, with the clock reading as nonce. The only other
    calls are the signer's, made while a call of the client is pending, and
    it signs for [WALLET_ID] only. *)
Theorem place_bet_posts_whatever_the_market_says (env : ProcessEnv)
    (w : HostState host) :
  let p := PlaceBet.placeBetWithClobClient env in
  let t := steps_of host p w in
  let makerAddress := env_string (getenv env (str "MAKER_ADDRESS")) in
  let walletId := env_string (getenv env (str "WALLET_ID")) in
  falsy (getenv env (str "WALLET_ID")) || falsy (getenv env (str "MAKER_ADDRESS")) = false ->
  ending_of host p w = Fulfilled tt /\
  (forall request, In request (sign_requests t) -> fst request = walletId) /\
  (kinds t = [KNewClob] /\ failures t = [KNewClob] \/
   (exists e, clock_readings t = [inl e]) /\
   own_kinds t = [KNewClob; KGetMarket; KDateNow] \/
   exists now,
     clock_readings t = [inr now] /\
     own_kinds t = [KNewClob; KGetMarket; KDateNow; KCreateAndPostOrder] /\
     orders t = [PlaceBet.orderParams 3 makerAddress now]).
Proof.
  intros p t makerAddress walletId H.
  unfold t, p, PlaceBet.placeBetWithClobClient, ending_of, steps_of.
  rewrite H. cbv zeta. fold makerAddress walletId.
  repeat first
    [ rewrite exec_tryCatch
    | rewrite exec_andThen
    | progress cbn [exec awaiting settled fst snd]
    | match goal with
      | |- context [respond host ?c ?w] =>
          destruct (respond host c w) as [[?e|?x] ?w]
      end
    | match goal with
      | |- context [exec host (serve ?S ?call) ?w'] =>
          let F := fresh "F" in
          pose proof (serve_signer env walletId call w') as F; cbv zeta in F;
          destruct (exec host (serve S call) w') as [[?o ?w] ?t];
          cbn [fst snd] in F;
          destruct F as ([[?e|?x] ->] & ? & ? & ? & ?)
      end ].
  all: cbn [app]; rewrite ?app_nil_r;
    unfold own_kinds, kinds, failures, clock_readings, orders, sign_requests in *;
    repeat (cbn [map filter flat_map app negb signer_kind kind_of_op step_op
                 step_answer failed clock_of order_of sign_request_of];
            rewrite ?map_app, ?filter_app, ?flat_map_app;
            repeat match goal with
                   | E : _ = [] |- _ => rewrite E
                   end);
    (split; [reflexivity|]);
    (split;
     [ intros request I; cbn [In] in I;
       repeat match goal with
              | I : In _ (_ ++ _) |- _ => apply in_app_or in I; destruct I
              | I : In _ [] |- _ => destruct I
              | I : False |- _ => destruct I
              end; auto
     | first [ left; split; reflexivity
             | right; left; split; [eexists; reflexivity|reflexivity]
             | right; right; eexists; repeat split; reflexivity ] ]).
Qed.

(** *** The order script that signs with a private key *)

Lemma strict_key_passes_the_checks (s privateKey : jsstring) :
  decodeDoubleHexPrivateKey s = Returned privateKey ->
  empty privateKey = false /\
  startsWith privateKey (str "0x") = true /\
  (length privateKey =? 66)%nat = true /\
  PlaceBetWithKey.test_0x_hex64 privateKey = true.
Proof.
  intros H. apply decodeDoubleHex_shape in H. destruct H as [h [-> Hh]].
  unfold PlaceBetWithKey.test_0x_hex64. rewrite startsWith_0x.
  change (slice 2 (str "0x" ++ h)) with h. rewrite Hh.
  rewrite length_app, (test_hex_length _ _ Hh). now repeat split.
Qed.

(** X28. The order script that works from [PRIVATE_KEY] can reject in two
    ways only, both before any call: with the normaliser's error, or for a
    missing [MAKER_ADDRESS]. Its two later checks of the key (66 characters
    behind [0x]; hexadecimal digits) never fire, since the normaliser
    returns nothing else; every later failure is swallowed. *)
Theorem key_checks_after_normalisation_never_fire (env : ProcessEnv)
    (w : HostState host) :
  let p := PlaceBetWithKey.placeBetWithClobClient env in
  (ending_of host p w = Fulfilled tt \/
   exec host p w = (RejectedWith invalid_format, w, []) \/
   exec host p w = (RejectedWith PlaceBetWithKey.missing_key_or_maker, w, [])) /\
  ending_of host p w <> RejectedWith PlaceBetWithKey.not_hex /\
  forall privateKey,
    ending_of host p w <> RejectedWith (PlaceBetWithKey.unexpected_length privateKey).
Proof.
  intros p.
  assert (D : ending_of host p w = Fulfilled tt \/
              exec host p w = (RejectedWith invalid_format, w, []) \/
              exec host p w =
              (RejectedWith PlaceBetWithKey.missing_key_or_maker, w, [])).
  { unfold p, PlaceBetWithKey.placeBetWithClobClient, ending_of.
    destruct (decodeDoubleHexPrivateKey
                (or_default (getenv env (str "PRIVATE_KEY")) [])) as [k|e] eqn:K.
    2:{ right; left. unfold decodeDoubleHexPrivateKey in K.
        repeat match type of K with
               | (if ?b then _ else _) = _ => destruct b
               | (let _ := _ in _) = _ => cbv zeta in K
               end; try discriminate; injection K as <-; reflexivity. }
    destruct (strict_key_passes_the_checks _ K) as [E [P [L T]]].
    cbn [lifted andThen]. rewrite E, P, L, T. cbn [orb negb].
    destruct (falsy (getenv env (str "MAKER_ADDRESS"))); [now right; right|].
    left. every_run; repeat match goal with x : unit |- _ => destruct x end;
      reflexivity. }
  split; [exact D|]. unfold ending_of at 1 2.
  split; [|intros privateKey];
    destruct D as [D|[D|D]]; try (unfold ending_of in D); rewrite D;
    cbn [fst]; discriminate.
Qed.

(** X29. In the order script that works from [PRIVATE_KEY], the wallet is
    built from the normalised key only, [0x] and 64 hexadecimal digits;
    what is posted is the order of 5 units for the maker address; and the
    order is looked up again only when the exchange returned an order id. *)
Theorem key_script_steps (env : ProcessEnv) (w : HostState host) :
  let t := steps_of host (PlaceBetWithKey.placeBetWithClobClient env) w in
  let makerAddress := env_string (getenv env (str "MAKER_ADDRESS")) in
  (forall key, In key (wallet_keys t) ->
     decodeDoubleHexPrivateKey (or_default (getenv env (str "PRIVATE_KEY")) [])
     = Returned key /\
     PlaceBetWithKey.test_0x_hex64 key = true) /\
  (forall order, In order (orders t) ->
     exists now, In (inr now) (clock_readings t) /\
                 order = PlaceBet.orderParams 5 makerAddress now) /\
  (In KGetOrder (kinds t) ->
     exists result, order_results t = [result] /\
                    falsy (order_orderId result) = false) /\
  (In KGetMarkets (kinds t) ->
     exists market, markets t = [market] /\
                    market_accepting_orders market = false).
Proof.
  intros t makerAddress.
  unfold t, PlaceBetWithKey.placeBetWithClobClient, steps_of.
  destruct (decodeDoubleHexPrivateKey
              (or_default (getenv env (str "PRIVATE_KEY")) [])) as [k|e] eqn:K.
  2:{ cbn. repeat split; intros; contradiction. }
  destruct (strict_key_passes_the_checks _ K) as [E [P [L T]]].
  cbn [lifted andThen]. rewrite E, P, L, T. cbn [orb negb].
  destruct (falsy (getenv env (str "MAKER_ADDRESS"))).
  { cbn. repeat split; intros; contradiction. }
  fold makerAddress.
  every_run;
    (split; [intros key [<-|[]]; now split|]);
    (split; [intros order I; cbn [In] in I;
             first [contradiction
                   | destruct I as [<-|[]]; eexists; split; [apply in_eq|reflexivity]]|]);
    (split; intros I; cbn [In] in I;
     first [ intuition discriminate
           | eexists; split; [reflexivity|];
             first [assumption
                   | match goal with H : negb _ = true |- _ =>
                       apply negb_true_iff in H; exact H end] ]).
Qed.

End ScriptFacts.

(** ** Further runs on the test platforms *)

Lemma decrypt_rejects_malformed_base64_witness :
  let p : prog Mock.objects jsstring :=
    decryptHPKEMessage (str "a-b_") (toBase64 Mock.seed) (toBase64 Mock.sealed) in
  let t := trace_of Mock.platform p (Mock.world0 200) in
  (exists e, result_of Mock.platform p (Mock.world0 200) = Thrown e) /\
  openings t = [] /\
  (malformed_base64 (str "a-b_") -> imported_keys t = []).
Proof.
  apply (@decrypt_rejects_malformed_base64 Mock.objects Mock.platform
           (str "a-b_") (toBase64 Mock.seed) (toBase64 Mock.sealed) (Mock.world0 200)).
  left. exists 45. split; [right; left; reflexivity|reflexivity].
Defined.

Lemma decrypt_returns_what_was_opened_witness :
  let p : prog Mock.objects jsstring :=
    decryptHPKEMessage (toBase64 Mock.sk) (toBase64 Mock.seed) (toBase64 Mock.sealed) in
  let t := trace_of Mock.platform p (Mock.world0 200) in
  exists data pt,
    base64ToBuffer (toBase64 Mock.sealed) = Returned data /\
    openings t = [(data, inr pt)] /\
    length t = 4%nat /\
    str "0x" ++ toHex Mock.plaintext = str "0x" ++ toHex pt /\
    length (str "0x" ++ toHex Mock.plaintext) = (2 + 2 * length pt)%nat.
Proof.
  apply (@decrypt_returns_what_was_opened Mock.objects Mock.platform
           (toBase64 Mock.sk) (toBase64 Mock.seed) (toBase64 Mock.sealed)
           (str "0x" ++ toHex Mock.plaintext) (Mock.world0 200)).
  reflexivity.
Defined.

Lemma export_without_signature_sends_nothing_witness :
  result_of MockUnsigned.platform Mock.export (Mock.world0 200)
  = Thrown signature_undefined /\
  fetch_requests (trace_of MockUnsigned.platform Mock.export (Mock.world0 200)) = [].
Proof.
  apply (@export_without_signature_sends_nothing Mock.objects MockUnsigned.platform
           (str "app") (str "secret") (str "w_123") (str "authkey") (Mock.world0 200)).
  left. vm_compute. left. reflexivity.
Defined.

Lemma export_returns_after_ok_response_witness :
  let t := trace_of Mock.platform Mock.export (Mock.world0 200) in
  exists request response data pt,
    fetch_requests t = [request] /\
    req_url request = export_url (str "w_123") /\
    fetch_responses t = [response] /\
    ok response = true /\
    openings t = [(data, inr pt)] /\
    str "0x" ++ toHex (Mock.custody_secret (Mock.world0 200)) = str "0x" ++ toHex pt.
Proof.
  apply (@export_returns_after_ok_response Mock.objects Mock.platform
           (str "app") (str "secret") (str "w_123") (str "authkey")
           (str "0x" ++ toHex (Mock.custody_secret (Mock.world0 200)))
           (Mock.world0 200)).
  vm_compute. reflexivity.
Defined.


Lemma export_sends_what_was_signed_witness :
  let t := trace_of Mock.platform Mock.export (Mock.world0 200) in
  let request := Mock.request 0 in
  exists input signature,
    signature_inputs t = [input] /\
    signature_answers t = [inr (Some signature)] /\
    fetch_requests t = [request] /\
    req_url request = si_url input /\
    req_method request = si_method input /\
    req_body request = stringify_body (si_body input) /\
    (forall header, In header (si_headers input) -> In header (req_headers request)) /\
    In (str "privy-authorization-signature", signature) (req_headers request).
Proof.
  apply (@export_sends_what_was_signed Mock.objects Mock.platform
           (str "app") (str "secret") (str "w_123") (str "authkey")
           (Mock.world0 200) (Mock.request 0)).
  vm_compute. left. reflexivity.
Defined.

(** ** Runs of the scripts on the test host *)

Lemma sign_requires_credentials_witness :
  exec ClobMock.host (signWithServerWallet [] (str "w_123") ClobMock.typedData)
    ClobMock.state0
  = (RejectedWith missing_credentials, ClobMock.state0, []).
Proof.
  apply (@sign_requires_credentials ClobMock.handles ClobMock.host []
           (str "w_123") ClobMock.typedData ClobMock.state0).
  reflexivity.
Defined.


Lemma derive_request_matches_what_was_signed_witness :
  let t := steps_of ClobMock.host ClobMock.derive ClobMock.state0 in
  exists now signature,
    let timestamp := number_toString (now / 1000) in
    clock_readings t = [inr now] /\
    sign_requests t
    = [(str "w_123", clobAuthTypedData (str "0xmaker") timestamp 0)] /\
    signings t = [inr signature] /\
    falsy signature = false /\
    requests t
    = [derive_request (str "0xmaker") (env_string signature) timestamp 0].
Proof.
  apply (@derive_request_matches_what_was_signed ClobMock.handles ClobMock.host
           ClobMock.privy_env (str "w_123") (str "0xmaker") 0 ClobMock.state0
           (derive_request (str "0xmaker") (str "0xsig") (str "1700000000") 0)).
  vm_compute. left. reflexivity.
Defined.

Lemma derive_returns_the_parsed_fields_witness :
  let t := steps_of ClobMock.host ClobMock.derive ClobMock.accepting in
  exists response responseData,
    responses t = [response] /\
    ok response = true /\
    parsings t = [(response, inr responseData)] /\
    ClobMock.credentials
    = {| cred_key := json_apiKey responseData;
         cred_secret := json_secret responseData;
         cred_passphrase := json_passphrase responseData |} /\
    kinds t = [KDateNow; KNewPrivy; KSignTypedData; KHttpFetch; KJsonCredentials].
Proof.
  apply (@derive_returns_the_parsed_fields ClobMock.handles ClobMock.host
           ClobMock.privy_env (str "w_123") (str "0xmaker") 0 ClobMock.accepting
           ClobMock.credentials).
  reflexivity.
Defined.

Lemma generate_without_configuration_only_reads_the_clock_witness :
  let p : script ClobMock.handles ApiCredentials :=
    generateApiCredentials [] (str "w_123") (str "0xmaker") in
  (exists e, ending_of ClobMock.host p ClobMock.state0 = RejectedWith e) /\
  (kinds (steps_of ClobMock.host p ClobMock.state0) = [] \/
   kinds (steps_of ClobMock.host p ClobMock.state0) = [KDateNow]) /\
  (empty (str "w_123") || empty (str "0xmaker") = true ->
   exec ClobMock.host p ClobMock.state0
   = (RejectedWith arguments_required, ClobMock.state0, [])).
Proof.
  apply (@generate_without_configuration_only_reads_the_clock ClobMock.handles
           ClobMock.host [] (str "w_123") (str "0xmaker") ClobMock.state0).
  reflexivity.
Defined.

Lemma generate_unsigned_sends_nothing_witness :
  ending_of ClobMock.host ClobMock.generate ClobMock.unsigned
  = RejectedWith creation_not_signed /\
  requests (steps_of ClobMock.host ClobMock.generate ClobMock.unsigned) = [] /\
  signings (steps_of ClobMock.host ClobMock.generate ClobMock.unsigned) = [inr None].
Proof.
  apply (@generate_unsigned_sends_nothing ClobMock.handles ClobMock.host
           ClobMock.privy_env (str "w_123") (str "0xmaker") ClobMock.unsigned None);
    reflexivity.
Defined.

Lemma generate_falls_back_to_creation_witness :
  let t := steps_of ClobMock.host ClobMock.generate ClobMock.state0 in
  exists now,
    hd_error (clock_readings t) = Some (inr now) /\
    let post := creation_request (str "0xmaker") (str "0xsig")
                  (number_toString (now / 1000)) 0 in
    ((exists derivedCreds,
        ending_of ClobMock.host ClobMock.generate ClobMock.state0
        = Fulfilled derivedCreds /\
        falsy (cred_key derivedCreds) = false /\
        forall r, In r (requests t) -> http_method r = GET)
     \/
     (exists before,
        requests t = before ++ [post] /\
        forall r, In r before -> http_method r = GET)).
Proof.
  apply (@generate_falls_back_to_creation ClobMock.handles ClobMock.host
           ClobMock.privy_env (str "w_123") (str "0xmaker") ClobMock.state0
           (Some (str "0xsig"))); reflexivity.
Defined.

Lemma wallet_key_is_the_decoded_key_witness :
  let key := str "0x" ++ repeat 102 64 in
  let t := steps_of ClobMock.host
             (createCredentialsWithClobClient ClobMock.privy_env) ClobMock.state0 in
  decodePrivateKey (env_string (getenv ClobMock.privy_env (str "PRIVATE_KEY")))
  = Returned key /\
  length key = 66%nat /\ startsWith key (str "0x") = true /\
  wallet_keys t = [key].
Proof.
  apply (@wallet_key_is_the_decoded_key ClobMock.handles ClobMock.host
           ClobMock.privy_env ClobMock.state0 (str "0x" ++ repeat 102 64)).
  vm_compute. left. reflexivity.
Defined.

Lemma create_credentials_without_key_exits_witness :
  exec ClobMock.host (createCredentialsWithClobClient []) ClobMock.state0
  = (Exited 1, ClobMock.state0, []).
Proof.
  apply (@create_credentials_without_key_exits ClobMock.handles ClobMock.host []
           ClobMock.state0).
  left. reflexivity.
Defined.

Lemma place_bet_requires_wallet_and_maker_witness :
  exec ClobMock.host (PlaceBet.placeBetWithClobClient []) ClobMock.state0
  = (RejectedWith PlaceBet.missing_wallet_or_maker, ClobMock.state0, []).
Proof.
  apply (@place_bet_requires_wallet_and_maker ClobMock.handles ClobMock.host []
           ClobMock.state0).
  reflexivity.
Defined.

Lemma place_bet_posts_whatever_the_market_says_witness :
  let p : script ClobMock.handles unit :=
    PlaceBet.placeBetWithClobClient ClobMock.privy_env in
  let t := steps_of ClobMock.host p ClobMock.state0 in
  ending_of ClobMock.host p ClobMock.state0 = Fulfilled tt /\
  (forall request, In request (sign_requests t) -> fst request = str "w_123") /\
  (kinds t = [KNewClob] /\ failures t = [KNewClob] \/
   (exists e, clock_readings t = [inl e]) /\
   own_kinds t = [KNewClob; KGetMarket; KDateNow] \/
   exists now,
     clock_readings t = [inr now] /\
     own_kinds t = [KNewClob; KGetMarket; KDateNow; KCreateAndPostOrder] /\
     orders t = [PlaceBet.orderParams 3 (str "0xmaker") now]).
Proof.
  apply (@place_bet_posts_whatever_the_market_says ClobMock.handles ClobMock.host
           ClobMock.privy_env ClobMock.state0).
  reflexivity.
Defined.

(** The signer's calls are made while the order is pending. *)
Example place_bet_run_signs :
  kinds (steps_of ClobMock.host
           (PlaceBet.placeBetWithClobClient ClobMock.privy_env) ClobMock.state0)
  = [KNewClob; KGetMarket; KDateNow; KCreateAndPostOrder; KNewPrivy; KSignTypedData].
Proof. reflexivity. Qed.

(** A rejection of [createApiKey] with [undefined] makes the catch block
    throw. *)
Example create_credentials_rejects_on_undefined :
  ending_of ClobMock.host_rejecting_with_undefined
    (createCredentialsWithClobClient ClobMock.privy_env) ClobMock.state0
  = RejectedWith (TypeError (str "Cannot read properties of undefined (reading 'error')")).
Proof. reflexivity. Qed.
